(** * Aliyun SMS client (src/sms.ts): signing pipeline and response mapping

    A shallow embedding of the [AliSMS] class of [src/sms.ts] together with
    the parts of the JavaScript runtime its methods call
    ([encodeURIComponent], [String], [Object.keys], [Array.prototype.sort],
    [String.prototype.substring], property reads on parsed JSON), followed
    by the properties of the signing pipeline and of the two response
    mappings. *)

From Stdlib Require Import List NArith ZArith Lia Bool Ascii.
From Stdlib Require Import Permutation Sorted.
From Stdlib Require String.
Import ListNotations String.StringSyntax.

Set Warnings "-register-all".

(* ===================================================================== *)
(** ** The JavaScript runtime the class relies on *)
(* ===================================================================== *)

Module JS.

(** A JavaScript string is a sequence of UTF-16 code units (each below
    [0x10000]). *)
Definition code_unit := N.
Definition jsstring := list code_unit.

(** ASCII literals of the source text, as code-unit sequences. *)
Module Export Literal.
Import String.
Definition lit (s : string) : jsstring :=
  map N_of_ascii (list_ascii_of_string s).
End Literal.

(** Exceptions that can reach the caller of the two public methods. *)
Inductive error :=
| URIError            (* encodeURIComponent on a lone surrogate *)
| TypeError           (* property read on undefined/null, call of a
                         non-function, no primitive form of an object *)
| TransportFailure.   (* fetch rejected, or the body is not JSON *)

Inductive outcome (A : Type) :=
| Ok (a : A)
| Throw (e : error).
Arguments Ok {A} a.
Arguments Throw {A} e.

Definition bind {A B} (m : outcome A) (k : A -> outcome B) : outcome B :=
  match m with
  | Ok a => k a
  | Throw e => Throw e
  end.

Declare Scope js_scope.
Delimit Scope js_scope with js.
Notation "x <- m ;; k" := (bind m (fun x => k))
  (at level 61, m at next level, right associativity) : js_scope.
Local Open Scope js_scope.
Local Open Scope N_scope.

(** *** Strings: equality and the code-unit order used by [sort] *)

Fixpoint str_eqb (a b : jsstring) : bool :=
  match a, b with
  | [], [] => true
  | x :: a', y :: b' => (x =? y) && str_eqb a' b'
  | _, _ => false
  end.

(** [a < b] on strings (IsLessThan): a proper prefix is smaller, otherwise
    the first differing code unit decides. *)
Fixpoint str_ltb (a b : jsstring) : bool :=
  match a, b with
  | [], [] => false
  | [], _ :: _ => true
  | _ :: _, [] => false
  | x :: a', y :: b' =>
      if x <? y then true
      else if y <? x then false
      else str_ltb a' b'
  end.

Definition str_leb (a b : jsstring) : bool := negb (str_ltb b a).

(** [s.substring(1)]: everything after the first code unit; the empty
    string stays empty. *)
Definition substring1 (s : jsstring) : jsstring :=
  match s with
  | [] => []
  | _ :: r => r
  end.

(** *** encodeURIComponent (ECMA-262, Encode with the uriUnescaped set) *)

Definition in_range (lo hi c : N) : bool := (lo <=? c) && (c <=? hi).

(** uriAlpha, DecimalDigit and uriMark: [A-Z a-z 0-9 - _ . ! ~ * ' ( )]. *)
Definition uriUnescaped (c : code_unit) : bool :=
  in_range 65 90 c || in_range 97 122 c || in_range 48 57 c ||
  (c =? 45) || (c =? 95) || (c =? 46) || (c =? 33) || (c =? 126) ||
  (c =? 42) || (c =? 39) || (c =? 40) || (c =? 41).

Definition is_lead_surrogate (c : code_unit) : bool := in_range 0xD800 0xDBFF c.
Definition is_trail_surrogate (c : code_unit) : bool := in_range 0xDC00 0xDFFF c.

(** UTF16SurrogatePairToCodePoint. *)
Definition pair_code_point (lead trail : code_unit) : N :=
  (lead - 0xD800) * 0x400 + (trail - 0xDC00) + 0x10000.

(** The UTF-8 transformation of a code point. *)
Definition UTF8 (cp : N) : list N :=
  if cp <? 0x80 then [cp]
  else if cp <? 0x800 then
    [0xC0 + (cp / 0x40) mod 0x20; 0x80 + cp mod 0x40]
  else if cp <? 0x10000 then
    [0xE0 + (cp / 0x1000) mod 0x10; 0x80 + (cp / 0x40) mod 0x40;
     0x80 + cp mod 0x40]
  else
    [0xF0 + (cp / 0x40000) mod 8; 0x80 + (cp / 0x1000) mod 0x40;
     0x80 + (cp / 0x40) mod 0x40; 0x80 + cp mod 0x40].

(** One uppercase hexadecimal digit. *)
Definition hex_digit (d : N) : code_unit :=
  if d <? 10 then 48 + d else 55 + d.

(** ["%"] followed by the octet as two uppercase hexadecimal digits. *)
Definition percent (octet : N) : jsstring :=
  [37; hex_digit (octet / 16); hex_digit (octet mod 16)].

Definition percent_octets (octets : list N) : jsstring :=
  flat_map percent octets.

(** The loop of Encode: an unescaped code unit is copied; otherwise the code
    point at the current index is read (a surrogate pair counts as one code
    point, a surrogate without its partner throws URIError) and each octet
    of its UTF-8 form is written as a percent escape. *)
Fixpoint encodeURIComponent (s : jsstring) : outcome jsstring :=
  match s with
  | [] => Ok []
  | C :: rest =>
      if uriUnescaped C then
        R <- encodeURIComponent rest ;; Ok (C :: R)
      else if is_lead_surrogate C then
        match rest with
        | C2 :: rest' =>
            if is_trail_surrogate C2 then
              R <- encodeURIComponent rest' ;;
              Ok (percent_octets (UTF8 (pair_code_point C C2)) ++ R)
            else Throw URIError
        | [] => Throw URIError
        end
      else if is_trail_surrogate C then Throw URIError
      else
        R <- encodeURIComponent rest ;; Ok (percent_octets (UTF8 C) ++ R)
  end.

(** *** Values *)

(** Run-time values: what [JSON.parse] can build, plus [undefined].
    Numbers are the integer-valued ones (page sizes, counts, status codes,
    the nonce), within the safe range (see [safe_integer]) wherever one is
    printed; the class never computes with a number, it only passes it on
    or prints it. *)
Inductive value :=
| VUndefined
| VNull
| VBool (b : bool)
| VNum (z : Z)
| VStr (s : jsstring)
| VArr (l : list value)
| VObj (o : list (jsstring * value)).

(** An ordinary object: its own string-keyed properties in creation
    order; a valid object has no repeated key. *)
Definition object := list (jsstring * value).

Fixpoint uint_units (d : Decimal.uint) : jsstring :=
  match d with
  | Decimal.Nil => []
  | Decimal.D0 r => 48 :: uint_units r
  | Decimal.D1 r => 49 :: uint_units r
  | Decimal.D2 r => 50 :: uint_units r
  | Decimal.D3 r => 51 :: uint_units r
  | Decimal.D4 r => 52 :: uint_units r
  | Decimal.D5 r => 53 :: uint_units r
  | Decimal.D6 r => 54 :: uint_units r
  | Decimal.D7 r => 55 :: uint_units r
  | Decimal.D8 r => 56 :: uint_units r
  | Decimal.D9 r => 57 :: uint_units r
  end.

(** [Number.isSafeInteger]: the integers below [2^53] in magnitude.  Each
    of them is a Number, and Number::toString prints it digit by digit. *)
Definition safe_integer (z : Z) : bool := (Z.abs z <? 2 ^ 53)%Z.

(** Number::toString of a safe integer: its decimal digits, with ["-"]
    before a negative one.  (From [2^53] on not every integer is a Number,
    the digits printed are the shortest that read back, and from [10^21] on
    they come with an exponent, as in ["1e+21"]; such numbers are not
    covered, and a statement about a number that a caller chooses assumes
    [safe_integer].) *)
Definition NumberToString (z : Z) : jsstring :=
  match z with
  | Z0 => [48]
  | Zpos p => uint_units (Pos.to_uint p)
  | Zneg p => 45 :: uint_units (Pos.to_uint p)
  end.

(** Own property lookup. *)
Fixpoint get_own (o : object) (k : jsstring) : option value :=
  match o with
  | [] => None
  | (k', v) :: r => if str_eqb k' k then Some v else get_own r k
  end.

(** [String(v)]: ToString.  An array prints as its elements joined by
    [","], converted from left to right, where [undefined] and [null]
    elements print as nothing.  An object is printed by the [toString] it
    finds: the one of [Object.prototype] gives ["[object Object]"]; an own
    property [toString] hides that one and, as no value here is callable,
    [valueOf] is tried next, which (own or inherited) gives no primitive
    either, so the conversion throws TypeError. *)
Fixpoint ToString (v : value) : outcome jsstring :=
  match v with
  | VUndefined => Ok (lit "undefined")
  | VNull => Ok (lit "null")
  | VBool true => Ok (lit "true")
  | VBool false => Ok (lit "false")
  | VNum z => Ok (NumberToString z)
  | VStr s => Ok s
  | VArr l =>
      (fix join (l : list value) : outcome jsstring :=
         match l with
         | [] => Ok []
         | x :: r =>
             sx <- match x with
                   | VUndefined | VNull => Ok []
                   | _ => ToString x
                   end ;;
             match r with
             | [] => Ok sx
             | _ :: _ => sr <- join r ;; Ok (sx ++ 44 :: sr)
             end
         end) l
  | VObj o =>
      match get_own o (lit "toString") with
      | Some _ => Throw TypeError
      | None => Ok (lit "[object Object]")
      end
  end.

(** *** Objects *)

(** [o[k]] on an ordinary object, for a key that no built-in prototype
    defines: the own property, else [undefined]. *)
Definition get (o : object) (k : jsstring) : value :=
  match get_own o k with
  | Some v => v
  | None => VUndefined
  end.

(** [o.k = v]: overwrite in place, or append a new property. *)
Fixpoint set (o : object) (k : jsstring) (v : value) : object :=
  match o with
  | [] => [(k, v)]
  | (k', v') :: r =>
      if str_eqb k' k then (k', v) :: r else (k', v') :: set r k v
  end.

(** [Object.keys(o)]: the own keys.  (An engine lists integer-like keys
    first; [specParams] sorts the list, so there only the set of keys
    matters.) *)
Definition Object_keys (o : object) : list jsstring := map fst o.

(** [v.k] for a parsed JSON value and one of the property names the class
    reads (none of them is defined on a built-in prototype): reading from
    [undefined] or [null] throws TypeError, an object gives its own
    property or [undefined], every other value gives [undefined]. *)
Definition get_prop (v : value) (k : jsstring) : outcome value :=
  match v with
  | VUndefined | VNull => Throw TypeError
  | VObj o => Ok (get o k)
  | _ => Ok VUndefined
  end.

(** [v !== s] for a string literal [s]. *)
Definition strict_neq_str (v : value) (s : jsstring) : bool :=
  match v with
  | VStr t => negb (str_eqb t s)
  | _ => true
  end.

(** *** Array.prototype.sort with the default comparison *)

(** ECMA-262 fixes the result (ascending by code units, stable) and leaves
    the algorithm open; an insertion sort is used here. *)
Fixpoint insert_sorted (k : jsstring) (l : list jsstring) : list jsstring :=
  match l with
  | [] => [k]
  | x :: r => if str_ltb x k then x :: insert_sorted k r else k :: x :: r
  end.

Fixpoint sort (l : list jsstring) : list jsstring :=
  match l with
  | [] => []
  | x :: r => insert_sorted x (sort r)
  end.

(** [l.forEach(body)] where the body updates one captured variable and
    may throw. *)
Fixpoint forEach {S A : Type} (l : list A) (body : S -> A -> outcome S)
  (s : S) : outcome S :=
  match l with
  | [] => Ok s
  | x :: r => s' <- body s x ;; forEach r body s'
  end.

End JS.

(* ===================================================================== *)
(** ** The two helpers imported by [sms.ts] *)
(* ===================================================================== *)

Module Hash.
Import JS.
Local Open Scope N_scope.

(** [TextEncoder.encode]: the UTF-8 octets of a string; a surrogate
    without its partner is replaced by U+FFFD. *)
Fixpoint utf8_encode (s : jsstring) : list N :=
  match s with
  | [] => []
  | C :: rest =>
      if is_lead_surrogate C then
        match rest with
        | C2 :: rest' =>
            if is_trail_surrogate C2
            then UTF8 (pair_code_point C C2) ++ utf8_encode rest'
            else UTF8 0xFFFD ++ utf8_encode rest
        | [] => UTF8 0xFFFD
        end
      else if is_trail_surrogate C then UTF8 0xFFFD ++ utf8_encode rest
      else UTF8 C ++ utf8_encode rest
  end.

(** 32-bit words of SHA-1 (FIPS 180-4), as numbers below [2^32]. *)
Definition wrap (x : N) : N := x mod 0x100000000.
Definition add32 (x y : N) : N := wrap (x + y).
Definition not32 (x : N) : N := N.lxor x 0xFFFFFFFF.
Definition ROTL (n x : N) : N :=
  wrap (N.lor (N.shiftl x n) (N.shiftr x (32 - n))).

Definition Ch (x y z : N) : N := N.lxor (N.land x y) (N.land (not32 x) z).
Definition Parity (x y z : N) : N := N.lxor (N.lxor x y) z.
Definition Maj (x y z : N) : N :=
  N.lxor (N.lxor (N.land x y) (N.land x z)) (N.land y z).

Definition f_t (t : nat) (x y z : N) : N :=
  if Nat.ltb t 20 then Ch x y z
  else if Nat.ltb t 40 then Parity x y z
  else if Nat.ltb t 60 then Maj x y z
  else Parity x y z.

Definition K_t (t : nat) : N :=
  if Nat.ltb t 20 then 0x5a827999
  else if Nat.ltb t 40 then 0x6ed9eba1
  else if Nat.ltb t 60 then 0x8f1bbcdc
  else 0xca62c1d6.

Record sha1_state := mk_state { Ha : N; Hb : N; Hc : N; Hd : N; He : N }.

Definition H0 : sha1_state :=
  mk_state 0x67452301 0xefcdab89 0x98badcfe 0x10325476 0xc3d2e1f0.

(** Padding: a [1] bit, zeros up to 56 modulo 64 octets, then the length in
    bits as a 64-bit big-endian number. *)
Definition be_bytes (n : nat) (x : N) : list N :=
  map (fun i => (x / 2 ^ (8 * N.of_nat i)) mod 256) (rev (seq 0 n)).

Definition pad (msg : list N) : list N :=
  let len := N.of_nat (length msg) in
  let zeros := N.to_nat ((119 - len mod 64) mod 64) in
  msg ++ 0x80 :: repeat 0 zeros ++ be_bytes 8 (8 * len).

Fixpoint words_of_bytes (l : list N) : list N :=
  match l with
  | a :: b :: c :: d :: r =>
      (a * 0x1000000 + b * 0x10000 + c * 0x100 + d) :: words_of_bytes r
  | _ => []
  end.

(** The message schedule, most recent word first: [n] more words are added
    to [rev_w], each [ROTL 1 (W(t-3) xor W(t-8) xor W(t-14) xor W(t-16))]. *)
Fixpoint extend_schedule (n : nat) (rev_w : list N) : list N :=
  match n with
  | O => rev_w
  | S n' =>
      let w := ROTL 1 (N.lxor (N.lxor (N.lxor (nth 2 rev_w 0) (nth 7 rev_w 0))
                                 (nth 13 rev_w 0)) (nth 15 rev_w 0)) in
      extend_schedule n' (w :: rev_w)
  end.

Definition schedule (block : list N) : list N :=
  rev (extend_schedule 64 (rev block)).

Definition round (t : nat) (w : N) (s : sha1_state) : sha1_state :=
  let T := add32 (add32 (add32 (add32 (ROTL 5 (Ha s))
                                      (f_t t (Hb s) (Hc s) (Hd s)))
                               (He s)) (K_t t)) w in
  mk_state T (Ha s) (ROTL 30 (Hb s)) (Hc s) (Hd s).

Fixpoint rounds (t : nat) (ws : list N) (s : sha1_state) : sha1_state :=
  match ws with
  | [] => s
  | w :: r => rounds (S t) r (round t w s)
  end.

Definition process_block (block : list N) (h : sha1_state) : sha1_state :=
  let s := rounds 0 (schedule block) h in
  mk_state (add32 (Ha h) (Ha s)) (add32 (Hb h) (Hb s)) (add32 (Hc h) (Hc s))
           (add32 (Hd h) (Hd s)) (add32 (He h) (He s)).

Fixpoint process_blocks (fuel : nat) (ws : list N) (h : sha1_state)
  : sha1_state :=
  match fuel, ws with
  | S fuel', _ :: _ =>
      process_blocks fuel' (skipn 16 ws) (process_block (firstn 16 ws) h)
  | _, _ => h
  end.

Definition sha1 (msg : list N) : list N :=
  let ws := words_of_bytes (pad msg) in
  let h := process_blocks (length ws) ws H0 in
  flat_map (be_bytes 4) [Ha h; Hb h; Hc h; Hd h; He h].

(** HMAC (RFC 2104) over SHA-1, block size 64 octets. *)
Definition hmac_sha1 (key msg : list N) : list N :=
  let k0 := if Nat.ltb 64 (length key) then sha1 key else key in
  let k := k0 ++ repeat 0 (64 - length k0) in
  let ipad := map (fun b => N.lxor b 0x36) k in
  let opad := map (fun b => N.lxor b 0x5c) k in
  sha1 (opad ++ sha1 (ipad ++ msg)).

(** Modelled from the spec: the imported [hmac] of the module
    [somefn/js/hash.ts], which is not part of the sources; the specification
    gives it as HMAC with SHA-1 over the UTF-8 octets of the message, keyed
    with the UTF-8 octets of the key string, returning the raw HMAC octets. *)
Definition hmac (s : jsstring) (d : jsstring) : list N :=
  hmac_sha1 (utf8_encode s) (utf8_encode d).

End Hash.

Module Base64.
Import JS.
Local Open Scope N_scope.

Definition base64_char (i : N) : code_unit :=
  if i <? 26 then 65 + i
  else if i <? 52 then 97 + (i - 26)
  else if i <? 62 then 48 + (i - 52)
  else if i =? 62 then 43
  else 47.

(** Modelled from the spec: the imported [encode] of Deno's
    [std/encoding/base64.ts], which is not part of the sources; the
    specification gives it as the standard base64 encoding with padding. *)
Fixpoint encode (l : list N) : jsstring :=
  match l with
  | [] => []
  | [a] =>
      [base64_char (a / 4); base64_char ((a mod 4) * 16); 61; 61]
  | [a; b] =>
      [base64_char (a / 4); base64_char ((a mod 4) * 16 + b / 16);
       base64_char ((b mod 16) * 4); 61]
  | a :: b :: c :: r =>
      base64_char (a / 4) :: base64_char ((a mod 4) * 16 + b / 16)
      :: base64_char ((b mod 16) * 4 + c / 64) :: base64_char (c mod 64)
      :: encode r
  end.

End Base64.

(* ===================================================================== *)
(** ** The response types and the class [AliSMS] *)
(* ===================================================================== *)

(** [RespSendSMS] (sms.ts:21-28).  Field types are erased at run time, so a
    field holds whatever the response carried; [bizID] is [None] when the
    returned object has no such property. *)
Module RespSendSMS.
Record t := mk {
  code : JS.value;
  message : JS.value;
  requestID : JS.value;
  bizID : option JS.value
}.
End RespSendSMS.

(** [SendDetailStatus] (sms.ts:72-76): awaiting receipt = 1, failed = 2,
    succeeded = 3. *)
Inductive SendDetailStatus :=
| AwaitingReceipt
| SendFailed
| SendSucceeded.

Definition SendDetailStatus_value (s : SendDetailStatus) : Z :=
  match s with
  | AwaitingReceipt => 1
  | SendFailed => 2
  | SendSucceeded => 3
  end.

(** [SendDetail] (sms.ts:50-65). *)
Module SendDetail.
Record t := mk {
  templateCode : JS.value;
  receiveDate : JS.value;
  phoneNum : JS.value;
  content : JS.value;
  sendStatus : JS.value;
  sendDate : JS.value;
  errCode : JS.value
}.
End SendDetail.

(** [RespQuerySendDetails] (sms.ts:35-43). *)
Module RespQuerySendDetails.
Record details := mk_details { smsSendDetailDTO : list SendDetail.t }.
Record t := mk {
  code : JS.value;
  message : JS.value;
  requestID : JS.value;
  totalCount : option JS.value;
  smsSendDetailDTOs : option details
}.
End RespQuerySendDetails.

Module AliSMS.
Import JS.
Local Open Scope js_scope.
Local Open Scope N_scope.

(** The instance: the two credentials set by the constructor. *)
Record t := mk {
  accessKeyID : jsstring;
  accessKeySecret : jsstring
}.

Definition format : jsstring := lit "JSON".
Definition version : jsstring := lit "2017-05-25".
Definition signatureMethod : jsstring := lit "HMAC-SHA1".
Definition signatureVersion : jsstring := lit "1.0".
Definition endPoint : jsstring := lit "https://dysmsapi.aliyuncs.com".

(** [hmac(sign, secret)] (sms.ts:292-296). *)
Definition hmac (sign secret : jsstring) : jsstring :=
  let secretSuffix := lit "&" in
  let u := Hash.hmac (secret ++ secretSuffix) sign in
  Base64.encode u.

(** One step of the loop of [specParams]. *)
Definition specParams_step (params : object) (sign : jsstring)
  (v : jsstring) : outcome jsstring :=
  if negb (str_eqb v (lit "Signature")) then
    s <- ToString (get params v) ;;
    e <- encodeURIComponent s ;;
    Ok (sign ++ 38 :: v ++ 61 :: e)
  else Ok sign.

(** [specParams(params)] (sms.ts:303-317). *)
Definition specParams (params : object) : outcome jsstring :=
  let keys := Object_keys params in
  let keysSorted := sort keys in
  sign <- forEach keysSorted (specParams_step params) [] ;;
  Ok (substring1 sign).

Inductive http_method := GET | POST.

Definition method_name (m : http_method) : jsstring :=
  match m with
  | GET => lit "GET"
  | POST => lit "POST"
  end.

(** [stringToSign(method, paramsStr)] (sms.ts:324-326). *)
Definition stringToSign (method : http_method) (paramsStr : jsstring)
  : outcome jsstring :=
  e <- encodeURIComponent paramsStr ;;
  Ok (method_name method ++ lit "&%2F&" ++ e).

(** What one call takes from outside: the clock reading of
    [getNowISOTime()], the number drawn by [getNonce()] (the floor of the
    clock's milliseconds times a fraction below one, so a safe integer),
    and the transport ([fetch] followed by [resp.json()]), which yields
    the parsed body or fails. *)
Record env := mk_env {
  getNowISOTime : jsstring;
  getNonce : Z;
  fetch_json : jsstring -> outcome value
}.

(** A line written by [console.error]: which method wrote it, and the
    response it prints. *)
Inductive diagnostic :=
| SendError (result : value)
| QueryError (result : value).

(** A settled call: the console lines it wrote and how its promise
    settled. *)
Definition settled (A : Type) : Type := (list diagnostic * outcome A)%type.

(** An optional string argument: omitted is [undefined]. *)
Definition optional (a : option jsstring) : value :=
  match a with
  | None => VUndefined
  | Some s => VStr s
  end.

(** ToBoolean, the test of [if (x)]. *)
Definition ToBoolean (v : value) : bool :=
  match v with
  | VUndefined | VNull => false
  | VBool b => b
  | VNum z => negb (Z.eqb z 0)
  | VStr s => match s with [] => false | _ :: _ => true end
  | VArr _ | VObj _ => true
  end.

(** The parameter object of [sendSMS] (sms.ts:120-136). *)
Definition sendSMS_params (this : t) (e : env) (phoneNumbers : list jsstring)
  (signName tplCode : jsstring) (tplParam : option jsstring) : object :=
  let action := lit "SendSms" in
  let params :=
    [ (lit "AccessKeyId", VStr (accessKeyID this));
      (lit "Action", VStr action);
      (lit "Format", VStr format);
      (lit "Version", VStr version);
      (lit "Timestamp", VStr (getNowISOTime e));
      (lit "SignatureNonce", VNum (getNonce e));
      (lit "SignatureMethod", VStr signatureMethod);
      (lit "SignatureVersion", VStr signatureVersion);
      (lit "PhoneNumbers", VArr (map VStr phoneNumbers));
      (lit "SignName", VStr signName);
      (lit "TemplateCode", VStr tplCode) ] in
  if ToBoolean (optional tplParam)
  then set params (lit "TemplateParam") (optional tplParam)
  else params.

(** The parameter object of [querySendDetails] (sms.ts:189-206). *)
Definition querySendDetails_params (this : t) (e : env)
  (phoneNumber sendDate : jsstring) (pageSize currentPage : Z)
  (bizID : option jsstring) : object :=
  let action := lit "QuerySendDetails" in
  let params :=
    [ (lit "AccessKeyId", VStr (accessKeyID this));
      (lit "Action", VStr action);
      (lit "Format", VStr format);
      (lit "Version", VStr version);
      (lit "Timestamp", VStr (getNowISOTime e));
      (lit "SignatureNonce", VNum (getNonce e));
      (lit "SignatureMethod", VStr signatureMethod);
      (lit "SignatureVersion", VStr signatureVersion);
      (lit "PhoneNumber", VStr phoneNumber);
      (lit "SendDate", VStr sendDate);
      (lit "PageSize", VNum pageSize);
      (lit "CurrentPage", VNum currentPage) ] in
  if ToBoolean (optional bizID)
  then set params (lit "BizID") (optional bizID)
  else params.

(** Signing and the request URL, shared verbatim by both methods
    (sms.ts:142-150 and 212-220). *)
Definition request_url (this : t) (method : http_method) (params : object)
  : outcome jsstring :=
  paramsStr <- specParams params ;;
  strToSign <- stringToSign method paramsStr ;;
  let signature := hmac strToSign (accessKeySecret this) in
  sig <- encodeURIComponent signature ;;
  Ok (endPoint ++ lit "/?" ++ paramsStr ++ lit "&Signature=" ++ sig).

(** The response mapping of [sendSMS] (sms.ts:157-172). *)
Definition sendSMS_response (result : value) : settled RespSendSMS.t :=
  match get_prop result (lit "Code") with
  | Throw err => ([], Throw err)
  | Ok c =>
      if strict_neq_str c (lit "OK") then
        ([SendError result],
         code <- get_prop result (lit "Code") ;;
         message <- get_prop result (lit "Message") ;;
         requestID <- get_prop result (lit "RequestId") ;;
         Ok (RespSendSMS.mk code message requestID None))
      else
        ([],
         code <- get_prop result (lit "Code") ;;
         message <- get_prop result (lit "Message") ;;
         requestID <- get_prop result (lit "RequestId") ;;
         bizID <- get_prop result (lit "BizId") ;;
         Ok (RespSendSMS.mk code message requestID (Some bizID)))
  end.

(** [sendSMS] (sms.ts:112-173). *)
Definition sendSMS (this : t) (e : env) (phoneNumbers : list jsstring)
  (signName tplCode : jsstring) (tplParam : option jsstring)
  : settled RespSendSMS.t :=
  let method := GET in
  let params := sendSMS_params this e phoneNumbers signName tplCode tplParam in
  match request_url this method params with
  | Throw err => ([], Throw err)
  | Ok url =>
      match fetch_json e url with
      | Throw err => ([], Throw err)
      | Ok result => sendSMS_response result
      end
  end.

(** [a.map(f)] where [a] came out of [JSON.parse]: only an array has a
    callable [map]; the callback runs on the elements in order. *)
Fixpoint map_elements {A B : Type} (f : A -> outcome B) (l : list A)
  : outcome (list B) :=
  match l with
  | [] => Ok []
  | x :: r => y <- f x ;; ys <- map_elements f r ;; Ok (y :: ys)
  end.

Definition array_map {B : Type} (a : value) (f : value -> outcome B)
  : outcome (list B) :=
  match a with
  | VArr l => map_elements f l
  | _ => Throw TypeError
  end.

(** The callback of [detailsDTO.map] (sms.ts:239-257). *)
Definition detail_of (v : value) : outcome SendDetail.t :=
  templateCode <- get_prop v (lit "TemplateCode") ;;
  receiveDate <- get_prop v (lit "ReceiveDate") ;;
  phoneNum <- get_prop v (lit "PhoneNum") ;;
  content <- get_prop v (lit "Content") ;;
  sendDate <- get_prop v (lit "SendDate") ;;
  sendStatus <- get_prop v (lit "SendStatus") ;;
  errCode <- get_prop v (lit "ErrCode") ;;
  Ok (SendDetail.mk templateCode receiveDate phoneNum content sendStatus
        sendDate errCode).

(** The response mapping of [querySendDetails] (sms.ts:227-266). *)
Definition querySendDetails_response (result : value)
  : settled RespQuerySendDetails.t :=
  match get_prop result (lit "Code") with
  | Throw err => ([], Throw err)
  | Ok c =>
      if strict_neq_str c (lit "OK") then
        ([QueryError result],
         code <- get_prop result (lit "Code") ;;
         message <- get_prop result (lit "Message") ;;
         requestID <- get_prop result (lit "RequestId") ;;
         Ok (RespQuerySendDetails.mk code message requestID None None))
      else
        ([],
         dtos <- get_prop result (lit "SmsSendDetailDTOs") ;;
         detailsDTO <- get_prop dtos (lit "SmsSendDetailDTO") ;;
         details <- array_map detailsDTO detail_of ;;
         code <- get_prop result (lit "Code") ;;
         message <- get_prop result (lit "Message") ;;
         requestID <- get_prop result (lit "RequestId") ;;
         totalCount <- get_prop result (lit "TotalCount") ;;
         Ok (RespQuerySendDetails.mk code message requestID (Some totalCount)
               (Some (RespQuerySendDetails.mk_details details))))
  end.

(** [querySendDetails] (sms.ts:180-267). *)
Definition querySendDetails (this : t) (e : env)
  (phoneNumber sendDate : jsstring) (pageSize currentPage : Z)
  (bizID : option jsstring) : settled RespQuerySendDetails.t :=
  let method := GET in
  let params :=
    querySendDetails_params this e phoneNumber sendDate pageSize currentPage
      bizID in
  match request_url this method params with
  | Throw err => ([], Throw err)
  | Ok url =>
      match fetch_json e url with
      | Throw err => ([], Throw err)
      | Ok result => querySendDetails_response result
      end
  end.

End AliSMS.

(* ===================================================================== *)
(** ** Vocabulary of the statements *)
(* ===================================================================== *)

Module Canon.
Import JS.
Local Open Scope js_scope.
Local Open Scope N_scope.

(** The unreserved characters of RFC 3986: [A-Z a-z 0-9 - . _ ~]. *)
Definition rfc3986_unreserved (c : code_unit) : bool :=
  in_range 65 90 c || in_range 97 122 c || in_range 48 57 c ||
  (c =? 45) || (c =? 46) || (c =? 95) || (c =? 126).

(** The five marks [! * ' ( )] that [encodeURIComponent] keeps besides. *)
Definition js_extra_mark (c : code_unit) : bool :=
  (c =? 33) || (c =? 42) || (c =? 39) || (c =? 40) || (c =? 41).

(** Well-formed UTF-16: every surrogate is half of a pair. *)
Fixpoint well_formed (s : jsstring) : bool :=
  match s with
  | [] => true
  | C :: rest =>
      if is_lead_surrogate C then
        match rest with
        | C2 :: rest' => is_trail_surrogate C2 && well_formed rest'
        | [] => false
        end
      else if is_trail_surrogate C then false
      else well_formed rest
  end.

(** [a <= b] in the order of [sort]. *)
Definition str_le (a b : jsstring) : Prop := str_leb a b = true.

(** The strings of a list joined by a separator. *)
Fixpoint join_with (sep : code_unit) (l : list jsstring) : jsstring :=
  match l with
  | [] => []
  | [x] => x
  | x :: r => x ++ sep :: join_with sep r
  end.

(** Induction on values, through the elements of arrays. *)
Fixpoint value_elements_ind (P : value -> Prop)
  (Hundef : P VUndefined) (Hnull : P VNull) (Hbool : forall b, P (VBool b))
  (Hnum : forall z, P (VNum z)) (Hstr : forall s, P (VStr s))
  (Harr : forall l, Forall P l -> P (VArr l)) (Hobj : forall o, P (VObj o))
  (v : value) : P v :=
  match v with
  | VUndefined => Hundef
  | VNull => Hnull
  | VBool b => Hbool b
  | VNum z => Hnum z
  | VStr s => Hstr s
  | VArr l =>
      Harr l
        ((fix elements (l : list value) : Forall P l :=
            match l with
            | [] => Forall_nil P
            | x :: r =>
                Forall_cons x
                  (value_elements_ind P Hundef Hnull Hbool Hnum Hstr Harr
                     Hobj x)
                  (elements r)
            end) l)
  | VObj o => Hobj o
  end.

(** The form an element takes inside the join of an array. *)
Definition element_string (x : value) : outcome jsstring :=
  match x with
  | VUndefined | VNull => Ok []
  | _ => ToString x
  end.

(** [encodeURIComponent(String(v))]: a value as its pair shows it. *)
Definition encoded_value (v : value) : outcome jsstring :=
  s <- ToString v ;; encodeURIComponent s.

(** The pair ["key=value"] of one parameter, its value printed and
    percent-encoded. *)
Definition pair_of (params : object) (k : jsstring) : outcome jsstring :=
  e <- encoded_value (get params k) ;;
  Ok (k ++ 61 :: e).

(** Every number that [String(v)] prints is a safe integer. *)
Fixpoint safe_numbers (v : value) : bool :=
  match v with
  | VNum z => safe_integer z
  | VArr l => forallb safe_numbers l
  | _ => true
  end.

(** The keys that are signed: all but ["Signature"], ascending. *)
Definition signed_keys (params : object) : list jsstring :=
  filter (fun k => negb (str_eqb k (lit "Signature")))
         (sort (Object_keys params)).

(** A string made only of the code units [keep] accepts and of ["%"]. *)
Definition escaped_outside (keep : code_unit -> bool) (e : jsstring) : Prop :=
  Forall (fun u => keep u = true \/ u = 37) e.

(** The encoding that C3 describes, written after the claim and not after
    the code: every character that is not an unreserved character of
    RFC 3986 is replaced by the percent escapes of its UTF-8 octets. *)
Fixpoint rfc3986_encode (s : jsstring) : outcome jsstring :=
  match s with
  | [] => Ok []
  | C :: rest =>
      if rfc3986_unreserved C then
        R <- rfc3986_encode rest ;; Ok (C :: R)
      else if is_lead_surrogate C then
        match rest with
        | C2 :: rest' =>
            if is_trail_surrogate C2 then
              R <- rfc3986_encode rest' ;;
              Ok (percent_octets (UTF8 (pair_code_point C C2)) ++ R)
            else Throw URIError
        | [] => Throw URIError
        end
      else if is_trail_surrogate C then Throw URIError
      else
        R <- rfc3986_encode rest ;; Ok (percent_octets (UTF8 C) ++ R)
  end.

(** The pair that C3 asks for under the key [k] with the value [v]. *)
Definition rfc3986_pair (k v : jsstring) : outcome jsstring :=
  e <- rfc3986_encode v ;; Ok (k ++ 61 :: e).

(** Octets in lowercase hexadecimal, as digests are usually printed. *)
Definition hex_of (octets : list N) : jsstring :=
  flat_map (fun o => [if o / 16 <? 10 then 48 + o / 16 else 87 + o / 16;
                      if o mod 16 <? 10 then 48 + o mod 16
                      else 87 + o mod 16]) octets.

(** What the transport hands to the response mapping: the body fetched
    from the signed URL of [params]. *)
Definition fetched (this : AliSMS.t) (e : AliSMS.env) (params : object)
  : outcome value :=
  url <- AliSMS.request_url this AliSMS.GET params ;;
  AliSMS.fetch_json e url.

(** [result.SmsSendDetailDTOs.SmsSendDetailDTO]. *)
Definition detail_list (result : value) : outcome value :=
  dtos <- get_prop result (lit "SmsSendDetailDTOs") ;;
  get_prop dtos (lit "SmsSendDetailDTO").

(** The response lacks the nested detail list: the outer or the inner
    property is absent. *)
Definition details_missing (result : value) : Prop :=
  get_prop result (lit "SmsSendDetailDTOs") = Ok VUndefined \/
  detail_list result = Ok VUndefined.

(** A field of a detail record. *)
Definition field (rec : value) (k : jsstring) : value :=
  match rec with
  | VObj o => get o k
  | _ => VUndefined
  end.

Definition is_record (rec : value) : Prop := exists o, rec = VObj o.

(** The entry [d] carries the seven fields of the record [rec]. *)
Definition mapped (rec : value) (d : SendDetail.t) : Prop :=
  SendDetail.templateCode d = field rec (lit "TemplateCode") /\
  SendDetail.receiveDate d = field rec (lit "ReceiveDate") /\
  SendDetail.phoneNum d = field rec (lit "PhoneNum") /\
  SendDetail.content d = field rec (lit "Content") /\
  SendDetail.sendStatus d = field rec (lit "SendStatus") /\
  SendDetail.sendDate d = field rec (lit "SendDate") /\
  SendDetail.errCode d = field rec (lit "ErrCode") /\
  (forall st : SendDetailStatus,
     field rec (lit "SendStatus") = VNum (SendDetailStatus_value st) ->
     SendDetail.sendStatus d = VNum (SendDetailStatus_value st)).

(** The entry that holds the seven fields of a record. *)
Definition detail_fields (rec : value) : SendDetail.t :=
  SendDetail.mk (field rec (lit "TemplateCode"))
    (field rec (lit "ReceiveDate")) (field rec (lit "PhoneNum"))
    (field rec (lit "Content")) (field rec (lit "SendStatus"))
    (field rec (lit "SendDate")) (field rec (lit "ErrCode")).

(** [querySendDetails] returns a result on every success response that
    lacks the nested detail list. *)
Definition tolerates_missing_details : Prop :=
  forall (this : AliSMS.t) (e : AliSMS.env) (phoneNumber sendDate : jsstring)
         (pageSize currentPage : Z) (bizID : option jsstring)
         (result : value),
    fetched this e
      (AliSMS.querySendDetails_params this e phoneNumber sendDate pageSize
         currentPage bizID) = Ok result ->
    get_prop result (lit "Code") = Ok (VStr (lit "OK")) ->
    details_missing result ->
    exists r,
      snd (AliSMS.querySendDetails this e phoneNumber sendDate pageSize
             currentPage bizID) = Ok r.

End Canon.

(** The vectors of [sms.test.ts] ([testStringToSign], [testSignature]). *)
Module TestVectors.
Import JS.

Definition params : object :=
  [ (lit "Action", VStr (lit "DescribeDedicatedHosts"));
    (lit "AccessKeyId", VStr (lit "testid"));
    (lit "SignatureMethod", VStr (lit "HMAC-SHA1"));
    (lit "SignatureVersion", VStr (lit "1.0"));
    (lit "SignatureNonce", VStr (lit "3ee8c1b8-xxxx-xxxx-xxxx-xxxxxxxxx"));
    (lit "Timestamp", VStr (lit "2016-02-23T12:46:24Z"));
    (lit "Version", VStr (lit "2014-05-26"));
    (lit "Format", VStr (lit "XML")) ].

Definition string_to_sign : jsstring :=
  lit "GET&%2F&AccessKeyId%3Dtestid%26Action%3DDescribeDedicatedHosts%26Format%3DXML%26SignatureMethod%3DHMAC-SHA1%26SignatureNonce%3D3ee8c1b8-xxxx-xxxx-xxxx-xxxxxxxxx%26SignatureVersion%3D1.0%26Timestamp%3D2016-02-23T12%253A46%253A24Z%26Version%3D2014-05-26".

Definition secret : jsstring := lit "testsecret".

Definition signature : jsstring := lit "rARsF+BIg8pZ4e0ln6Z96lBMDms=".

End TestVectors.

(** Sample calls and responses. *)
Module Samples.
Import JS.

Definition client : AliSMS.t := AliSMS.mk (lit "testid") (lit "testsecret").

Definition answering (result : value) : AliSMS.env :=
  AliSMS.mk_env (lit "2016-02-23T12:46:24.000Z") 1234567
    (fun _ => Ok result).

Definition accepted : value :=
  VObj [ (lit "Code", VStr (lit "OK")); (lit "Message", VStr (lit "OK"));
         (lit "RequestId", VStr (lit "r1")); (lit "BizId", VStr (lit "b1")) ].

Definition rejected : value :=
  VObj [ (lit "Code", VStr (lit "isv.BUSINESS_LIMIT_CONTROL"));
         (lit "Message", VStr (lit "limit"));
         (lit "RequestId", VStr (lit "r2")) ].

(** A success response of the query without [SmsSendDetailDTOs]. *)
Definition without_details : value :=
  VObj [ (lit "Code", VStr (lit "OK")); (lit "Message", VStr (lit "OK"));
         (lit "RequestId", VStr (lit "r3")); (lit "TotalCount", VNum 0) ].

Definition record : value :=
  VObj [ (lit "TemplateCode", VStr (lit "SMS_1"));
         (lit "ReceiveDate", VStr (lit "2022-08-12 10:00:05"));
         (lit "PhoneNum", VStr (lit "13800000000"));
         (lit "Content", VStr (lit "hello"));
         (lit "SendStatus", VNum 3);
         (lit "SendDate", VStr (lit "2022-08-12 10:00:00"));
         (lit "ErrCode", VStr (lit "DELIVERED")) ].

Definition with_details : value :=
  VObj [ (lit "Code", VStr (lit "OK")); (lit "Message", VStr (lit "OK"));
         (lit "RequestId", VStr (lit "r4")); (lit "TotalCount", VNum 1);
         (lit "SmsSendDetailDTOs",
          VObj [ (lit "SmsSendDetailDTO", VArr [record]) ]) ].

End Samples.

(** Further vocabulary, for the properties of the whole request. *)
Module Wire.
Import JS.
Local Open Scope N_scope.

(** Every element is a UTF-16 code unit. *)
Definition code_units (s : jsstring) : Prop := Forall (fun u => u < 0x10000) s.

(** Every code unit is an ASCII character. *)
Definition ascii_only (s : jsstring) : Prop := Forall (fun u => u < 128) s.

(** What the second encoding, in [stringToSign], makes of a code unit of a
    canonical query string: ["%"], ["&"] and ["="] become ["%25"], ["%26"]
    and ["%3D"]. *)
Definition encoded_again (c : code_unit) : jsstring :=
  if c =? 37 then lit "%25"
  else if c =? 38 then lit "%26"
  else if c =? 61 then lit "%3D"
  else [c].

(** The characters of padded base64. *)
Definition base64_alphabet (c : code_unit) : bool :=
  in_range 65 90 c || in_range 97 122 c || in_range 48 57 c ||
  (c =? 43) || (c =? 47) || (c =? 61).

(** [null] or [undefined]. *)
Definition nullish (v : value) : bool :=
  match v with
  | VUndefined | VNull => true
  | _ => false
  end.

(** The keys that [sendSMS] signs, ascending by code units
    (["SignName"] before ["SignatureMethod"]); ["TemplateParam"] is among
    them for a non-empty argument only. *)
Definition sendSMS_order (tplParam : option jsstring) : list jsstring :=
  [lit "AccessKeyId"; lit "Action"; lit "Format"; lit "PhoneNumbers";
   lit "SignName"; lit "SignatureMethod"; lit "SignatureNonce";
   lit "SignatureVersion"; lit "TemplateCode"]
  ++ (if AliSMS.ToBoolean (AliSMS.optional tplParam)
      then [lit "TemplateParam"] else [])
  ++ [lit "Timestamp"; lit "Version"].

(** The keys that [querySendDetails] signs, ascending by code units;
    ["BizID"] is among them for a non-empty argument only. *)
Definition querySendDetails_order (bizID : option jsstring) : list jsstring :=
  [lit "AccessKeyId"; lit "Action"]
  ++ (if AliSMS.ToBoolean (AliSMS.optional bizID) then [lit "BizID"] else [])
  ++ [lit "CurrentPage"; lit "Format"; lit "PageSize"; lit "PhoneNumber";
      lit "SendDate"; lit "SignatureMethod"; lit "SignatureNonce";
      lit "SignatureVersion"; lit "Timestamp"; lit "Version"].

(** [p] is a pair under the key [k]: the key, ["="], and a value made of
    kept characters and percent escapes. *)
Definition pair_under (k p : jsstring) : Prop :=
  exists v, p = k ++ 61 :: v /\ Canon.escaped_outside uriUnescaped v.

(** All string arguments of [sendSMS] are well-formed UTF-16. *)
Definition sendSMS_well_formed (this : AliSMS.t) (e : AliSMS.env)
  (phoneNumbers : list jsstring) (signName tplCode : jsstring)
  (tplParam : option jsstring) : Prop :=
  Canon.well_formed (AliSMS.accessKeyID this) = true /\
  Canon.well_formed (AliSMS.getNowISOTime e) = true /\
  Forall (fun p => Canon.well_formed p = true) phoneNumbers /\
  Canon.well_formed signName = true /\
  Canon.well_formed tplCode = true /\
  (forall s, tplParam = Some s -> Canon.well_formed s = true).

(** All string arguments of [querySendDetails] are well-formed UTF-16. *)
Definition querySendDetails_well_formed (this : AliSMS.t) (e : AliSMS.env)
  (phoneNumber sendDate : jsstring) (bizID : option jsstring) : Prop :=
  Canon.well_formed (AliSMS.accessKeyID this) = true /\
  Canon.well_formed (AliSMS.getNowISOTime e) = true /\
  Canon.well_formed phoneNumber = true /\
  Canon.well_formed sendDate = true /\
  (forall s, bizID = Some s -> Canon.well_formed s = true).

(** What the success branch of [querySendDetails] makes of the detail
    list. *)
Definition details_outcome (result c m q t : value)
  : outcome RespQuerySendDetails.t :=
  match Canon.detail_list result with
  | Ok (VArr records) =>
      if existsb nullish records then Throw TypeError
      else Ok (RespQuerySendDetails.mk c m q (Some t)
                 (Some (RespQuerySendDetails.mk_details
                          (map Canon.detail_fields records))))
  | _ => Throw TypeError
  end.

(** An environment whose transport fails. *)
Definition offline : AliSMS.env :=
  AliSMS.mk_env (lit "2016-02-23T12:46:24.000Z") 1234567
    (fun _ => Throw TransportFailure).

End Wire.

(* ===================================================================== *)
(** ** Properties *)
(* ===================================================================== *)

Import JS Canon.
Local Open Scope js_scope.

(** *** The code-unit order on strings *)

Section StringOrder.
Local Open Scope N_scope.

Lemma str_eqb_eq (a b : jsstring) : str_eqb a b = true <-> a = b.
Proof.
  revert b; induction a as [|x a IH]; intros [|y b]; simpl; split;
    try congruence; try reflexivity.
  - intros H. apply andb_true_iff in H as [Hx Hr].
    apply N.eqb_eq in Hx. apply IH in Hr. congruence.
  - intros H. injection H as -> ->. rewrite N.eqb_refl. simpl.
    apply IH. reflexivity.
Qed.

Lemma str_eqb_refl (a : jsstring) : str_eqb a a = true.
Proof. apply str_eqb_eq. reflexivity. Qed.

Lemma str_eqb_neq (a b : jsstring) : str_eqb a b = false <-> a <> b.
Proof.
  split.
  - intros H E. apply str_eqb_eq in E. congruence.
  - intros H. destruct (str_eqb a b) eqn:E; [|reflexivity].
    apply str_eqb_eq in E. contradiction.
Qed.

Lemma str_ltb_irrefl (a : jsstring) : str_ltb a a = false.
Proof.
  induction a as [|x a IH]; simpl; [reflexivity|].
  rewrite N.ltb_irrefl. exact IH.
Qed.

Lemma str_ltb_trans (a b c : jsstring) :
  str_ltb a b = true -> str_ltb b c = true -> str_ltb a c = true.
Proof.
  revert b c; induction a as [|x a IH]; intros [|y b] [|z c]; simpl;
    try congruence.
  destruct (N.ltb_spec x y), (N.ltb_spec y x), (N.ltb_spec y z),
    (N.ltb_spec z y), (N.ltb_spec x z), (N.ltb_spec z x);
    try (exfalso; lia); try congruence; try reflexivity.
  apply IH.
Qed.

(** Two strings neither of which is below the other are the same string. *)
Lemma str_ltb_connex (a b : jsstring) :
  str_ltb a b = false -> str_ltb b a = false -> a = b.
Proof.
  revert b; induction a as [|x a IH]; intros [|y b]; simpl;
    try congruence.
  destruct (x <? y) eqn:Exy; [congruence|].
  destruct (y <? x) eqn:Eyx; [congruence|].
  apply N.ltb_ge in Exy, Eyx. intros H1 H2.
  assert (x = y) by lia. subst. f_equal. apply IH; assumption.
Qed.

Lemma str_ltb_asym (a b : jsstring) :
  str_ltb a b = true -> str_ltb b a = false.
Proof.
  intros H. destruct (str_ltb b a) eqn:E; [|reflexivity].
  pose proof (str_ltb_trans _ _ _ H E) as F.
  rewrite str_ltb_irrefl in F. discriminate.
Qed.

Lemma str_le_iff (a b : jsstring) : str_le a b <-> str_ltb b a = false.
Proof. unfold str_le, str_leb. apply negb_true_iff. Qed.

Lemma str_le_trans (a b c : jsstring) :
  str_le a b -> str_le b c -> str_le a c.
Proof.
  rewrite !str_le_iff. intros Hba Hcb.
  destruct (str_ltb c a) eqn:E; [|reflexivity].
  destruct (str_ltb b c) eqn:F.
  - pose proof (str_ltb_trans _ _ _ F E). congruence.
  - assert (b = c) by (apply str_ltb_connex; assumption). subst. congruence.
Qed.

Lemma str_le_antisym (a b : jsstring) : str_le a b -> str_le b a -> a = b.
Proof. rewrite !str_le_iff. intros H1 H2. apply str_ltb_connex; assumption. Qed.

Lemma str_le_of_ltb (a b : jsstring) : str_ltb a b = true -> str_le a b.
Proof. intros H. apply str_le_iff. apply str_ltb_asym. exact H. Qed.

(** On byte strings the order is the byte-wise lexicographic order. *)
Lemma str_ltb_lit (a b : String.string) :
  str_ltb (lit a) (lit b) = String.ltb a b.
Proof.
  unfold String.ltb, lit. revert b.
  induction a as [|x a IH]; intros [|y b]; simpl; try reflexivity.
  unfold Ascii.compare.
  destruct (N.compare_spec (N_of_ascii x) (N_of_ascii y)) as [E|L|G].
  - rewrite E, N.ltb_irrefl. apply IH.
  - apply N.ltb_lt in L. rewrite L. reflexivity.
  - assert ((N_of_ascii x <? N_of_ascii y) = false) as ->
      by (apply N.ltb_ge; lia).
    apply N.ltb_lt in G. rewrite G. reflexivity.
Qed.

End StringOrder.

(** *** [sort] yields the ascending arrangement of its argument *)

Section Sort.

Lemma insert_sorted_perm (k : jsstring) (l : list jsstring) :
  Permutation (insert_sorted k l) (k :: l).
Proof.
  induction l as [|x l IH]; simpl; [apply Permutation_refl|].
  destruct (str_ltb x k).
  - eapply perm_trans; [apply perm_skip, IH | apply perm_swap].
  - apply Permutation_refl.
Qed.

Lemma sort_perm (l : list jsstring) : Permutation (sort l) l.
Proof.
  induction l as [|x l IH]; simpl; [constructor|].
  eapply perm_trans; [apply insert_sorted_perm | apply perm_skip, IH].
Qed.

Lemma insert_sorted_sorted (k : jsstring) (l : list jsstring) :
  StronglySorted str_le l -> StronglySorted str_le (insert_sorted k l).
Proof.
  induction 1 as [|x l Hs IH Hx]; simpl.
  - repeat constructor.
  - destruct (str_ltb x k) eqn:E.
    + constructor; [exact IH|].
      eapply Permutation_Forall;
        [apply Permutation_sym, insert_sorted_perm|].
      constructor; [apply str_le_of_ltb, E | exact Hx].
    + assert (Hkx : str_le k x) by (apply str_le_iff; exact E).
      constructor; [constructor; assumption|].
      constructor; [exact Hkx|].
      eapply Forall_impl; [|exact Hx].
      intros y Hy. eapply str_le_trans; eassumption.
Qed.

Lemma sort_sorted (l : list jsstring) : StronglySorted str_le (sort l).
Proof.
  induction l as [|x l IH]; simpl; [constructor|].
  apply insert_sorted_sorted, IH.
Qed.

(** An ascending arrangement is unique. *)
Lemma sorted_perm_eq (l1 l2 : list jsstring) :
  StronglySorted str_le l1 -> StronglySorted str_le l2 ->
  Permutation l1 l2 -> l1 = l2.
Proof.
  intros H1; revert l2; induction H1 as [|a l1 Hs1 IH Ha]; intros l2 H2 HP.
  - apply Permutation_nil in HP. congruence.
  - destruct H2 as [|b l2 Hs2 Hb].
    + apply Permutation_sym, Permutation_nil in HP. discriminate.
    + assert (a = b).
      { assert (In a (b :: l2)) as [->|Hin]
          by (eapply Permutation_in; [exact HP | left; reflexivity]);
          [reflexivity|].
        assert (In b (a :: l1)) as [->|Hin']
          by (eapply Permutation_in;
              [apply Permutation_sym, HP | left; reflexivity]);
          [reflexivity|].
        rewrite Forall_forall in Ha, Hb.
        apply str_le_antisym; auto. }
      subst b. f_equal. apply IH; [exact Hs2|].
      eapply Permutation_cons_inv; exact HP.
Qed.

Lemma sort_of_permutation (l1 l2 : list jsstring) :
  Permutation l1 l2 -> sort l1 = sort l2.
Proof.
  intros HP. apply sorted_perm_eq; try apply sort_sorted.
  eapply perm_trans; [apply sort_perm|].
  eapply perm_trans; [exact HP|apply Permutation_sym, sort_perm].
Qed.

End Sort.

(** *** encodeURIComponent *)

Section Encode.
Local Open Scope N_scope.

Lemma in_range_true (lo hi c : N) :
  in_range lo hi c = true <-> lo <= c <= hi.
Proof.
  unfold in_range. rewrite andb_true_iff, !N.leb_le. reflexivity.
Qed.

Lemma in_range_false (lo hi c : N) :
  in_range lo hi c = false <-> c < lo \/ hi < c.
Proof.
  unfold in_range. rewrite andb_false_iff, !N.leb_gt. reflexivity.
Qed.

Lemma uriUnescaped_ascii (c : code_unit) :
  uriUnescaped c = true -> c <= 126.
Proof.
  unfold uriUnescaped. intros H.
  repeat (apply orb_true_iff in H as [H|H]);
    try (apply in_range_true in H); try (apply N.eqb_eq in H); lia.
Qed.

Lemma uriUnescaped_not_surrogate (c : code_unit) :
  uriUnescaped c = true ->
  is_lead_surrogate c = false /\ is_trail_surrogate c = false.
Proof.
  intros H. apply uriUnescaped_ascii in H.
  unfold is_lead_surrogate, is_trail_surrogate.
  split; apply in_range_false; lia.
Qed.

(** The kept set is the RFC 3986 unreserved set and the five marks. *)
Lemma uriUnescaped_split (c : code_unit) :
  uriUnescaped c = rfc3986_unreserved c || js_extra_mark c.
Proof.
  unfold uriUnescaped, rfc3986_unreserved, js_extra_mark.
  destruct (in_range 65 90 c), (in_range 97 122 c), (in_range 48 57 c),
    (c =? 45), (c =? 95), (c =? 46), (c =? 33), (c =? 126), (c =? 42),
    (c =? 39), (c =? 40), (c =? 41); reflexivity.
Qed.

Lemma hex_digit_unescaped (d : N) :
  d < 16 -> rfc3986_unreserved (hex_digit d) = true.
Proof.
  intros H. unfold hex_digit, rfc3986_unreserved.
  destruct (N.ltb_spec d 10).
  - assert (E : in_range 48 57 (48 + d) = true) by (apply in_range_true; lia).
    rewrite E. rewrite !orb_true_r. reflexivity.
  - assert (E : in_range 65 90 (55 + d) = true) by (apply in_range_true; lia).
    rewrite E. reflexivity.
Qed.

Lemma UTF8_octets (cp : N) : Forall (fun o => o < 256) (UTF8 cp).
Proof.
  unfold UTF8.
  pose proof (N.mod_upper_bound cp 0x40 ltac:(lia)).
  pose proof (N.mod_upper_bound (cp / 0x40) 0x20 ltac:(lia)).
  pose proof (N.mod_upper_bound (cp / 0x40) 0x40 ltac:(lia)).
  pose proof (N.mod_upper_bound (cp / 0x1000) 0x10 ltac:(lia)).
  pose proof (N.mod_upper_bound (cp / 0x1000) 0x40 ltac:(lia)).
  pose proof (N.mod_upper_bound (cp / 0x40000) 8 ltac:(lia)).
  destruct (N.ltb_spec cp 0x80); [repeat constructor; lia|].
  destruct (N.ltb_spec cp 0x800); [repeat constructor; lia|].
  destruct (N.ltb_spec cp 0x10000); repeat constructor; lia.
Qed.

Lemma percent_escaped (keep : code_unit -> bool) (o : N) :
  (forall c, rfc3986_unreserved c = true -> keep c = true) ->
  o < 256 -> escaped_outside keep (percent o).
Proof.
  intros Hk Ho. unfold percent, escaped_outside.
  apply Forall_cons; [right; reflexivity|].
  apply Forall_cons.
  { left. apply Hk, hex_digit_unescaped.
    apply N.Div0.div_lt_upper_bound. lia. }
  apply Forall_cons; [|apply Forall_nil].
  left. apply Hk, hex_digit_unescaped. apply N.mod_upper_bound. lia.
Qed.

Lemma percent_octets_escaped (keep : code_unit -> bool) (l : list N) :
  (forall c, rfc3986_unreserved c = true -> keep c = true) ->
  Forall (fun o => o < 256) l -> escaped_outside keep (percent_octets l).
Proof.
  intros Hk. induction 1 as [|o l Ho Hl IH].
  - constructor.
  - change (escaped_outside keep (percent o ++ percent_octets l)).
    apply Forall_app. split; [apply percent_escaped; assumption|exact IH].
Qed.

Lemma rfc_kept (c : code_unit) :
  rfc3986_unreserved c = true -> uriUnescaped c = true.
Proof. intros H. rewrite uriUnescaped_split, H. reflexivity. Qed.

(** Induction over a string two code units at a time. *)
Lemma string_ind2 (P : jsstring -> Prop) :
  P [] ->
  (forall c rest, P rest -> P (tl rest) -> P (c :: rest)) ->
  forall s, P s.
Proof.
  intros H0 Hs s.
  enough (P s /\ P (tl s)) by tauto.
  induction s as [|c s [IH1 IH2]]; simpl; [tauto|].
  split; [apply Hs; assumption | exact IH1].
Qed.

(** The output alphabet: kept code units and percent escapes only. *)
Lemma encode_alphabet (s e : jsstring) :
  encodeURIComponent s = Ok e -> escaped_outside uriUnescaped e.
Proof.
  revert e. induction s as [|c rest IH1 IH2] using string_ind2; intros e.
  - simpl. intros [= <-]. constructor.
  - simpl. destruct (uriUnescaped c) eqn:Eu.
    + destruct (encodeURIComponent rest) as [R|] eqn:ER; simpl; [|discriminate].
      intros [= <-]. constructor; [left; exact Eu | apply IH1; reflexivity].
    + destruct (is_lead_surrogate c).
      * destruct rest as [|c2 rest']; [discriminate|].
        destruct (is_trail_surrogate c2); [|discriminate].
        simpl in IH2.
        destruct (encodeURIComponent rest') as [R|] eqn:ER; simpl;
          [|discriminate].
        intros [= <-]. apply Forall_app. split.
        -- apply percent_octets_escaped; [exact rfc_kept|apply UTF8_octets].
        -- apply IH2; reflexivity.
      * destruct (is_trail_surrogate c); [discriminate|].
        destruct (encodeURIComponent rest) as [R|] eqn:ER; simpl;
          [|discriminate].
        intros [= <-]. apply Forall_app. split.
        -- apply percent_octets_escaped; [exact rfc_kept|apply UTF8_octets].
        -- apply IH1; reflexivity.
Qed.

(** Encoding throws exactly on ill-formed strings, and only URIError. *)
Lemma encode_total (s : jsstring) :
  well_formed s = true -> exists e, encodeURIComponent s = Ok e.
Proof.
  induction s as [|c rest IH1 IH2] using string_ind2.
  - intros _. exists []. reflexivity.
  - simpl. destruct (uriUnescaped c) eqn:Eu.
    + destruct (uriUnescaped_not_surrogate _ Eu) as [-> ->].
      intros H. destruct (IH1 H) as [R ->]. simpl. eauto.
    + destruct (is_lead_surrogate c).
      * destruct rest as [|c2 rest']; [discriminate|].
        destruct (is_trail_surrogate c2); [|discriminate].
        simpl in IH2 |- *. intros H. destruct (IH2 H) as [R ->]. simpl. eauto.
      * destruct (is_trail_surrogate c); [discriminate|].
        intros H. destruct (IH1 H) as [R ->]. simpl. eauto.
Qed.

Lemma encode_throws (s : jsstring) (err : error) :
  encodeURIComponent s = Throw err ->
  err = URIError /\ well_formed s = false.
Proof.
  induction s as [|c rest IH1 IH2] using string_ind2.
  - discriminate.
  - simpl. destruct (uriUnescaped c) eqn:Eu.
    + destruct (uriUnescaped_not_surrogate _ Eu) as [-> ->].
      destruct (encodeURIComponent rest); simpl; [discriminate|].
      intros [= <-]. apply IH1. reflexivity.
    + destruct (is_lead_surrogate c).
      * destruct rest as [|c2 rest']; [intros [= <-]; split; reflexivity|].
        destruct (is_trail_surrogate c2);
          [|intros [= <-]; split; reflexivity].
        simpl in IH2 |- *.
        destruct (encodeURIComponent rest'); simpl; [discriminate|].
        intros [= <-]. apply IH2. reflexivity.
      * destruct (is_trail_surrogate c);
          [intros [= <-]; split; reflexivity|].
        destruct (encodeURIComponent rest); simpl; [discriminate|].
        intros [= <-]. apply IH1. reflexivity.
Qed.

(** Encoding goes through concatenation. *)
Lemma encode_app (a b ea eb : jsstring) :
  encodeURIComponent a = Ok ea -> encodeURIComponent b = Ok eb ->
  encodeURIComponent (a ++ b) = Ok (ea ++ eb).
Proof.
  intros Ha Hb. revert ea Ha.
  induction a as [|c rest IH1 IH2] using string_ind2; intros ea.
  - simpl. intros [= <-]. exact Hb.
  - simpl. destruct (uriUnescaped c).
    + destruct (encodeURIComponent rest) as [R|] eqn:ER; simpl; [|discriminate].
      intros [= <-]. rewrite (IH1 R eq_refl). reflexivity.
    + destruct (is_lead_surrogate c).
      * destruct rest as [|c2 rest']; [discriminate|]. simpl.
        destruct (is_trail_surrogate c2); [|discriminate].
        simpl in IH2.
        destruct (encodeURIComponent rest') as [R|] eqn:ER; simpl;
          [|discriminate].
        intros [= <-]. rewrite (IH2 R eq_refl). simpl.
        rewrite app_assoc. reflexivity.
      * destruct (is_trail_surrogate c); [discriminate|].
        destruct (encodeURIComponent rest) as [R|] eqn:ER; simpl;
          [|discriminate].
        intros [= <-]. rewrite (IH1 R eq_refl). simpl.
        rewrite app_assoc. reflexivity.
Qed.

(** A string of kept code units is its own encoding. *)
Lemma encode_kept (s : jsstring) :
  forallb uriUnescaped s = true -> encodeURIComponent s = Ok s.
Proof.
  induction s as [|c s IH]; simpl; [reflexivity|].
  intros H. apply andb_true_iff in H as [-> Hs].
  rewrite (IH Hs). reflexivity.
Qed.

Lemma well_formed_app (a b : jsstring) :
  well_formed a = true -> well_formed b = true -> well_formed (a ++ b) = true.
Proof.
  intros Ha Hb.
  induction a as [|c rest IH1 IH2] using string_ind2; [exact Hb|].
  simpl in Ha |- *. destruct (is_lead_surrogate c).
  - destruct rest as [|c2 rest']; [discriminate|]. simpl.
    apply andb_true_iff in Ha as [-> Hr]. simpl in IH2 |- *. apply IH2, Hr.
  - destruct (is_trail_surrogate c); [discriminate|]. apply IH1, Ha.
Qed.

End Encode.

(** *** Objects and [map] with a callback that may throw *)

Section Objects.

Lemma get_own_In (o : object) (k : jsstring) (v : value) :
  get_own o k = Some v -> In (k, v) o.
Proof.
  induction o as [|[k' v'] o IH]; simpl; [discriminate|].
  destruct (str_eqb k' k) eqn:E.
  - apply str_eqb_eq in E. intros [= ->]. left. congruence.
  - intros H. right. apply IH, H.
Qed.

Lemma In_get_own (o : object) (k : jsstring) (v : value) :
  NoDup (Object_keys o) -> In (k, v) o -> get_own o k = Some v.
Proof.
  unfold Object_keys.
  induction o as [|[k' v'] o IH]; simpl; [contradiction|].
  intros Hnd [[= -> ->]|Hin].
  - rewrite str_eqb_refl. reflexivity.
  - inversion Hnd as [|? ? Hnot Hnd']; subst.
    destruct (str_eqb k' k) eqn:E.
    + apply str_eqb_eq in E. subst k'. exfalso. apply Hnot.
      apply in_map_iff. exists (k, v). split; [reflexivity|exact Hin].
    + apply IH; assumption.
Qed.

Lemma get_own_keys (o : object) (k : jsstring) :
  In k (Object_keys o) <-> exists v, get_own o k = Some v.
Proof.
  unfold Object_keys. split.
  - induction o as [|[k' v'] o IH]; simpl; [contradiction|].
    destruct (str_eqb k' k) eqn:E; [eauto|].
    intros [->|Hin]; [rewrite str_eqb_refl in E; discriminate|].
    apply IH, Hin.
  - intros [v Hv]. apply get_own_In in Hv.
    apply in_map_iff. exists (k, v). split; [reflexivity|exact Hv].
Qed.

(** Two objects with the same properties, created in any order, answer
    every lookup alike. *)
Lemma get_own_permutation (o1 o2 : object) (k : jsstring) :
  NoDup (Object_keys o1) -> Permutation o1 o2 ->
  get_own o1 k = get_own o2 k.
Proof.
  intros Hnd HP.
  assert (Hnd2 : NoDup (Object_keys o2)).
  { eapply Permutation_NoDup; [|exact Hnd].
    unfold Object_keys. apply Permutation_map, HP. }
  destruct (get_own o1 k) as [v1|] eqn:E1.
  - symmetry. apply In_get_own; [exact Hnd2|].
    eapply Permutation_in; [exact HP|]. apply get_own_In, E1.
  - destruct (get_own o2 k) as [v2|] eqn:E2; [|reflexivity].
    assert (E : get_own o1 k = Some v2).
    { apply In_get_own; [exact Hnd|].
      eapply Permutation_in; [apply Permutation_sym, HP|].
      apply get_own_In, E2. }
    congruence.
Qed.

Lemma map_elements_Ok {A B : Type} (f : A -> outcome B) (l : list A)
  (ys : list B) :
  AliSMS.map_elements f l = Ok ys -> Forall2 (fun x y => f x = Ok y) l ys.
Proof.
  revert ys; induction l as [|x l IH]; simpl; intros ys.
  - intros [= <-]. constructor.
  - destruct (f x) as [y|] eqn:Ex; simpl; [|discriminate].
    destruct (AliSMS.map_elements f l) as [ys'|]; simpl; [|discriminate].
    intros [= <-]. constructor; [exact Ex | apply IH; reflexivity].
Qed.

Lemma map_elements_Throw {A B : Type} (f : A -> outcome B) (l : list A)
  (err : error) :
  AliSMS.map_elements f l = Throw err -> exists x, In x l /\ f x = Throw err.
Proof.
  induction l as [|x l IH]; simpl; [discriminate|].
  destruct (f x) as [y|e'] eqn:Ex; simpl.
  - destruct (AliSMS.map_elements f l) as [ys'|e'']; simpl; [discriminate|].
    intros [= <-]. destruct (IH eq_refl) as [x' [Hin Hx']]. eauto.
  - intros [= <-]. eauto.
Qed.

Lemma map_elements_total {A B : Type} (f : A -> outcome B) (g : A -> B)
  (l : list A) :
  (forall x, In x l -> f x = Ok (g x)) ->
  AliSMS.map_elements f l = Ok (map g l).
Proof.
  induction l as [|x l IH]; simpl; intros H; [reflexivity|].
  rewrite (H x (or_introl eq_refl)). simpl.
  rewrite IH by (intros; apply H; right; assumption). reflexivity.
Qed.

Lemma Forall2_In_r {A B : Type} (R : A -> B -> Prop) (l : list A)
  (ys : list B) (y : B) :
  Forall2 R l ys -> In y ys -> exists x, In x l /\ R x y.
Proof.
  induction 1 as [|x y' l ys Hxy HF IH]; simpl; [contradiction|].
  intros [<-|Hin]; [eauto|].
  destruct (IH Hin) as [x' [? ?]]. eauto.
Qed.

Lemma Forall2_In_l {A B : Type} (R : A -> B -> Prop) (l : list A)
  (ys : list B) (x : A) :
  Forall2 R l ys -> In x l -> exists y, In y ys /\ R x y.
Proof.
  induction 1 as [|x' y l ys Hxy HF IH]; simpl; [contradiction|].
  intros [<-|Hin]; [eauto|].
  destruct (IH Hin) as [y' [? ?]]. eauto.
Qed.

End Objects.

(** *** The shape of the canonical query string *)

Section Canonical.
Local Open Scope N_scope.

Lemma forEach_ext {S A : Type} (f g : S -> A -> outcome S) (l : list A)
  (s : S) :
  (forall s x, In x l -> f s x = g s x) -> forEach l f s = forEach l g s.
Proof.
  revert s; induction l as [|x l IH]; simpl; intros s H; [reflexivity|].
  rewrite (H s x (or_introl eq_refl)).
  destruct (g s x); simpl; [|reflexivity].
  apply IH. intros; apply H; right; assumption.
Qed.

(** The loop appends ["&key=value"] for each signed key, in order. *)
Lemma forEach_pairs (params : object) (ks : list jsstring) (acc : jsstring) :
  forEach ks (AliSMS.specParams_step params) acc =
  (pairs <- AliSMS.map_elements (pair_of params)
              (filter (fun k => negb (str_eqb k (lit "Signature"))) ks) ;;
   Ok (acc ++ concat (map (cons 38) pairs))).
Proof.
  revert acc; induction ks as [|k ks IH]; intros acc; simpl.
  - rewrite app_nil_r. reflexivity.
  - unfold AliSMS.specParams_step at 1.
    destruct (negb (str_eqb k (lit "Signature"))); simpl.
    + unfold pair_of at 1, encoded_value.
      destruct (ToString (get params k)) as [s|]; simpl; [|reflexivity].
      destruct (encodeURIComponent s) as [e|]; simpl; [|reflexivity].
      rewrite IH.
      destruct (AliSMS.map_elements _ _) as [pairs|]; simpl; [|reflexivity].
      rewrite <- app_assoc. reflexivity.
    + apply IH.
Qed.

Lemma concat_amp (x : jsstring) (r : list jsstring) :
  concat (map (cons 38) (x :: r)) = 38 :: join_with 38 (x :: r).
Proof.
  revert x; induction r as [|y r IH]; intros x.
  - simpl. rewrite app_nil_r. reflexivity.
  - change (concat (map (cons 38) (x :: y :: r)))
      with (38 :: x ++ concat (map (cons 38) (y :: r))).
    rewrite IH. reflexivity.
Qed.

Lemma substring1_pairs (pairs : list jsstring) :
  substring1 (concat (map (cons 38) pairs)) = join_with 38 pairs.
Proof.
  destruct pairs as [|x r]; [reflexivity|].
  rewrite concat_amp. reflexivity.
Qed.

(** [specParams] is the ["&"]-join of the pairs of the signed keys. *)
Lemma specParams_pairs (params : object) :
  AliSMS.specParams params =
  (pairs <- AliSMS.map_elements (pair_of params) (signed_keys params) ;;
   Ok (join_with 38 pairs)).
Proof.
  unfold AliSMS.specParams. rewrite forEach_pairs. fold (signed_keys params).
  destruct (AliSMS.map_elements _ _) as [pairs|]; simpl; [|reflexivity].
  rewrite substring1_pairs. reflexivity.
Qed.

Lemma signed_keys_In (params : object) (k : jsstring) :
  In k (signed_keys params) <->
  (exists v, get_own params k = Some v) /\ k <> lit "Signature".
Proof.
  unfold signed_keys. rewrite filter_In, negb_true_iff, str_eqb_neq.
  rewrite <- get_own_keys.
  split; intros [H1 H2]; (split; [|exact H2]).
  - eapply Permutation_in; [apply sort_perm | exact H1].
  - eapply Permutation_in; [apply Permutation_sym, sort_perm | exact H1].
Qed.

Lemma StronglySorted_filter {A : Type} (R : A -> A -> Prop) (f : A -> bool)
  (l : list A) :
  StronglySorted R l -> StronglySorted R (filter f l).
Proof.
  induction 1 as [|x l Hs IH Hx]; simpl; [constructor|].
  destruct (f x); [|exact IH].
  constructor; [exact IH|].
  rewrite Forall_forall in *. intros y Hy.
  apply filter_In in Hy as [Hy _]. apply Hx, Hy.
Qed.

Lemma signed_keys_sorted (params : object) :
  StronglySorted str_le (signed_keys params).
Proof. apply StronglySorted_filter, sort_sorted. Qed.

Lemma ToString_array (x : value) (r : list value) :
  ToString (VArr (x :: r)) =
  (sx <- element_string x ;;
   match r with
   | [] => Ok sx
   | _ :: _ => sr <- ToString (VArr r) ;; Ok (sx ++ 44 :: sr)
   end).
Proof. reflexivity. Qed.

(** [String] throws nothing but TypeError. *)
Lemma ToString_error (v : value) (err : error) :
  ToString v = Throw err -> err = TypeError.
Proof.
  revert err. induction v as [| |b|z|s|l IH|o] using value_elements_ind;
    intros err; try discriminate.
  - destruct b; discriminate.
  - induction IH as [|x r Hx Hr IHr]; [discriminate|].
    rewrite ToString_array.
    destruct (element_string x) as [sx|ex] eqn:Ex; cbn [bind].
    + destruct r as [|y r']; [discriminate|].
      destruct (ToString (VArr (y :: r'))) as [sr|er]; cbn [bind];
        [discriminate|].
      intros [= <-]. apply IHr. reflexivity.
    + intros [= <-]. apply Hx.
      destruct x; try discriminate Ex; exact Ex.
  - simpl. destruct (get_own o (lit "toString")); [|discriminate].
    intros [= <-]. reflexivity.
Qed.

Lemma encoded_value_Ok (v : value) (e : jsstring) :
  encoded_value v = Ok e <->
  exists s, ToString v = Ok s /\ encodeURIComponent s = Ok e.
Proof.
  unfold encoded_value. destruct (ToString v) as [s|err]; cbn [bind].
  - split; [eauto|]. intros [s' [[= <-] H]]. exact H.
  - split; [discriminate|]. intros [s' [H _]]. discriminate.
Qed.

(** The value of a pair fails to be built in two ways: [String] throws
    TypeError, or the string it gives is not well-formed UTF-16 and
    [encodeURIComponent] throws URIError. *)
Lemma encoded_value_Throw (v : value) (err : error) :
  encoded_value v = Throw err ->
  (err = TypeError /\ ToString v = Throw TypeError) \/
  (err = URIError /\ exists s, ToString v = Ok s /\ well_formed s = false).
Proof.
  unfold encoded_value. destruct (ToString v) as [s|err'] eqn:E; cbn [bind].
  - intros H. apply encode_throws in H as [-> Hwf]. right. eauto.
  - intros [= <-]. left. pose proof (ToString_error _ _ E) as ->. auto.
Qed.

(** What [specParams] returns, and when it throws. *)
Lemma specParams_cases (params : object) :
  match AliSMS.specParams params with
  | Ok s =>
      exists pairs,
        s = join_with 38 pairs /\
        forall p, In p pairs <->
          exists k v e,
            get_own params k = Some v /\ k <> lit "Signature" /\
            encoded_value v = Ok e /\ p = k ++ 61 :: e
  | Throw err =>
      exists k v,
        get_own params k = Some v /\ k <> lit "Signature" /\
        ((err = TypeError /\ ToString v = Throw TypeError) \/
         (err = URIError /\
          exists s, ToString v = Ok s /\ well_formed s = false))
  end.
Proof.
  rewrite specParams_pairs.
  destruct (AliSMS.map_elements _ _) as [pairs|err] eqn:E; simpl.
  - exists pairs. split; [reflexivity|].
    apply map_elements_Ok in E. intros p. split.
    + intros Hin. destruct (Forall2_In_r _ _ _ _ E Hin) as [k [Hk Hp]].
      apply signed_keys_In in Hk as [[v Hv] Hne].
      unfold pair_of, get in Hp. rewrite Hv in Hp.
      destruct (encoded_value v) as [e|] eqn:Ee;
        simpl in Hp; [|discriminate].
      injection Hp as <-. exists k, v, e. auto.
    + intros [k [v [e [Hv [Hne [He ->]]]]]].
      assert (Hk : In k (signed_keys params))
        by (apply signed_keys_In; eauto).
      destruct (Forall2_In_l _ _ _ _ E Hk) as [y [Hy Hp]].
      unfold pair_of, get in Hp. rewrite Hv, He in Hp. simpl in Hp.
      injection Hp as <-. exact Hy.
  - apply map_elements_Throw in E as [k [Hk Hp]].
    apply signed_keys_In in Hk as [[v Hv] Hne].
    unfold pair_of, get in Hp. rewrite Hv in Hp.
    destruct (encoded_value v) as [e|err'] eqn:Ee;
      simpl in Hp; [discriminate|].
    injection Hp as <-. apply encoded_value_Throw in Ee.
    exists k, v. auto.
Qed.

(** The pairs of a canonical string: the key as it is, ["="], and a value
    in the output alphabet of the encoding. *)
Lemma specParams_pairs_shape (params : object) (s : jsstring) :
  AliSMS.specParams params = Ok s ->
  exists pairs,
    s = join_with 38 pairs /\
    Forall2 (fun k p => exists e,
               encoded_value (get params k) = Ok e /\
               p = k ++ 61 :: e)
            (signed_keys params) pairs.
Proof.
  rewrite specParams_pairs.
  destruct (AliSMS.map_elements _ _) as [pairs|] eqn:E; simpl;
    [|discriminate].
  intros [= <-]. exists pairs. split; [reflexivity|].
  apply map_elements_Ok in E. eapply Forall2_impl; [|exact E].
  intros k p Hp. unfold pair_of in Hp.
  destruct (encoded_value _) as [e|]; simpl in Hp; [|discriminate].
  injection Hp as <-. eauto.
Qed.

(** A pair splits at its last ["="]: the encoded value holds none. *)
Lemma pair_key_unique (k k' e e' : jsstring) :
  ~ In 61 e -> ~ In 61 e' -> k ++ 61 :: e = k' ++ 61 :: e' -> k = k'.
Proof.
  intros He He'. revert k'; induction k as [|c k IH]; intros [|c' k']; simpl.
  - reflexivity.
  - intros [= <- ->]. exfalso. apply He. apply in_or_app. right. left.
    reflexivity.
  - intros [= -> <-]. exfalso. apply He'. apply in_or_app. right. left.
    reflexivity.
  - intros [= -> H]. f_equal. apply IH, H.
Qed.

Lemma encode_no_equals (s e : jsstring) :
  encodeURIComponent s = Ok e -> ~ In 61 e.
Proof.
  intros H Hin. apply encode_alphabet in H.
  unfold escaped_outside in H. rewrite Forall_forall in H.
  destruct (H _ Hin) as [F|F]; discriminate.
Qed.

End Canonical.

(* ===================================================================== *)
(** ** Known answers of the imported helpers *)
(* ===================================================================== *)

Section KnownAnswers.

(** FIPS 180-4 examples for SHA-1. *)
Example sha1_empty :
  hex_of (Hash.sha1 []) = lit "da39a3ee5e6b4b0d3255bfef95601890afd80709".
Proof. vm_compute. reflexivity. Qed.

Example sha1_abc :
  hex_of (Hash.sha1 (Hash.utf8_encode (lit "abc")))
  = lit "a9993e364706816aba3e25717850c26c9cd0d89d".
Proof. vm_compute. reflexivity. Qed.

Example sha1_two_blocks :
  hex_of (Hash.sha1 (Hash.utf8_encode
    (lit "abcdbcdecdefdefgefghfghighijhijkijkljklmklmnlmnomnopnopq")))
  = lit "84983e441c3bd26ebaae4aa1f95129e5e54670f1".
Proof. vm_compute. reflexivity. Qed.

(** RFC 2202, test case 2 for HMAC-SHA-1. *)
Example hmac_sha1_rfc2202 :
  hex_of (Hash.hmac (lit "Jefe") (lit "what do ya want for nothing?"))
  = lit "effcdf6ae5eb2fa2d27416d5f184df9c259a7c79".
Proof. vm_compute. reflexivity. Qed.

(** RFC 4648, section 10. *)
Example base64_rfc4648 :
  Base64.encode (Hash.utf8_encode (lit "f")) = lit "Zg==" /\
  Base64.encode (Hash.utf8_encode (lit "fo")) = lit "Zm8=" /\
  Base64.encode (Hash.utf8_encode (lit "foo")) = lit "Zm9v" /\
  Base64.encode (Hash.utf8_encode (lit "foobar")) = lit "Zm9vYmFy".
Proof. vm_compute. repeat split. Qed.

(** [String] on arrays and objects: [null] and [undefined] elements
    print as nothing, arrays within arrays are joined in turn, an object
    prints as ["[object Object]"], and an object that has a property
    [toString] of its own cannot be printed. *)
Example ToString_known_answers :
  ToString (VArr [VNum 1; VNull; VStr (lit "a"); VUndefined])
  = Ok (lit "1,,a,") /\
  ToString (VArr [VArr [VNum 1; VNum (-2)]; VBool true])
  = Ok (lit "1,-2,true") /\
  ToString (VObj [(lit "a", VNum 1)]) = Ok (lit "[object Object]") /\
  ToString (VObj [(lit "toString", VNum 1)]) = Throw TypeError /\
  ToString (VArr [VStr (lit "a"); VObj [(lit "toString", VNull)]])
  = Throw TypeError /\
  AliSMS.specParams [(lit "a", VObj [(lit "b", VNum 1)])]
  = Ok (lit "a=%5Bobject%20Object%5D") /\
  AliSMS.specParams [(lit "a", VObj [(lit "toString", VNum 1)])]
  = Throw TypeError.
Proof. vm_compute. repeat split. Qed.

(** A character outside the Basic Multilingual Plane (U+1F600 as the pair
    D83D DE00) and one inside it (U+00E9). *)
Example encode_non_ascii :
  encodeURIComponent [0xD83D; 0xDE00]%N = Ok (lit "%F0%9F%98%80") /\
  encodeURIComponent [0xE9]%N = Ok (lit "%C3%A9") /\
  encodeURIComponent [0xD83D]%N = Throw URIError.
Proof. vm_compute. repeat split. Qed.

End KnownAnswers.

(* ===================================================================== *)
(** ** The signing pipeline *)
(* ===================================================================== *)

Section Signing.
Local Open Scope N_scope.

(** C1. On the parameters of [testStringToSign], [specParams] followed by
    [stringToSign] with method GET gives exactly the expected
    string-to-sign. *)
Theorem C1_string_to_sign_vector :
  (paramsStr <- AliSMS.specParams TestVectors.params ;;
   AliSMS.stringToSign AliSMS.GET paramsStr)
  = Ok TestVectors.string_to_sign.
Proof. vm_compute. reflexivity. Qed.

(** C2. Signing the expected string-to-sign with the secret ["testsecret"]
    (HMAC-SHA1 keyed with the secret followed by ["&"], base64 with
    padding) gives exactly ["rARsF+BIg8pZ4e0ln6Z96lBMDms="]. *)
Theorem C2_signature_vector :
  AliSMS.hmac TestVectors.string_to_sign TestVectors.secret
  = TestVectors.signature.
Proof. vm_compute. reflexivity. Qed.

Lemma specParams_single (k : jsstring) (v : value) :
  k <> lit "Signature" ->
  AliSMS.specParams [(k, v)] =
  (e <- encoded_value v ;; Ok (k ++ 61 :: e)).
Proof.
  intros Hk. rewrite specParams_pairs.
  unfold signed_keys. simpl.
  apply str_eqb_neq in Hk. rewrite Hk. simpl.
  unfold pair_of, get. simpl. rewrite str_eqb_refl.
  destruct (encoded_value v); reflexivity.
Qed.

(** The output alphabet of the encoding that C3 describes. *)
Lemma rfc3986_encode_alphabet (s e : jsstring) :
  rfc3986_encode s = Ok e -> escaped_outside rfc3986_unreserved e.
Proof.
  revert e. induction s as [|c rest IH1 IH2] using string_ind2; intros e.
  - simpl. intros [= <-]. constructor.
  - simpl. destruct (rfc3986_unreserved c) eqn:Eu.
    + destruct (rfc3986_encode rest) as [R|] eqn:ER; simpl; [|discriminate].
      intros [= <-]. constructor; [left; exact Eu | apply IH1; reflexivity].
    + destruct (is_lead_surrogate c).
      * destruct rest as [|c2 rest']; [discriminate|].
        destruct (is_trail_surrogate c2); [|discriminate].
        simpl in IH2.
        destruct (rfc3986_encode rest') as [R|] eqn:ER; simpl;
          [|discriminate].
        intros [= <-]. apply Forall_app. split.
        -- apply percent_octets_escaped; [auto|apply UTF8_octets].
        -- apply IH2; reflexivity.
      * destruct (is_trail_surrogate c); [discriminate|].
        destruct (rfc3986_encode rest) as [R|] eqn:ER; simpl;
          [|discriminate].
        intros [= <-]. apply Forall_app. split.
        -- apply percent_octets_escaped; [auto|apply UTF8_octets].
        -- apply IH1; reflexivity.
Qed.

(** It is defined wherever [encodeURIComponent] is. *)
Lemma rfc3986_encode_total (s e : jsstring) :
  encodeURIComponent s = Ok e -> exists e', rfc3986_encode s = Ok e'.
Proof.
  revert e. induction s as [|c rest IH1 IH2] using string_ind2; intros e.
  - simpl. eauto.
  - simpl. destruct (is_lead_surrogate c) eqn:El.
    + assert (Eu : uriUnescaped c = false).
      { destruct (uriUnescaped c) eqn:Eu; [|reflexivity].
        apply uriUnescaped_not_surrogate in Eu as [Eu _]. congruence. }
      assert (Er : rfc3986_unreserved c = false).
      { destruct (rfc3986_unreserved c) eqn:Er; [|reflexivity].
        apply rfc_kept in Er. congruence. }
      rewrite Eu, Er.
      destruct rest as [|c2 rest']; [discriminate|].
      destruct (is_trail_surrogate c2); [|discriminate].
      simpl in IH2.
      destruct (encodeURIComponent rest') as [R|] eqn:ER; simpl;
        [|discriminate].
      destruct (IH2 R eq_refl) as [R' ->]. simpl. eauto.
    + destruct (is_trail_surrogate c) eqn:Et.
      * assert (Eu : uriUnescaped c = false).
        { destruct (uriUnescaped c) eqn:Eu; [|reflexivity].
          apply uriUnescaped_not_surrogate in Eu as [_ Eu]. congruence. }
        rewrite Eu. discriminate.
      * destruct (encodeURIComponent rest) as [R|] eqn:ER.
        -- destruct (IH1 R eq_refl) as [R' ->]. simpl.
           destruct (rfc3986_unreserved c); eauto.
        -- destruct (uriUnescaped c); discriminate.
Qed.

Lemma mark_kept (c : code_unit) :
  js_extra_mark c = true ->
  uriUnescaped c = true /\ rfc3986_unreserved c = false /\ c <> 37.
Proof.
  unfold js_extra_mark. intros H.
  repeat (apply orb_true_iff in H as [H|H]);
    apply N.eqb_eq in H; subst c; repeat split; discriminate.
Qed.

(** A mark in the value is still there after [encodeURIComponent]. *)
Lemma encode_keeps_marks (s e : jsstring) :
  Exists (fun c => js_extra_mark c = true) s ->
  encodeURIComponent s = Ok e ->
  Exists (fun c => js_extra_mark c = true) e.
Proof.
  revert e. induction s as [|c rest IH1 IH2] using string_ind2; intros e HE.
  - inversion HE.
  - inversion HE as [? ? Hc | ? ? Hrest]; subst.
    + apply mark_kept in Hc as Hk. destruct Hk as [Hk _].
      simpl. rewrite Hk.
      destruct (encodeURIComponent rest) as [R|]; simpl; [|discriminate].
      intros [= <-]. apply Exists_cons_hd. exact Hc.
    + simpl. destruct (uriUnescaped c).
      * destruct (encodeURIComponent rest) as [R|] eqn:ER; simpl;
          [|discriminate].
        intros [= <-]. apply Exists_cons_tl. apply IH1; [exact Hrest|].
        reflexivity.
      * destruct (is_lead_surrogate c).
        -- destruct rest as [|c2 rest']; [discriminate|].
           destruct (is_trail_surrogate c2) eqn:Et; [|discriminate].
           simpl in IH2.
           destruct (encodeURIComponent rest') as [R|] eqn:ER; simpl;
             [|discriminate].
           intros [= <-]. apply Exists_app. right.
           apply IH2; [|reflexivity].
           inversion Hrest as [? ? Hc2 | ? ? Hrest']; subst; [|exact Hrest'].
           apply mark_kept in Hc2 as [Hk _].
           apply uriUnescaped_not_surrogate in Hk as [_ Hk]. congruence.
        -- destruct (is_trail_surrogate c); [discriminate|].
           destruct (encodeURIComponent rest) as [R|] eqn:ER; simpl;
             [|discriminate].
           intros [= <-]. apply Exists_app. right.
           apply IH1; [exact Hrest | reflexivity].
Qed.

(** On a value without marks the two encodings are the same. *)
Lemma encode_without_marks (s : jsstring) :
  Forall (fun c => js_extra_mark c = false) s ->
  encodeURIComponent s = rfc3986_encode s.
Proof.
  induction s as [|c rest IH1 IH2] using string_ind2; intros HF.
  - reflexivity.
  - inversion HF as [|? ? Hc Hrest]; subst.
    simpl. rewrite uriUnescaped_split, Hc, orb_false_r.
    rewrite (IH1 Hrest).
    destruct rest as [|c2 rest']; [reflexivity|].
    inversion Hrest as [|? ? _ Hrest']; subst.
    simpl in IH2. rewrite <- (IH2 Hrest'). reflexivity.
Qed.

(** C3 fails on the code.  The value of a parameter is to be
    percent-encoded except for the unreserved characters of RFC 3986, so
    that ["*"] becomes ["%2A"]; [specParams] encodes it with
    [encodeURIComponent] alone, which also leaves the five marks
    [! * ' ( )] as they are.  For the value ["a*b"] under ["SignName"] the
    code returns ["SignName=a*b"] where the claim asks for
    ["SignName=a%2Ab"].  The code gives the pair of the claim on every
    value without one of the five marks (so ["+"] becomes ["%2B"] and a
    space ["%20"]), and on every value with one of them it gives another
    pair than the claim's. *)
Theorem C3_marks_left_unencoded :
  AliSMS.specParams [(lit "SignName", VStr (lit "a*b"))]
  = Ok (lit "SignName=a*b") /\
  rfc3986_pair (lit "SignName") (lit "a*b") = Ok (lit "SignName=a%2Ab") /\
  (forall c, uriUnescaped c = rfc3986_unreserved c || js_extra_mark c) /\
  (forall k v,
     k <> lit "Signature" ->
     Forall (fun c => js_extra_mark c = false) v ->
     AliSMS.specParams [(k, VStr v)] = rfc3986_pair k v) /\
  (forall k v s,
     k <> lit "Signature" ->
     Exists (fun c => js_extra_mark c = true) v ->
     AliSMS.specParams [(k, VStr v)] = Ok s ->
     exists s', rfc3986_pair k v = Ok s' /\ s' <> s) /\
  AliSMS.specParams [(lit "SignName", VStr (lit "a+b c"))]
  = Ok (lit "SignName=a%2Bb%20c") /\
  rfc3986_pair (lit "SignName") (lit "a+b c")
  = Ok (lit "SignName=a%2Bb%20c").
Proof.
  split; [reflexivity|]. split; [reflexivity|].
  split; [exact uriUnescaped_split|].
  split.
  { intros k v Hk HF. rewrite (specParams_single k (VStr v) Hk).
    unfold encoded_value, rfc3986_pair. cbn [ToString bind].
    rewrite (encode_without_marks v HF). reflexivity. }
  split; [|split; reflexivity].
  intros k v s Hk HE. rewrite (specParams_single k (VStr v) Hk).
  unfold encoded_value, rfc3986_pair. cbn [ToString bind].
  destruct (encodeURIComponent v) as [e|] eqn:E; cbn [bind]; [|discriminate].
  intros [= <-].
  destruct (rfc3986_encode_total v e E) as [e' E']. rewrite E'. cbn [bind].
  exists (k ++ 61 :: e'). split; [reflexivity|].
  intros Heq. apply app_inv_head in Heq. injection Heq as ->.
  apply (encode_keeps_marks v e HE) in E.
  apply rfc3986_encode_alphabet in E'.
  apply Exists_exists in E as [c [Hin Hc]].
  unfold escaped_outside in E'. rewrite Forall_forall in E'.
  apply mark_kept in Hc as [_ [Hr H37]].
  destruct (E' c Hin) as [F|F]; congruence.
Qed.

(** C4. Whenever [specParams] returns, its result is the ["&"]-join of
    pairs ["key=value"], one for each own property whose key is not
    ["Signature"] and no other, in the ascending order of those keys; in
    particular no pair has the key ["Signature"].  Where the numbers to
    print are safe integers, the value of each pair is the percent-encoding
    of [String] of the property, and [specParams] throws only when a signed
    value has no string form (TypeError) or its string form is not
    well-formed UTF-16 (URIError). *)
Theorem C4_signature_excluded (params : object) :
  (forall s,
     AliSMS.specParams params = Ok s ->
     exists pairs,
       s = join_with 38 pairs /\
       Forall2 (fun k p => exists e, p = k ++ 61 :: e /\ ~ In 61 e)
               (signed_keys params) pairs /\
       (forall k, In k (signed_keys params) <->
                  (exists v, get_own params k = Some v) /\
                  k <> lit "Signature") /\
       (forall v e, encodeURIComponent v = Ok e ->
          ~ In (lit "Signature" ++ 61 :: e) pairs)) /\
  ((forall k v, get_own params k = Some v -> safe_numbers v = true) ->
   match AliSMS.specParams params with
   | Ok s =>
       exists pairs,
         s = join_with 38 pairs /\
         (forall p, In p pairs <->
            exists k v str e,
              get_own params k = Some v /\ k <> lit "Signature" /\
              ToString v = Ok str /\ encodeURIComponent str = Ok e /\
              p = k ++ 61 :: e)
   | Throw err =>
       exists k v,
         get_own params k = Some v /\ k <> lit "Signature" /\
         ((err = TypeError /\ ToString v = Throw TypeError) \/
          (err = URIError /\
           exists str, ToString v = Ok str /\ well_formed str = false))
   end).
Proof.
  split.
  - intros s Hs.
    apply specParams_pairs_shape in Hs as [pairs [-> HF]].
    assert (HF' : Forall2 (fun k p => exists e, p = k ++ 61 :: e /\ ~ In 61 e)
                    (signed_keys params) pairs).
    { eapply Forall2_impl; [|exact HF].
      intros k p [e [He ->]]. exists e. split; [reflexivity|].
      apply encoded_value_Ok in He as [str [_ He]].
      eapply encode_no_equals, He. }
    exists pairs. split; [reflexivity|]. split; [exact HF'|].
    split; [apply signed_keys_In|].
    intros v e He Hin.
    destruct (Forall2_In_r _ _ _ _ HF' Hin) as [k [Hk [e' [Heq He']]]].
    apply signed_keys_In in Hk as [_ Hne]. apply Hne.
    eapply pair_key_unique; [exact He' | | symmetry; exact Heq].
    eapply encode_no_equals, He.
  - intros _. pose proof (specParams_cases params) as H.
    destruct (AliSMS.specParams params) as [s|err]; [|exact H].
    destruct H as [pairs [Hs Hp]]. exists pairs.
    split; [exact Hs|]. intros p. rewrite Hp. split.
    + intros [k [v [e [Hv [Hne [He ->]]]]]].
      apply encoded_value_Ok in He as [str [Hstr He]].
      exists k, v, str, e. auto.
    + intros [k [v [str [e [Hv [Hne [Hstr [He ->]]]]]]]].
      exists k, v, e. repeat split; try assumption.
      apply encoded_value_Ok. eauto.
Qed.

Lemma C4_signature_excluded_witness :
  exists pairs,
    lit "a=1&b=x" = join_with 38 pairs /\
    (forall p, In p pairs <->
       exists k v str e,
         get_own [(lit "b", VStr (lit "x")); (lit "Signature", VStr (lit "s"));
                  (lit "a", VNum 1)] k = Some v /\
         k <> lit "Signature" /\
         ToString v = Ok str /\ encodeURIComponent str = Ok e /\
         p = k ++ 61 :: e).
Proof.
  pose proof (proj2 (C4_signature_excluded
                       [(lit "b", VStr (lit "x"));
                        (lit "Signature", VStr (lit "s"));
                        (lit "a", VNum 1)])) as H.
  assert (Hs : AliSMS.specParams
                 [(lit "b", VStr (lit "x")); (lit "Signature", VStr (lit "s"));
                  (lit "a", VNum 1)] = Ok (lit "a=1&b=x"))
    by (vm_compute; reflexivity).
  rewrite Hs in H. apply H.
  intros k v Hk. apply get_own_In in Hk.
  destruct Hk as [[= <- <-]|[[= <- <-]|[[= <- <-]|[]]]]; reflexivity.
Defined.

(** C5. [specParams] depends only on the properties of the object, not on
    the order in which they were created: its pairs follow the ascending
    code-unit order of the keys, which on byte strings is the byte-wise
    lexicographic order. *)
Theorem C5_order_independent (p1 p2 : object) :
  NoDup (Object_keys p1) ->
  Permutation p1 p2 ->
  AliSMS.specParams p1 = AliSMS.specParams p2 /\
  StronglySorted str_le (signed_keys p1) /\
  AliSMS.specParams p1 =
  (pairs <- AliSMS.map_elements (pair_of p1) (signed_keys p1) ;;
   Ok (join_with 38 pairs)) /\
  (forall a b : String.string, str_ltb (lit a) (lit b) = String.ltb a b).
Proof.
  intros Hnd HP.
  split; [|split; [apply signed_keys_sorted |
                   split; [apply specParams_pairs | exact str_ltb_lit]]].
  unfold AliSMS.specParams.
  assert (Hk : sort (Object_keys p1) = sort (Object_keys p2)).
  { apply sort_of_permutation. unfold Object_keys.
    apply Permutation_map, HP. }
  rewrite <- Hk. f_equal.
  apply forEach_ext. intros acc k _.
  unfold AliSMS.specParams_step, get.
  rewrite (get_own_permutation _ _ k Hnd HP). reflexivity.
Qed.

Lemma C5_order_independent_witness :
  AliSMS.specParams [(lit "b", VStr (lit "1")); (lit "a", VNum 2)] =
  AliSMS.specParams [(lit "a", VNum 2); (lit "b", VStr (lit "1"))].
Proof.
  refine (proj1 (C5_order_independent
                   [(lit "b", VStr (lit "1")); (lit "a", VNum 2)]
                   [(lit "a", VNum 2); (lit "b", VStr (lit "1"))] _ _)).
  - repeat constructor; simpl; intuition discriminate.
  - apply perm_swap.
Defined.

End Signing.

(* ===================================================================== *)
(** ** The request of [sendSMS] *)
(* ===================================================================== *)

Section SendRequest.
Local Open Scope N_scope.

Lemma well_formed_kept (s : jsstring) :
  forallb uriUnescaped s = true -> well_formed s = true.
Proof.
  induction s as [|c s IH]; simpl; [reflexivity|].
  intros H. apply andb_true_iff in H as [Hc Hs].
  destruct (uriUnescaped_not_surrogate _ Hc) as [-> ->]. apply IH, Hs.
Qed.

Lemma uint_units_kept (d : Decimal.uint) :
  forallb uriUnescaped (uint_units d) = true.
Proof. induction d; simpl; auto. Qed.

Lemma NumberToString_well_formed (z : Z) :
  well_formed (NumberToString z) = true.
Proof.
  apply well_formed_kept. destruct z; simpl; auto using uint_units_kept.
Qed.

(** An array of strings prints as the strings joined by commas. *)
Lemma ToString_strings (l : list jsstring) :
  ToString (VArr (map VStr l)) = Ok (join_with 44 l).
Proof.
  induction l as [|x r IH]; [reflexivity|].
  destruct r as [|y r']; [reflexivity|].
  change (ToString (VArr (map VStr (x :: y :: r'))))
    with (sr <- ToString (VArr (map VStr (y :: r'))) ;; Ok (x ++ 44 :: sr)).
  rewrite IH. reflexivity.
Qed.

Lemma well_formed_join (sep : code_unit) (l : list jsstring) :
  well_formed [sep] = true ->
  Forall (fun p => well_formed p = true) l ->
  well_formed (join_with sep l) = true.
Proof.
  intros Hsep. induction 1 as [|x r Hx Hr IH]; [reflexivity|].
  destruct r as [|y r']; [exact Hx|].
  change (join_with sep (x :: y :: r'))
    with (x ++ [sep] ++ join_with sep (y :: r')).
  apply well_formed_app; [exact Hx|].
  apply well_formed_app; [exact Hsep | exact IH].
Qed.

Lemma sendSMS_params_well_formed (this : AliSMS.t) (e : AliSMS.env)
  (phoneNumbers : list jsstring) (signName tplCode : jsstring)
  (tplParam : option jsstring) (k : jsstring) (v : value) :
  well_formed (AliSMS.accessKeyID this) = true ->
  well_formed (AliSMS.getNowISOTime e) = true ->
  Forall (fun p => well_formed p = true) phoneNumbers ->
  well_formed signName = true ->
  well_formed tplCode = true ->
  (forall s, tplParam = Some s -> well_formed s = true) ->
  get_own (AliSMS.sendSMS_params this e phoneNumbers signName tplCode
             tplParam) k = Some v ->
  exists s, ToString v = Ok s /\ well_formed s = true.
Proof.
  intros Hid Hnow Hph Hsign Htpl Hparam Hget.
  apply get_own_In in Hget. unfold AliSMS.sendSMS_params in Hget.
  assert (Hphones : well_formed (join_with 44 phoneNumbers) = true)
    by (apply well_formed_join; [reflexivity | exact Hph]).
  pose proof (NumberToString_well_formed (AliSMS.getNonce e)) as Hnonce.
  destruct tplParam as [[|c t]|]; simpl in Hget;
    repeat match goal with
           | H : _ \/ _ |- _ => destruct H as [H|H]
           end;
    try contradiction;
    injection Hget as <- <-;
    try rewrite ToString_strings;
    (eexists; split; [reflexivity|]); try assumption; try reflexivity.
  apply (Hparam (c :: t) eq_refl).
Qed.

(** The pair of a signed property is in every canonical string built. *)
Lemma specParams_has_pair (params : object) (s k : jsstring) (v : value) :
  AliSMS.specParams params = Ok s ->
  get_own params k = Some v ->
  k <> lit "Signature" ->
  exists pairs e,
    s = join_with 38 pairs /\
    encoded_value v = Ok e /\
    In (k ++ 61 :: e) pairs.
Proof.
  intros Hs Hk Hne. rewrite specParams_pairs in Hs.
  destruct (AliSMS.map_elements _ _) as [pairs|] eqn:E; simpl in Hs;
    [|discriminate].
  injection Hs as <-. apply map_elements_Ok in E.
  assert (Hin : In k (signed_keys params)) by (apply signed_keys_In; eauto).
  destruct (Forall2_In_l _ _ _ _ E Hin) as [y [Hy Hp]].
  unfold pair_of, get in Hp. rewrite Hk in Hp.
  destruct (encoded_value v) as [e|]; simpl in Hp;
    [|discriminate].
  injection Hp as <-. exists pairs, e. auto.
Qed.

(** C6. In the parameter object of [sendSMS] the key ["PhoneNumbers"]
    holds the array of phone numbers, which prints as the numbers joined by
    commas; every canonical query string built from the object has a pair
    ["PhoneNumbers="] followed by the percent-encoding of that join; and for
    well-formed arguments the canonical query string is built. *)
Theorem C6_phone_numbers_joined (this : AliSMS.t) (e : AliSMS.env)
  (phoneNumbers : list jsstring) (signName tplCode : jsstring)
  (tplParam : option jsstring) :
  get (AliSMS.sendSMS_params this e phoneNumbers signName tplCode tplParam)
      (lit "PhoneNumbers") = VArr (map VStr phoneNumbers) /\
  ToString (VArr (map VStr phoneNumbers))
  = Ok (join_with 44 phoneNumbers) /\
  (forall paramsStr,
     AliSMS.specParams
       (AliSMS.sendSMS_params this e phoneNumbers signName tplCode tplParam)
     = Ok paramsStr ->
     exists pairs enc,
       paramsStr = join_with 38 pairs /\
       encodeURIComponent (join_with 44 phoneNumbers) = Ok enc /\
       In (lit "PhoneNumbers" ++ 61 :: enc) pairs) /\
  (well_formed (AliSMS.accessKeyID this) = true ->
   well_formed (AliSMS.getNowISOTime e) = true ->
   Forall (fun p => well_formed p = true) phoneNumbers ->
   well_formed signName = true ->
   well_formed tplCode = true ->
   (forall s, tplParam = Some s -> well_formed s = true) ->
   exists paramsStr,
     AliSMS.specParams
       (AliSMS.sendSMS_params this e phoneNumbers signName tplCode tplParam)
     = Ok paramsStr).
Proof.
  assert (Hget : get_own (AliSMS.sendSMS_params this e phoneNumbers signName
                            tplCode tplParam) (lit "PhoneNumbers")
                 = Some (VArr (map VStr phoneNumbers)))
    by (destruct tplParam as [[|c t]|]; reflexivity).
  split; [unfold get; rewrite Hget; reflexivity|].
  split; [apply ToString_strings|]. split.
  - intros paramsStr Hs.
    destruct (specParams_has_pair _ _ _ _ Hs Hget) as [pairs [enc [H1 [H2 H3]]]];
      [discriminate|].
    unfold encoded_value in H2. rewrite ToString_strings in H2.
    exists pairs, enc. auto.
  - intros Hid Hnow Hph Hsign Htpl Hparam.
    pose proof (specParams_cases
                  (AliSMS.sendSMS_params this e phoneNumbers signName tplCode
                     tplParam)) as H.
    destruct (AliSMS.specParams _) as [s|err]; [eauto|].
    destruct H as [k [v [Hk [_ Hbad]]]].
    destruct (sendSMS_params_well_formed _ _ _ _ _ _ _ _ Hid Hnow Hph
                Hsign Htpl Hparam Hk) as [s [Hs Hwf]].
    destruct Hbad as [[_ F] | [_ [s' [F Hwf']]]]; congruence.
Qed.

Lemma C6_phone_numbers_joined_witness :
  exists paramsStr pairs,
    AliSMS.specParams
      (AliSMS.sendSMS_params Samples.client
         (Samples.answering Samples.accepted)
         [lit "13800000000"; lit "13900000000"] (lit "sign") (lit "SMS_1")
         (Some (lit "{}")))
    = Ok paramsStr /\
    paramsStr = join_with 38 pairs /\
    In (lit "PhoneNumbers=13800000000%2C13900000000") pairs.
Proof.
  destruct (C6_phone_numbers_joined Samples.client
              (Samples.answering Samples.accepted)
              [lit "13800000000"; lit "13900000000"] (lit "sign")
              (lit "SMS_1") (Some (lit "{}")))
    as [_ [_ [Hbuilt Htotal]]].
  destruct Htotal as [paramsStr Hs].
  - reflexivity.
  - reflexivity.
  - repeat constructor.
  - reflexivity.
  - reflexivity.
  - intros s [= <-]. reflexivity.
  - destruct (Hbuilt paramsStr Hs) as [pairs [enc [H2 [H3 H4]]]].
    exists paramsStr, pairs. split; [exact Hs|]. split; [exact H2|].
    vm_compute in H3. injection H3 as <-. exact H4.
Defined.

End SendRequest.

(* ===================================================================== *)
(** ** The response mappings *)
(* ===================================================================== *)

Section Responses.

Lemma sendSMS_fetched (this : AliSMS.t) (e : AliSMS.env)
  (phoneNumbers : list jsstring) (signName tplCode : jsstring)
  (tplParam : option jsstring) (result : value) :
  fetched this e
    (AliSMS.sendSMS_params this e phoneNumbers signName tplCode tplParam)
  = Ok result ->
  AliSMS.sendSMS this e phoneNumbers signName tplCode tplParam
  = AliSMS.sendSMS_response result.
Proof.
  unfold fetched, AliSMS.sendSMS.
  destruct (AliSMS.request_url _ _ _) as [url|]; simpl; [|discriminate].
  intros ->. reflexivity.
Qed.

Lemma querySendDetails_fetched (this : AliSMS.t) (e : AliSMS.env)
  (phoneNumber sendDate : jsstring) (pageSize currentPage : Z)
  (bizID : option jsstring) (result : value) :
  fetched this e
    (AliSMS.querySendDetails_params this e phoneNumber sendDate pageSize
       currentPage bizID) = Ok result ->
  AliSMS.querySendDetails this e phoneNumber sendDate pageSize currentPage
    bizID
  = AliSMS.querySendDetails_response result.
Proof.
  unfold fetched, AliSMS.querySendDetails.
  destruct (AliSMS.request_url _ _ _) as [url|]; simpl; [|discriminate].
  intros ->. reflexivity.
Qed.

(** A value one property of which can be read lets any property be read. *)
Lemma get_prop_any (result : value) (k k' : jsstring) (c : value) :
  get_prop result k = Ok c -> exists v, get_prop result k' = Ok v.
Proof. destruct result; simpl; try discriminate; eauto. Qed.

Lemma strict_neq_str_true (c : value) (s : jsstring) :
  strict_neq_str c s = true <-> c <> VStr s.
Proof.
  destruct c; simpl; try (split; [discriminate | reflexivity]).
  rewrite negb_true_iff, str_eqb_neq. split; congruence.
Qed.

Lemma strict_neq_str_false (c : value) (s : jsstring) :
  strict_neq_str c s = false <-> c = VStr s.
Proof.
  destruct c; simpl; try (split; discriminate).
  rewrite negb_false_iff, str_eqb_eq. split; congruence.
Qed.

(** C7. When the body was fetched and its [Code] can be read: if the code
    is not the string ["OK"], [sendSMS] resolves with the code, message and
    request id of the body and without [bizID] (after one console line); if
    it is ["OK"], the result also carries [bizID], read from [BizId]. *)
Theorem C7_send_response (this : AliSMS.t) (e : AliSMS.env)
  (phoneNumbers : list jsstring) (signName tplCode : jsstring)
  (tplParam : option jsstring) (result c : value) :
  fetched this e
    (AliSMS.sendSMS_params this e phoneNumbers signName tplCode tplParam)
  = Ok result ->
  get_prop result (lit "Code") = Ok c ->
  exists message requestID,
    get_prop result (lit "Message") = Ok message /\
    get_prop result (lit "RequestId") = Ok requestID /\
    (c <> VStr (lit "OK") ->
     AliSMS.sendSMS this e phoneNumbers signName tplCode tplParam =
     ([AliSMS.SendError result],
      Ok (RespSendSMS.mk c message requestID None))) /\
    (c = VStr (lit "OK") ->
     exists bizID,
       get_prop result (lit "BizId") = Ok bizID /\
       AliSMS.sendSMS this e phoneNumbers signName tplCode tplParam =
       ([], Ok (RespSendSMS.mk c message requestID (Some bizID)))).
Proof.
  intros Hf Hc. rewrite (sendSMS_fetched _ _ _ _ _ _ _ Hf).
  destruct (get_prop_any _ _ (lit "Message") _ Hc) as [m Hm].
  destruct (get_prop_any _ _ (lit "RequestId") _ Hc) as [r Hr].
  destruct (get_prop_any _ _ (lit "BizId") _ Hc) as [b Hb].
  exists m, r. split; [exact Hm|]. split; [exact Hr|].
  unfold AliSMS.sendSMS_response. rewrite Hc, Hm, Hr, Hb. simpl. split.
  - intros Hne. apply strict_neq_str_true in Hne. rewrite Hne. reflexivity.
  - intros Heq. apply strict_neq_str_false in Heq. rewrite Heq.
    exists b. split; reflexivity.
Qed.

Lemma C7_send_response_witness :
  AliSMS.sendSMS Samples.client (Samples.answering Samples.rejected)
    [lit "13800000000"] (lit "sign") (lit "SMS_1") None =
  ([AliSMS.SendError Samples.rejected],
   Ok (RespSendSMS.mk (VStr (lit "isv.BUSINESS_LIMIT_CONTROL"))
         (VStr (lit "limit")) (VStr (lit "r2")) None)).
Proof.
  destruct (C7_send_response Samples.client
              (Samples.answering Samples.rejected)
              [lit "13800000000"] (lit "sign") (lit "SMS_1") None
              Samples.rejected (VStr (lit "isv.BUSINESS_LIMIT_CONTROL")))
    as [m [r [Hm [Hr [Hne _]]]]].
  - vm_compute. reflexivity.
  - reflexivity.
  - vm_compute in Hm, Hr. injection Hm as <-. injection Hr as <-.
    apply Hne. discriminate.
Defined.

(** C8, as stated, fails: on a success response without the nested detail
    list [querySendDetails] returns no result. *)
Lemma C8_missing_details_throw : ~ tolerates_missing_details.
Proof.
  intros H.
  destruct (H Samples.client (Samples.answering Samples.without_details)
              (lit "13800000000") (lit "20220812") 1%Z 1%Z None
              Samples.without_details) as [r Hr].
  - vm_compute. reflexivity.
  - reflexivity.
  - left. reflexivity.
  - vm_compute in Hr. discriminate.
Qed.

(** C8, amended.  On a success response that lacks the nested detail list
    [querySendDetails] throws TypeError and returns no result; it is on a
    response whose code is not ["OK"] that it returns a result without
    [totalCount] and without the detail sequence. *)
Theorem C8_missing_details (this : AliSMS.t) (e : AliSMS.env)
  (phoneNumber sendDate : jsstring) (pageSize currentPage : Z)
  (bizID : option jsstring) (result c : value) :
  fetched this e
    (AliSMS.querySendDetails_params this e phoneNumber sendDate pageSize
       currentPage bizID) = Ok result ->
  get_prop result (lit "Code") = Ok c ->
  (c = VStr (lit "OK") -> details_missing result ->
   AliSMS.querySendDetails this e phoneNumber sendDate pageSize currentPage
     bizID = ([], Throw TypeError)) /\
  (c <> VStr (lit "OK") ->
   exists message requestID,
     get_prop result (lit "Message") = Ok message /\
     get_prop result (lit "RequestId") = Ok requestID /\
     AliSMS.querySendDetails this e phoneNumber sendDate pageSize currentPage
       bizID =
     ([AliSMS.QueryError result],
      Ok (RespQuerySendDetails.mk c message requestID None None))).
Proof.
  intros Hf Hc. rewrite (querySendDetails_fetched _ _ _ _ _ _ _ _ Hf).
  unfold AliSMS.querySendDetails_response. rewrite Hc. split.
  - intros Heq Hmiss. apply strict_neq_str_false in Heq. rewrite Heq.
    f_equal. destruct Hmiss as [Hm|Hm].
    + rewrite Hm. reflexivity.
    + unfold detail_list in Hm.
      destruct (get_prop result (lit "SmsSendDetailDTOs")) as [dtos|];
        simpl in Hm |- *; [|discriminate].
      rewrite Hm. reflexivity.
  - intros Hne. apply strict_neq_str_true in Hne. rewrite Hne.
    destruct (get_prop_any _ _ (lit "Message") _ Hc) as [m Hm].
    destruct (get_prop_any _ _ (lit "RequestId") _ Hc) as [r Hr].
    exists m, r. rewrite Hm, Hr. auto.
Qed.

Lemma C8_missing_details_witness :
  AliSMS.querySendDetails Samples.client
    (Samples.answering Samples.without_details)
    (lit "13800000000") (lit "20220812") 1%Z 1%Z None
  = ([], Throw TypeError).
Proof.
  refine (proj1 (C8_missing_details Samples.client
                   (Samples.answering Samples.without_details)
                   (lit "13800000000") (lit "20220812") 1%Z 1%Z None
                   Samples.without_details (VStr (lit "OK")) _ _) _ _).
  - vm_compute. reflexivity.
  - reflexivity.
  - reflexivity.
  - left. reflexivity.
Defined.

Lemma detail_of_record (rec : value) :
  is_record rec -> AliSMS.detail_of rec = Ok (detail_fields rec).
Proof. intros [o ->]. reflexivity. Qed.

Lemma detail_fields_mapped (rec : value) : mapped rec (detail_fields rec).
Proof. unfold mapped. simpl. intuition. Qed.

Lemma Forall2_map_r {A B : Type} (R : A -> B -> Prop) (g : A -> B)
  (l : list A) :
  (forall x, R x (g x)) -> Forall2 R l (map g l).
Proof. intros H. induction l; simpl; constructor; auto. Qed.

Lemma AliSMS_map_records (records : list value) :
  Forall is_record records ->
  AliSMS.map_elements AliSMS.detail_of records
  = Ok (map detail_fields records).
Proof.
  intros H. apply map_elements_total. rewrite Forall_forall in H.
  intros x Hx. apply detail_of_record, H, Hx.
Qed.

(** C9. On a success response whose nested detail list is an array of
    records, [querySendDetails] returns one entry per record, in the same
    order, each carrying the seven fields of its record unchanged; a
    [SendStatus] that is an enumeration number stays that number. *)
Theorem C9_details_mapped (this : AliSMS.t) (e : AliSMS.env)
  (phoneNumber sendDate : jsstring) (pageSize currentPage : Z)
  (bizID : option jsstring) (result : value) (records : list value) :
  fetched this e
    (AliSMS.querySendDetails_params this e phoneNumber sendDate pageSize
       currentPage bizID) = Ok result ->
  get_prop result (lit "Code") = Ok (VStr (lit "OK")) ->
  detail_list result = Ok (VArr records) ->
  Forall is_record records ->
  exists message requestID totalCount details,
    AliSMS.querySendDetails this e phoneNumber sendDate pageSize currentPage
      bizID =
    ([], Ok (RespQuerySendDetails.mk (VStr (lit "OK")) message requestID
               (Some totalCount)
               (Some (RespQuerySendDetails.mk_details details)))) /\
    length details = length records /\
    Forall2 mapped records details.
Proof.
  intros Hf Hc Hl Hrec. rewrite (querySendDetails_fetched _ _ _ _ _ _ _ _ Hf).
  destruct (get_prop_any _ _ (lit "Message") _ Hc) as [m Hm].
  destruct (get_prop_any _ _ (lit "RequestId") _ Hc) as [r Hr].
  destruct (get_prop_any _ _ (lit "TotalCount") _ Hc) as [t Ht].
  exists m, r, t, (map detail_fields records).
  split; [|split].
  - unfold AliSMS.querySendDetails_response. rewrite Hc.
    change (strict_neq_str (VStr (lit "OK")) (lit "OK")) with false.
    cbv iota. unfold detail_list in Hl.
    destruct (get_prop result (lit "SmsSendDetailDTOs")) as [dtos|];
      cbn [bind] in Hl |- *; [|discriminate].
    rewrite Hl. cbn [bind AliSMS.array_map].
    rewrite (AliSMS_map_records records Hrec). cbn [bind].
    rewrite Hm, Hr, Ht. reflexivity.
  - apply length_map.
  - apply Forall2_map_r, detail_fields_mapped.
Qed.

Lemma C9_details_mapped_witness :
  exists message requestID totalCount details,
    AliSMS.querySendDetails Samples.client
      (Samples.answering Samples.with_details)
      (lit "13800000000") (lit "20220812") 1%Z 1%Z None =
    ([], Ok (RespQuerySendDetails.mk (VStr (lit "OK")) message requestID
               (Some totalCount)
               (Some (RespQuerySendDetails.mk_details details)))) /\
    length details = length [Samples.record] /\
    Forall2 mapped [Samples.record] details.
Proof.
  apply (C9_details_mapped Samples.client
           (Samples.answering Samples.with_details)
           (lit "13800000000") (lit "20220812") 1%Z 1%Z None
           Samples.with_details [Samples.record]).
  - vm_compute. reflexivity.
  - reflexivity.
  - reflexivity.
  - constructor; [eexists; reflexivity | constructor].
Defined.

(** C10. An empty [tplParam] builds the parameter object of an omitted
    one, with no [TemplateParam] key, and the call settles alike; the same
    holds for an empty [bizID] and the key [BizID] in
    [querySendDetails]. *)
Theorem C10_empty_optional_is_absent (this : AliSMS.t) (e : AliSMS.env)
  (phoneNumbers : list jsstring) (signName tplCode : jsstring)
  (phoneNumber sendDate : jsstring) (pageSize currentPage : Z) :
  AliSMS.sendSMS_params this e phoneNumbers signName tplCode (Some [])
  = AliSMS.sendSMS_params this e phoneNumbers signName tplCode None /\
  get_own (AliSMS.sendSMS_params this e phoneNumbers signName tplCode
             (Some [])) (lit "TemplateParam") = None /\
  AliSMS.sendSMS this e phoneNumbers signName tplCode (Some [])
  = AliSMS.sendSMS this e phoneNumbers signName tplCode None /\
  AliSMS.querySendDetails_params this e phoneNumber sendDate pageSize
    currentPage (Some [])
  = AliSMS.querySendDetails_params this e phoneNumber sendDate pageSize
      currentPage None /\
  get_own (AliSMS.querySendDetails_params this e phoneNumber sendDate
             pageSize currentPage (Some [])) (lit "BizID") = None /\
  AliSMS.querySendDetails this e phoneNumber sendDate pageSize currentPage
    (Some [])
  = AliSMS.querySendDetails this e phoneNumber sendDate pageSize currentPage
      None.
Proof. repeat split. Qed.

End Responses.

(* ===================================================================== *)
(** ** Further properties of the canonical query string *)
(* ===================================================================== *)

Import Wire.

Section CanonicalMore.
Local Open Scope N_scope.

Lemma join_with_nonempty (sep : code_unit) (x : jsstring)
  (r : list jsstring) :
  x <> [] -> join_with sep (x :: r) <> [].
Proof.
  intros Hx. destruct r as [|y r]; simpl; [exact Hx|].
  destruct x; [contradiction | discriminate].
Qed.

(** X1. The canonical query string is empty exactly when the object has no
    property to sign: it is empty, or ["Signature"] is its only key. *)
Theorem X1_empty_canonical_string (params : object) :
  AliSMS.specParams params = Ok [] <->
  (forall k v, get_own params k = Some v -> k = lit "Signature").
Proof.
  rewrite specParams_pairs. split.
  - destruct (AliSMS.map_elements _ _) as [pairs|] eqn:E; simpl;
      [|discriminate].
    intros [= Hj] k v Hk.
    destruct (str_eqb k (lit "Signature")) eqn:Ek;
      [apply str_eqb_eq, Ek|].
    apply str_eqb_neq in Ek.
    assert (Hin : In k (signed_keys params))
      by (apply signed_keys_In; eauto).
    apply map_elements_Ok in E.
    destruct (Forall2_In_l _ _ _ _ E Hin) as [y [Hy Hp]].
    destruct pairs as [|x r]; [contradiction|].
    exfalso. revert Hj. apply join_with_nonempty.
    inversion E as [|k0 x0 ks r0 Hx _]; subst.
    unfold pair_of in Hx.
    destruct (encoded_value _); simpl in Hx; [|discriminate].
    injection Hx as <-. destruct k0; discriminate.
  - intros H.
    assert (E : signed_keys params = []).
    { destruct (signed_keys params) as [|k ks] eqn:E; [reflexivity|].
      assert (Hin : In k (signed_keys params))
        by (rewrite E; left; reflexivity).
      apply signed_keys_In in Hin as [[v Hv] Hne].
      exfalso. apply Hne. eapply H, Hv. }
    rewrite E. reflexivity.
Qed.

Lemma Permutation_filter {A : Type} (f : A -> bool) (l1 l2 : list A) :
  Permutation l1 l2 -> Permutation (filter f l1) (filter f l2).
Proof.
  induction 1 as [|x l1 l2 HP IH|x y l|l1 l2 l3 H1 IH1 H2 IH2]; simpl.
  - constructor.
  - destruct (f x); [constructor|]; exact IH.
  - destruct (f x), (f y); try apply Permutation_refl. apply perm_swap.
  - eapply perm_trans; eassumption.
Qed.

Lemma get_own_set_other (o : object) (k k' : jsstring) (v : value) :
  k' <> k -> get_own (set o k v) k' = get_own o k'.
Proof.
  intros Hne. induction o as [|[k0 v0] o IH]; simpl.
  - apply str_eqb_neq in Hne.
    destruct (str_eqb k k') eqn:E; [|reflexivity].
    apply str_eqb_eq in E. subst. rewrite str_eqb_refl in Hne. discriminate.
  - destruct (str_eqb k0 k) eqn:E; simpl.
    + apply str_eqb_eq in E. subst k0.
      assert (str_eqb k k' = false) as ->
        by (apply str_eqb_neq; congruence).
      reflexivity.
    + destruct (str_eqb k0 k'); [reflexivity | exact IH].
Qed.

Lemma keys_set_filter (o : object) (k : jsstring) (v : value) :
  filter (fun x => negb (str_eqb x k)) (Object_keys (set o k v)) =
  filter (fun x => negb (str_eqb x k)) (Object_keys o).
Proof.
  unfold Object_keys. induction o as [|[k0 v0] o IH]; simpl.
  - rewrite str_eqb_refl. reflexivity.
  - destruct (str_eqb k0 k) eqn:E; simpl; rewrite E; simpl;
      [reflexivity | rewrite IH; reflexivity].
Qed.

Lemma map_elements_ext {A B : Type} (f g : A -> outcome B) (l : list A) :
  (forall x, In x l -> f x = g x) ->
  AliSMS.map_elements f l = AliSMS.map_elements g l.
Proof.
  induction l as [|x l IH]; simpl; intros H; [reflexivity|].
  rewrite (H x (or_introl eq_refl)).
  rewrite IH by (intros; apply H; right; assumption). reflexivity.
Qed.

(** X2. Whatever [Signature] the object holds has no influence: storing
    any value under ["Signature"] leaves the canonical query string as it
    was. *)
Theorem X2_signature_ignored (params : object) (v : value) :
  AliSMS.specParams (set params (lit "Signature") v)
  = AliSMS.specParams params.
Proof.
  rewrite !specParams_pairs.
  assert (Hk : signed_keys (set params (lit "Signature") v)
               = signed_keys params).
  { apply sorted_perm_eq; try apply signed_keys_sorted.
    unfold signed_keys.
    eapply perm_trans; [apply Permutation_filter, sort_perm|].
    rewrite keys_set_filter.
    apply Permutation_sym, Permutation_filter, sort_perm. }
  rewrite Hk. f_equal.
  apply map_elements_ext. intros k Hin.
  apply signed_keys_In in Hin as [_ Hne].
  unfold pair_of, get. rewrite get_own_set_other by exact Hne. reflexivity.
Qed.

Lemma Forall_join_with (P : code_unit -> Prop) (sep : code_unit)
  (l : list jsstring) :
  P sep -> Forall (Forall P) l -> Forall P (join_with sep l).
Proof.
  intros Hsep. induction 1 as [|x r Hx Hr IH]; [constructor|].
  destruct r as [|y r']; [exact Hx|].
  change (join_with sep (x :: y :: r'))
    with (x ++ sep :: join_with sep (y :: r')).
  apply Forall_app. split; [exact Hx|]. constructor; assumption.
Qed.

Lemma Forall2_Forall_r {A B : Type} (R : A -> B -> Prop) (P : B -> Prop)
  (l : list A) (ys : list B) :
  Forall2 R l ys -> (forall x y, In x l -> R x y -> P y) -> Forall P ys.
Proof.
  induction 1 as [|x y l ys Hxy HF IH]; intros H; constructor.
  - apply (H x y); [left; reflexivity | exact Hxy].
  - apply IH. intros x' y' Hin. apply H. right. exact Hin.
Qed.

(** A canonical string over keys with property [P] has only code units
    with [P], kept code units, ["%"], ["&"] and ["="]. *)
Lemma specParams_alphabet (P : code_unit -> Prop) (params : object)
  (s : jsstring) :
  (forall k, In k (Object_keys params) -> Forall P k) ->
  AliSMS.specParams params = Ok s ->
  Forall (fun c => P c \/ uriUnescaped c = true \/
                   c = 37 \/ c = 38 \/ c = 61) s.
Proof.
  intros Hkeys Hs.
  apply specParams_pairs_shape in Hs as [pairs [-> HF]].
  apply Forall_join_with; [auto|].
  eapply Forall2_Forall_r; [exact HF|].
  intros k p Hin [e [He ->]].
  apply signed_keys_In in Hin as [Hk _]. apply get_own_keys in Hk.
  apply Forall_app. split.
  - eapply Forall_impl; [|apply Hkeys, Hk]. auto.
  - constructor; [auto|].
    apply encoded_value_Ok in He as [str [_ He]].
    apply encode_alphabet in He. eapply Forall_impl; [|exact He].
    intros c [Hc|Hc]; auto.
Qed.

Lemma encode_again (s : jsstring) :
  Forall (fun c => uriUnescaped c = true \/ c = 37 \/ c = 38 \/ c = 61) s ->
  encodeURIComponent s = Ok (flat_map encoded_again s).
Proof.
  induction 1 as [|c s Hc Hs IH]; [reflexivity|].
  simpl. rewrite IH.
  destruct Hc as [Hc | [-> | [-> | ->] ] ]; try reflexivity.
  rewrite Hc. simpl. unfold encoded_again.
  assert (c <> 37 /\ c <> 38 /\ c <> 61) as [H1 [H2 H3]]
    by (repeat split; intros ->; discriminate).
  apply N.eqb_neq in H1, H2, H3. rewrite H1, H2, H3. reflexivity.
Qed.

(** X3. For an object whose keys consist of kept characters (as all keys
    of the class do), the string-to-sign is the method, ["&%2F&"], and the
    canonical query string with every ["%"], ["&"] and ["="] replaced by
    ["%25"], ["%26"] and ["%3D"]; [stringToSign] does not throw on it. *)
Theorem X3_string_to_sign_of_canonical (params : object)
  (method : AliSMS.http_method) (paramsStr : jsstring) :
  (forall k, In k (Object_keys params) -> forallb uriUnescaped k = true) ->
  AliSMS.specParams params = Ok paramsStr ->
  AliSMS.stringToSign method paramsStr =
  Ok (AliSMS.method_name method ++ lit "&%2F&"
      ++ flat_map encoded_again paramsStr).
Proof.
  intros Hkeys Hs. unfold AliSMS.stringToSign.
  rewrite encode_again; [reflexivity|].
  eapply Forall_impl;
    [|apply (specParams_alphabet (fun c => uriUnescaped c = true) params);
      [|exact Hs]].
  - intros c [H|H]; [left; exact H | exact H].
  - intros k Hk. apply Forall_forall. apply forallb_forall. apply Hkeys, Hk.
Qed.

Lemma X3_string_to_sign_of_canonical_witness :
  exists paramsStr,
    AliSMS.specParams TestVectors.params = Ok paramsStr /\
    AliSMS.stringToSign AliSMS.POST paramsStr =
    Ok (lit "POST&%2F&" ++ flat_map encoded_again paramsStr).
Proof.
  eexists. split; [vm_compute; reflexivity|].
  apply (X3_string_to_sign_of_canonical TestVectors.params AliSMS.POST).
  - intros k Hk. simpl in Hk.
    repeat (destruct Hk as [<-|Hk]; [reflexivity|]). contradiction.
  - vm_compute. reflexivity.
Defined.

(** X4. Whatever its argument, a string-to-sign that [stringToSign] returns
    holds exactly two ["&"]: those after the method and after ["%2F"]; the
    encoded rest holds no ["&"], ["="] or ["/"]. *)
Theorem X4_string_to_sign_fields (method : AliSMS.http_method)
  (paramsStr s : jsstring) :
  AliSMS.stringToSign method paramsStr = Ok s ->
  exists e,
    s = AliSMS.method_name method ++ lit "&%2F&" ++ e /\
    ~ In 38 e /\ ~ In 61 e /\ ~ In 47 e /\
    count_occ N.eq_dec s 38 = 2%nat.
Proof.
  unfold AliSMS.stringToSign.
  destruct (encodeURIComponent paramsStr) as [e|] eqn:E; simpl;
    [|discriminate].
  intros [= <-]. exists e.
  apply encode_alphabet in E. unfold escaped_outside in E.
  rewrite Forall_forall in E.
  assert (Hno : forall c, uriUnescaped c = false -> c <> 37 -> ~ In c e).
  { intros c Hc Hne Hin. destruct (E c Hin) as [F|F]; congruence. }
  split; [reflexivity|].
  split; [apply Hno; [reflexivity|discriminate]|].
  split; [apply Hno; [reflexivity|discriminate]|].
  split; [apply Hno; [reflexivity|discriminate]|].
  assert (Hz : count_occ N.eq_dec e 38 = 0%nat)
    by (apply count_occ_not_In, Hno; [reflexivity|discriminate]).
  destruct method; cbn; rewrite Hz; reflexivity.
Qed.

Lemma X4_string_to_sign_fields_witness :
  count_occ N.eq_dec TestVectors.string_to_sign 38 = 2%nat.
Proof.
  destruct (X4_string_to_sign_fields AliSMS.GET
              (lit "AccessKeyId=testid&Action=DescribeDedicatedHosts&Format=XML&SignatureMethod=HMAC-SHA1&SignatureNonce=3ee8c1b8-xxxx-xxxx-xxxx-xxxxxxxxx&SignatureVersion=1.0&Timestamp=2016-02-23T12%3A46%3A24Z&Version=2014-05-26")
              TestVectors.string_to_sign)
    as [e [_ [_ [_ [_ H]]]]].
  - vm_compute. reflexivity.
  - exact H.
Defined.

End CanonicalMore.

(* ===================================================================== *)
(** ** The encoding loses nothing *)
(* ===================================================================== *)

Section Injective.
Local Open Scope N_scope.

Lemma hex_digit_inj (d1 d2 : N) :
  d1 < 16 -> d2 < 16 -> hex_digit d1 = hex_digit d2 -> d1 = d2.
Proof.
  unfold hex_digit. intros H1 H2.
  destruct (N.ltb_spec d1 10), (N.ltb_spec d2 10); lia.
Qed.

Lemma div_mod_eq (a b m : N) :
  a / m = b / m -> a mod m = b mod m -> a = b.
Proof.
  intros Hd Hm. rewrite (N.Div0.div_mod a m), (N.Div0.div_mod b m).
  congruence.
Qed.

Lemma percent_inj (o1 o2 : N) :
  o1 < 256 -> o2 < 256 -> percent o1 = percent o2 -> o1 = o2.
Proof.
  intros H1 H2. unfold percent. intros [= Hd Hm].
  apply (div_mod_eq o1 o2 16).
  - apply hex_digit_inj; [| |exact Hd];
      apply N.Div0.div_lt_upper_bound; lia.
  - apply hex_digit_inj; [| |exact Hm]; apply N.mod_upper_bound; lia.
Qed.

Lemma percent_octets_peel (o1 o2 : N) (l1 l2 : list N) (R1 R2 : jsstring) :
  o1 < 256 -> o2 < 256 ->
  percent_octets (o1 :: l1) ++ R1 = percent_octets (o2 :: l2) ++ R2 ->
  o1 = o2 /\ percent_octets l1 ++ R1 = percent_octets l2 ++ R2.
Proof.
  intros H1 H2 H.
  change (percent o1 ++ (percent_octets l1 ++ R1)
          = percent o2 ++ (percent_octets l2 ++ R2)) in H.
  unfold percent in H. simpl in H. injection H as Hd Hm Hr.
  split; [|exact Hr].
  apply percent_inj; [assumption..|]. unfold percent. congruence.
Qed.

(** The first octet of a UTF-8 form tells its length. *)
Lemma UTF8_lead (cp : N) :
  match UTF8 cp with
  | [o] => o < 0x80
  | [o; _] => 0xC0 <= o < 0xE0
  | [o; _; _] => 0xE0 <= o < 0xF0
  | [o; _; _; _] => 0xF0 <= o < 0xF8
  | _ => False
  end.
Proof.
  unfold UTF8.
  pose proof (N.mod_upper_bound (cp / 0x40) 0x20 ltac:(lia)).
  pose proof (N.mod_upper_bound (cp / 0x1000) 0x10 ltac:(lia)).
  pose proof (N.mod_upper_bound (cp / 0x40000) 8 ltac:(lia)).
  pose proof (N.le_0_l ((cp / 0x40) mod 0x20)).
  pose proof (N.le_0_l ((cp / 0x1000) mod 0x10)).
  pose proof (N.le_0_l ((cp / 0x40000) mod 8)).
  destruct (N.ltb_spec cp 0x80); [assumption|].
  destruct (N.ltb_spec cp 0x800); [cbv beta iota; lia|].
  destruct (N.ltb_spec cp 0x10000); cbv beta iota; lia.
Qed.

Lemma cons_eq_inv {A : Type} (a b : A) (l1 l2 : list A) :
  a :: l1 = b :: l2 -> a = b /\ l1 = l2.
Proof. intros H. split; congruence. Qed.

Lemma UTF8_inj (cp1 cp2 : N) :
  cp1 < 0x110000 -> cp2 < 0x110000 -> UTF8 cp1 = UTF8 cp2 -> cp1 = cp2.
Proof.
  intros B1 B2. unfold UTF8.
  destruct (N.ltb_spec cp1 0x80); destruct (N.ltb_spec cp2 0x80).
  - intros H1. apply cons_eq_inv in H1 as [H1 _]. exact H1.
  - destruct (N.ltb_spec cp2 0x800); [discriminate|].
    destruct (N.ltb_spec cp2 0x10000); discriminate.
  - destruct (N.ltb_spec cp1 0x800); [discriminate|].
    destruct (N.ltb_spec cp1 0x10000); discriminate.
  - destruct (N.ltb_spec cp1 0x800); destruct (N.ltb_spec cp2 0x800).
    + (* two octets *)
      intros Heq. apply cons_eq_inv in Heq as [Ha Heq].
      apply cons_eq_inv in Heq as [Hb _].
      apply (div_mod_eq cp1 cp2 0x40); [|lia].
      rewrite <- (N.mod_small (cp1 / 0x40) 0x20)
        by (apply N.Div0.div_lt_upper_bound; lia).
      rewrite <- (N.mod_small (cp2 / 0x40) 0x20)
        by (apply N.Div0.div_lt_upper_bound; lia).
      lia.
    + destruct (N.ltb_spec cp2 0x10000); discriminate.
    + destruct (N.ltb_spec cp1 0x10000); discriminate.
    + destruct (N.ltb_spec cp1 0x10000); destruct (N.ltb_spec cp2 0x10000);
        try discriminate.
      * (* three octets *)
        intros Heq. apply cons_eq_inv in Heq as [Ha Heq].
        apply cons_eq_inv in Heq as [Hb Heq].
        apply cons_eq_inv in Heq as [Hc _].
        apply (div_mod_eq cp1 cp2 0x40); [|lia].
        apply (div_mod_eq _ _ 0x40); [|lia].
        rewrite !N.Div0.div_div. change (0x40 * 0x40) with 0x1000.
        rewrite <- (N.mod_small (cp1 / 0x1000) 0x10)
          by (apply N.Div0.div_lt_upper_bound; lia).
        rewrite <- (N.mod_small (cp2 / 0x1000) 0x10)
          by (apply N.Div0.div_lt_upper_bound; lia).
        lia.
      * (* four octets *)
        intros Heq. apply cons_eq_inv in Heq as [Ha Heq].
        apply cons_eq_inv in Heq as [Hb Heq].
        apply cons_eq_inv in Heq as [Hc Heq].
        apply cons_eq_inv in Heq as [Hd _].
        apply (div_mod_eq cp1 cp2 0x40); [|lia].
        apply (div_mod_eq _ _ 0x40); [|lia].
        rewrite !N.Div0.div_div. change (0x40 * 0x40) with 0x1000.
        apply (div_mod_eq _ _ 0x40).
        -- rewrite !N.Div0.div_div. change (0x1000 * 0x40) with 0x40000.
           rewrite <- (N.mod_small (cp1 / 0x40000) 8)
             by (apply N.Div0.div_lt_upper_bound; lia).
           rewrite <- (N.mod_small (cp2 / 0x40000) 8)
             by (apply N.Div0.div_lt_upper_bound; lia).
           lia.
        -- lia.
Qed.

Lemma percent_octets_inj (l1 l2 : list N) (R1 R2 : jsstring) :
  length l1 = length l2 ->
  Forall (fun o => o < 256) l1 -> Forall (fun o => o < 256) l2 ->
  percent_octets l1 ++ R1 = percent_octets l2 ++ R2 ->
  l1 = l2 /\ R1 = R2.
Proof.
  revert l2; induction l1 as [|o1 l1 IH]; intros [|o2 l2]; simpl length;
    try discriminate.
  - intros _ _ _ H. split; [reflexivity | exact H].
  - intros [= Hlen] H1 H2 H. inversion H1; inversion H2; subst.
    apply percent_octets_peel in H as [-> H]; [|assumption..].
    destruct (IH l2 Hlen) as [-> ->]; auto.
Qed.

(** Two escaped code points with the same output are the same code
    point, and what follows them is the same. *)
Lemma utf8_chunk_inj (cp1 cp2 : N) (R1 R2 : jsstring) :
  cp1 < 0x110000 -> cp2 < 0x110000 ->
  percent_octets (UTF8 cp1) ++ R1 = percent_octets (UTF8 cp2) ++ R2 ->
  cp1 = cp2 /\ R1 = R2.
Proof.
  intros B1 B2 H.
  pose proof (UTF8_lead cp1) as L1. pose proof (UTF8_lead cp2) as L2.
  pose proof (UTF8_octets cp1) as O1. pose proof (UTF8_octets cp2) as O2.
  assert (Hlen : length (UTF8 cp1) = length (UTF8 cp2)).
  { destruct (UTF8 cp1) as [|a1 l1]; [contradiction|].
    destruct (UTF8 cp2) as [|a2 l2]; [contradiction|].
    inversion O1; inversion O2; subst.
    apply percent_octets_peel in H as [-> _]; [|assumption..].
    destruct l1 as [|? [|? [|? [|? ?]]]]; try contradiction;
      destruct l2 as [|? [|? [|? [|? ?]]]]; try contradiction;
      try reflexivity; exfalso; lia. }
  destruct (percent_octets_inj _ _ _ _ Hlen O1 O2 H) as [E ->].
  split; [apply UTF8_inj; assumption | reflexivity].
Qed.

Lemma chunk_head (cp : N) (R : jsstring) :
  exists t, percent_octets (UTF8 cp) ++ R = 37 :: t.
Proof.
  pose proof (UTF8_lead cp) as L.
  destruct (UTF8 cp) as [|o l]; [contradiction|].
  simpl. eauto.
Qed.

(** One step of the loop, read backwards. *)
Lemma encode_cons_inv (C : code_unit) (rest e : jsstring) :
  encodeURIComponent (C :: rest) = Ok e ->
  (uriUnescaped C = true /\
   exists R, encodeURIComponent rest = Ok R /\ e = C :: R) \/
  (uriUnescaped C = false /\ is_lead_surrogate C = false /\
   exists R, encodeURIComponent rest = Ok R /\
             e = percent_octets (UTF8 C) ++ R) \/
  (uriUnescaped C = false /\ is_lead_surrogate C = true /\
   exists C2 rest' R,
     rest = C2 :: rest' /\ is_trail_surrogate C2 = true /\
     encodeURIComponent rest' = Ok R /\
     e = percent_octets (UTF8 (pair_code_point C C2)) ++ R).
Proof.
  simpl. destruct (uriUnescaped C).
  - destruct (encodeURIComponent rest) as [R|]; simpl; [|discriminate].
    intros [= <-]. left. eauto.
  - destruct (is_lead_surrogate C).
    + destruct rest as [|C2 rest']; [discriminate|].
      destruct (is_trail_surrogate C2) eqn:Et; [|discriminate].
      destruct (encodeURIComponent rest') as [R|] eqn:ER; simpl;
        [|discriminate].
      intros [= <-]. right. right. split; [reflexivity|].
      split; [reflexivity|]. exists C2, rest', R.
      repeat split; (reflexivity || exact Et || exact ER).
    + destruct (is_trail_surrogate C); [discriminate|].
      destruct (encodeURIComponent rest) as [R|]; simpl; [|discriminate].
      intros [= <-]. right. left. eauto.
Qed.

Lemma encode_nil (s : jsstring) : encodeURIComponent s = Ok [] -> s = [].
Proof.
  destruct s as [|C rest]; [reflexivity|]. intros H.
  apply encode_cons_inv in H
    as [[_ [R [_ H]]] | [[_ [_ [R [_ H]]]] | [_ [_ [C2 [r [R [_ [_ [_ H]]]]]]]]]].
  - discriminate.
  - destruct (chunk_head C R) as [t Ht]. congruence.
  - destruct (chunk_head (pair_code_point C C2) R) as [t Ht]. congruence.
Qed.

Lemma pair_code_point_range (C C2 : code_unit) :
  is_lead_surrogate C = true -> is_trail_surrogate C2 = true ->
  0x10000 <= pair_code_point C C2 < 0x110000.
Proof.
  unfold is_lead_surrogate, is_trail_surrogate, pair_code_point.
  rewrite !in_range_true. lia.
Qed.

Lemma pair_code_point_inj (C C2 D D2 : code_unit) :
  is_lead_surrogate C = true -> is_trail_surrogate C2 = true ->
  is_lead_surrogate D = true -> is_trail_surrogate D2 = true ->
  pair_code_point C C2 = pair_code_point D D2 -> C = D /\ C2 = D2.
Proof.
  unfold is_lead_surrogate, is_trail_surrogate, pair_code_point.
  rewrite !in_range_true. lia.
Qed.

(** [encodeURIComponent] is injective on strings of code units. *)
Lemma encode_inj (s1 : jsstring) :
  forall s2 e,
    code_units s1 -> code_units s2 ->
    encodeURIComponent s1 = Ok e -> encodeURIComponent s2 = Ok e ->
    s1 = s2.
Proof.
  induction s1 as [|C rest IH1 IH2] using string_ind2; intros s2 e V1 V2 E1 E2.
  - injection E1 as <-. symmetry. apply encode_nil, E2.
  - destruct s2 as [|D rest2].
    { injection E2 as <-. apply encode_nil in E1. discriminate. }
    inversion V1 as [|? ? BC V1']; inversion V2 as [|? ? BD V2']; subst.
    apply encode_cons_inv in E1, E2.
    destruct E1 as [[K1 [R1 [ER1 ->]]]
                   | [[K1 [L1 [R1 [ER1 ->]]]]
                     | [K1 [L1 [C2 [r1 [R1 [-> [T1 [ER1 ->]]]]]]]]]];
      destruct E2 as [[K2 [R2 [ER2 He]]]
                     | [[K2 [L2 [R2 [ER2 He]]]]
                       | [K2 [L2 [D2 [r2 [R2 [-> [T2 [ER2 He]]]]]]]]]].
    + (* kept, kept *)
      injection He as -> ->. f_equal. eapply IH1; eassumption.
    + destruct (chunk_head D R2) as [t Ht]. rewrite Ht in He.
      injection He as -> _. discriminate.
    + destruct (chunk_head (pair_code_point D D2) R2) as [t Ht].
      rewrite Ht in He. injection He as -> _. discriminate.
    + destruct (chunk_head C R1) as [t Ht]. rewrite Ht in He.
      injection He as <- _. discriminate.
    + (* escaped unit, escaped unit *)
      apply utf8_chunk_inj in He as [-> ->]; [|lia..].
      f_equal. eapply IH1; eassumption.
    + apply utf8_chunk_inj in He as [Hcp _];
        [|lia | apply pair_code_point_range; assumption].
      pose proof (pair_code_point_range D D2 L2 T2). lia.
    + destruct (chunk_head (pair_code_point C C2) R1) as [t Ht].
      rewrite Ht in He. injection He as <- _. discriminate.
    + apply utf8_chunk_inj in He as [Hcp _];
        [|apply pair_code_point_range; assumption | lia].
      pose proof (pair_code_point_range C C2 L1 T1). lia.
    + (* pair, pair *)
      apply utf8_chunk_inj in He as [Hcp ->];
        [|apply pair_code_point_range; assumption..].
      apply pair_code_point_inj in Hcp as [-> ->]; try assumption.
      inversion V1'; inversion V2'; subst.
      do 2 f_equal. simpl in IH2. eapply IH2; eassumption.
Qed.

(** X5. Distinct values never canonicalise alike: two strings of code
    units that give the same canonical query string under the same key are
    the same string. *)
Theorem X5_value_recoverable (k v1 v2 s : jsstring) :
  k <> lit "Signature" ->
  code_units v1 -> code_units v2 ->
  AliSMS.specParams [(k, VStr v1)] = Ok s ->
  AliSMS.specParams [(k, VStr v2)] = Ok s ->
  v1 = v2.
Proof.
  intros Hk V1 V2. rewrite !(specParams_single _ _ Hk).
  unfold encoded_value. cbn [ToString bind].
  destruct (encodeURIComponent v1) as [e1|] eqn:E1; cbn [bind];
    [|discriminate].
  destruct (encodeURIComponent v2) as [e2|] eqn:E2; cbn [bind];
    [|discriminate].
  intros [= <-] [= H]. apply app_inv_head in H. injection H as ->.
  eapply encode_inj; eassumption.
Qed.

Lemma X5_value_recoverable_witness :
  lit "2016-02-23T12:46:24Z" = [50; 48; 49; 54; 45; 48; 50; 45; 50; 51; 84;
                                49; 50; 58; 52; 54; 58; 50; 52; 90]%N.
Proof.
  apply (X5_value_recoverable (lit "Timestamp") (lit "2016-02-23T12:46:24Z")
           [50; 48; 49; 54; 45; 48; 50; 45; 50; 51; 84;
            49; 50; 58; 52; 54; 58; 50; 52; 90]%N
           (lit "Timestamp=2016-02-23T12%3A46%3A24Z")).
  - discriminate.
  - repeat constructor.
  - repeat constructor.
  - reflexivity.
  - reflexivity.
Defined.

Lemma split_at_sep (sep : code_unit) (x y A B : jsstring) :
  ~ In sep x -> ~ In sep y ->
  x ++ sep :: A = y ++ sep :: B -> x = y /\ A = B.
Proof.
  revert y; induction x as [|c x IH]; intros [|d y] Hx Hy; simpl.
  - intros [= ->]. auto.
  - intros [= <- _]. exfalso. apply Hy. left. reflexivity.
  - intros [= -> _]. exfalso. apply Hx. left. reflexivity.
  - intros [= -> H]. destruct (IH y) as [-> ->]; auto.
    + intros F. apply Hx. right. exact F.
    + intros F. apply Hy. right. exact F.
Qed.

Lemma sep_inside (sep : code_unit) (x y B : jsstring) :
  ~ In sep x -> x <> y ++ sep :: B.
Proof.
  intros Hx ->. apply Hx. apply in_or_app. right. left. reflexivity.
Qed.

Lemma join_with_inj (sep : code_unit) (l1 l2 : list jsstring) :
  Forall (fun x => ~ In sep x /\ x <> []) l1 ->
  Forall (fun x => ~ In sep x /\ x <> []) l2 ->
  join_with sep l1 = join_with sep l2 -> l1 = l2.
Proof.
  intros H1; revert l2; induction H1 as [|x r1 [Hx Hxn] Hr1 IH];
    intros l2 H2 Hj.
  - destruct l2 as [|y r2]; [reflexivity|].
    inversion H2 as [|? ? [_ Hyn] _]; subst.
    exfalso. symmetry in Hj. revert Hj. apply join_with_nonempty, Hyn.
  - destruct H2 as [|y r2 [Hy Hyn] Hr2].
    + exfalso. revert Hj. apply join_with_nonempty, Hxn.
    + destruct r1 as [|x' r1'], r2 as [|y' r2'].
      * simpl in Hj. congruence.
      * exfalso. revert Hj. apply sep_inside, Hx.
      * exfalso. symmetry in Hj. revert Hj. apply sep_inside, Hy.
      * change (x ++ sep :: join_with sep (x' :: r1')
                = y ++ sep :: join_with sep (y' :: r2')) in Hj.
        apply split_at_sep in Hj as [-> Hj]; [|assumption..].
        f_equal. apply IH; assumption.
Qed.

Lemma encode_no_amp (s e : jsstring) :
  encodeURIComponent s = Ok e -> ~ In 38 e.
Proof.
  intros H Hin. apply encode_alphabet in H.
  unfold escaped_outside in H. rewrite Forall_forall in H.
  destruct (H _ Hin) as [F|F]; discriminate.
Qed.

(** The pairs of a canonical string over keys without ["&"] hold no ["&"]
    and are not empty. *)
Lemma pairs_separable (params : object) (pairs : list jsstring) :
  (forall k, In k (Object_keys params) -> ~ In 38 k /\ ~ In 61 k) ->
  Forall2 (fun k p => exists e,
             encoded_value (get params k) = Ok e /\
             p = k ++ 61 :: e)
          (signed_keys params) pairs ->
  Forall (fun x => ~ In 38 x /\ x <> []) pairs.
Proof.
  intros Hkeys HF. eapply Forall2_Forall_r; [exact HF|].
  intros k p Hin [e [He ->]].
  apply signed_keys_In in Hin as [Hk _]. apply get_own_keys in Hk.
  destruct (Hkeys k Hk) as [Hamp _]. split.
  - apply encoded_value_Ok in He as [str [_ He]].
    intros F. apply in_app_or in F as [F|[F|F]];
      [exact (Hamp F) | discriminate | exact (encode_no_amp _ _ He F)].
  - destruct k; discriminate.
Qed.

Lemma same_pairs_same_entries (p1 p2 : object) (ks1 ks2 pairs : list jsstring) :
  (forall k, In k ks1 -> ~ In 61 k) ->
  (forall k, In k ks2 -> ~ In 61 k) ->
  Forall2 (fun k p => exists e,
             encoded_value (get p1 k) = Ok e /\
             p = k ++ 61 :: e) ks1 pairs ->
  Forall2 (fun k p => exists e,
             encoded_value (get p2 k) = Ok e /\
             p = k ++ 61 :: e) ks2 pairs ->
  ks1 = ks2 /\
  forall k, In k ks1 ->
    encoded_value (get p1 k)
    = encoded_value (get p2 k).
Proof.
  intros H1 H2 F1. revert ks2 H2.
  induction F1 as [|k1 p ks1 pairs [e1 [E1 ->]] F1 IH]; intros ks2 H2 F2.
  - inversion F2. split; [reflexivity | contradiction].
  - inversion F2 as [|k2 p' ks2' pairs' [e2 [E2 Hp]] F2']; subst.
    apply split_at_sep in Hp as [<- <-];
      [|apply H1; left; reflexivity | apply H2; left; reflexivity].
    destruct (IH (fun k Hk => H1 k (or_intror Hk)) ks2'
                 (fun k Hk => H2 k (or_intror Hk)) F2') as [<- Hv].
    split; [reflexivity|].
    intros k [<-|Hin]; [congruence | apply Hv, Hin].
Qed.

(** X6. When no key holds ["&"] or ["="], the canonical query string
    tells the signed properties apart: two objects with the same canonical
    string have the same signed keys, and under each of them values that
    print alike.  (The keys are copied unescaped, so without the condition
    two different objects can collide.) *)
Theorem X6_canonical_string_unambiguous (p1 p2 : object) (s : jsstring) :
  (forall k, In k (Object_keys p1) -> ~ In 38 k /\ ~ In 61 k) ->
  (forall k, In k (Object_keys p2) -> ~ In 38 k /\ ~ In 61 k) ->
  (forall k v str,
     get_own p1 k = Some v -> ToString v = Ok str -> code_units str) ->
  (forall k v str,
     get_own p2 k = Some v -> ToString v = Ok str -> code_units str) ->
  AliSMS.specParams p1 = Ok s ->
  AliSMS.specParams p2 = Ok s ->
  signed_keys p1 = signed_keys p2 /\
  forall k, In k (signed_keys p1) ->
    ToString (get p1 k) = ToString (get p2 k).
Proof.
  intros K1 K2 V1 V2 S1 S2.
  apply specParams_pairs_shape in S1 as [pairs1 [-> F1]].
  apply specParams_pairs_shape in S2 as [pairs2 [Hj F2]].
  apply join_with_inj in Hj;
    [| exact (pairs_separable p1 _ K1 F1) | exact (pairs_separable p2 _ K2 F2)].
  subst pairs2.
  assert (N1 : forall k, In k (signed_keys p1) -> ~ In 61 k).
  { intros k Hin. apply signed_keys_In in Hin as [Hk _].
    apply get_own_keys in Hk. apply K1, Hk. }
  assert (N2 : forall k, In k (signed_keys p2) -> ~ In 61 k).
  { intros k Hin. apply signed_keys_In in Hin as [Hk _].
    apply get_own_keys in Hk. apply K2, Hk. }
  destruct (same_pairs_same_entries _ _ _ _ _ N1 N2 F1 F2) as [Hks Hv].
  split; [exact Hks|]. intros k Hin.
  pose proof (Hv k Hin) as He.
  destruct (Forall2_In_l _ _ _ _ F1 Hin) as [p [_ [e [E1 _]]]].
  rewrite E1 in He. symmetry in He.
  assert (Hin2 : In k (signed_keys p2)) by (rewrite <- Hks; exact Hin).
  apply signed_keys_In in Hin as [[v1 G1] _].
  apply signed_keys_In in Hin2 as [[v2 G2] _].
  unfold get in *. rewrite G1 in *. rewrite G2 in *.
  apply encoded_value_Ok in E1 as [s1 [T1 E1]].
  apply encoded_value_Ok in He as [s2 [T2 E2]].
  rewrite T1, T2. f_equal.
  eapply encode_inj;
    [eapply V1; eassumption | eapply V2; eassumption | exact E1 | exact E2].
Qed.

Lemma X6_canonical_string_unambiguous_witness :
  ToString (get [(lit "b", VStr (lit "1")); (lit "a", VNum 2)] (lit "a"))
  = ToString (get [(lit "a", VStr (lit "2")); (lit "b", VNum 1)] (lit "a")).
Proof.
  refine (proj2 (X6_canonical_string_unambiguous
                   [(lit "b", VStr (lit "1")); (lit "a", VNum 2)]
                   [(lit "a", VStr (lit "2")); (lit "b", VNum 1)]
                   (lit "a=2&b=1") _ _ _ _ _ _) (lit "a") _).
  - intros k [<-|[<-|[]]]; split; simpl; intuition discriminate.
  - intros k [<-|[<-|[]]]; split; simpl; intuition discriminate.
  - intros k v str H Hs. apply get_own_In in H.
    destruct H as [[= <- <-]|[[= <- <-]|[]]]; injection Hs as <-;
      repeat constructor.
  - intros k v str H Hs. apply get_own_In in H.
    destruct H as [[= <- <-]|[[= <- <-]|[]]]; injection Hs as <-;
      repeat constructor.
  - reflexivity.
  - reflexivity.
  - left. reflexivity.
Defined.

(** Without the condition on the keys: a key that holds ["="] and ["&"]
    gives the canonical string of a two-property object. *)
Example unescaped_key_collision :
  AliSMS.specParams [(lit "a=1&b", VStr (lit "2"))]
  = AliSMS.specParams [(lit "a", VStr (lit "1")); (lit "b", VStr (lit "2"))].
Proof. reflexivity. Qed.

End Injective.

(* ===================================================================== *)
(** ** The signature and the request URL *)
(* ===================================================================== *)

Section Request.
Local Open Scope N_scope.

Lemma base64_char_alphabet (i : N) : base64_alphabet (Base64.base64_char i) = true.
Proof.
  unfold Base64.base64_char, base64_alphabet.
  destruct (N.ltb_spec i 26).
  { assert (in_range 65 90 (65 + i) = true) as ->
      by (apply in_range_true; lia). reflexivity. }
  destruct (N.ltb_spec i 52).
  { assert (in_range 97 122 (97 + (i - 26)) = true) as ->
      by (apply in_range_true; lia). rewrite !orb_true_r. reflexivity. }
  destruct (N.ltb_spec i 62).
  { assert (in_range 48 57 (48 + (i - 52)) = true) as ->
      by (apply in_range_true; lia). rewrite !orb_true_r. reflexivity. }
  destruct (i =? 62); reflexivity.
Qed.

Lemma base64_encode_alphabet (l : list N) :
  Forall (fun c => base64_alphabet c = true) (Base64.encode l).
Proof.
  enough (H : forall n l, (length l <= n)%nat ->
              Forall (fun c => base64_alphabet c = true) (Base64.encode l))
    by (apply (H (length l)); apply Nat.le_refl).
  clear l. induction n as [|n IH]; intros l Hl.
  - destruct l; [constructor | simpl in Hl; lia].
  - destruct l as [|a [|b [|c r]]]; simpl.
    + constructor.
    + repeat (constructor; [apply base64_char_alphabet || reflexivity|]).
      constructor.
    + repeat (constructor; [apply base64_char_alphabet || reflexivity|]).
      constructor.
    + repeat (constructor; [apply base64_char_alphabet|]).
      apply IH. simpl in Hl. lia.
Qed.

Lemma base64_alphabet_ascii (c : code_unit) :
  base64_alphabet c = true -> c < 128.
Proof.
  unfold base64_alphabet. intros H.
  repeat (apply orb_true_iff in H as [H|H]);
    try (apply in_range_true in H); try (apply N.eqb_eq in H); lia.
Qed.

Lemma ascii_well_formed (s : jsstring) :
  ascii_only s -> well_formed s = true.
Proof.
  induction 1 as [|c s Hc Hs IH]; [reflexivity|]. simpl.
  assert (is_lead_surrogate c = false) as -> by (apply in_range_false; lia).
  assert (is_trail_surrogate c = false) as -> by (apply in_range_false; lia).
  exact IH.
Qed.

Lemma escaped_ascii (e : jsstring) :
  escaped_outside uriUnescaped e -> ascii_only e.
Proof.
  intros H. eapply Forall_impl; [|exact H].
  intros c [Hc | ->]; [apply uriUnescaped_ascii in Hc|]; lia.
Qed.

Lemma sha1_length (msg : list N) : length (Hash.sha1 msg) = 20%nat.
Proof.
  unfold Hash.sha1. cbv zeta.
  generalize (Hash.process_blocks
                (length (Hash.words_of_bytes (Hash.pad msg)))
                (Hash.words_of_bytes (Hash.pad msg)) Hash.H0).
  intros h. reflexivity.
Qed.

Lemma base64_of_twenty (l : list N) :
  length l = 20%nat ->
  length (Base64.encode l) = 28%nat /\ last (Base64.encode l) 0 = 61.
Proof.
  intros H.
  do 20 (destruct l as [|? l]; [discriminate|]).
  destruct l; [|discriminate]. split; reflexivity.
Qed.

Lemma signature_encodable (sign secret : jsstring) :
  exists e,
    encodeURIComponent (AliSMS.hmac sign secret) = Ok e /\ ascii_only e.
Proof.
  unfold AliSMS.hmac. cbv zeta.
  match goal with
  | |- exists e, encodeURIComponent ?b = _ /\ _ =>
      destruct (encode_total b) as [e He]
  end.
  - apply ascii_well_formed. eapply Forall_impl;
      [|apply base64_encode_alphabet].
    intros c. apply base64_alphabet_ascii.
  - exists e. split; [exact He|]. eapply escaped_ascii, encode_alphabet, He.
Qed.

Lemma hmac_length (key msg : jsstring) :
  length (Hash.hmac key msg) = 20%nat.
Proof.
  unfold Hash.hmac, Hash.hmac_sha1. cbv zeta. apply sha1_length.
Qed.

(** X7. The signature that [hmac] returns is always 28 characters of the
    base64 alphabet, the last one the padding ["="], and its
    percent-encoding for the URL never throws. *)
Theorem X7_signature_shape (sign secret : jsstring) :
  length (AliSMS.hmac sign secret) = 28%nat /\
  Forall (fun c => base64_alphabet c = true) (AliSMS.hmac sign secret) /\
  last (AliSMS.hmac sign secret) 0 = 61 /\
  exists e,
    encodeURIComponent (AliSMS.hmac sign secret) = Ok e /\ ascii_only e.
Proof.
  destruct (base64_of_twenty (Hash.hmac (secret ++ lit "&") sign)
              (hmac_length _ _)) as [Hlen Hlast].
  split; [exact Hlen|].
  split; [apply base64_encode_alphabet|].
  split; [exact Hlast|].
  apply (signature_encodable sign secret).
Qed.

Lemma specParams_ascii (params : object) (p : jsstring) :
  (forall k, In k (Object_keys params) -> ascii_only k) ->
  AliSMS.specParams params = Ok p -> ascii_only p.
Proof.
  intros Hkeys Hp.
  pose proof (specParams_alphabet (fun c => c < 128) params p Hkeys Hp) as H.
  eapply Forall_impl; [|exact H].
  intros c [Hc | [Hc | [-> | [-> | ->] ] ] ]; try lia.
  apply uriUnescaped_ascii in Hc. lia.
Qed.

Lemma request_url_cases (this : AliSMS.t) (method : AliSMS.http_method)
  (params : object) :
  (forall k, In k (Object_keys params) -> ascii_only k) ->
  match AliSMS.specParams params with
  | Ok paramsStr =>
      exists sig,
        AliSMS.request_url this method params =
        Ok (AliSMS.endPoint ++ lit "/?" ++ paramsStr ++ lit "&Signature="
            ++ sig) /\
        ascii_only (AliSMS.endPoint ++ lit "/?" ++ paramsStr
                    ++ lit "&Signature=" ++ sig)
  | Throw err =>
      AliSMS.request_url this method params = Throw err /\
      (err = URIError \/ err = TypeError) /\
      ((forall k v, get_own params k = Some v -> exists s, ToString v = Ok s) ->
       err = URIError)
  end.
Proof.
  intros Hkeys. unfold AliSMS.request_url.
  pose proof (specParams_cases params) as Hc.
  destruct (AliSMS.specParams params) as [p|err] eqn:Hp; cbn [bind].
  - pose proof (specParams_ascii params p Hkeys Hp) as Hascii.
    unfold AliSMS.stringToSign.
    destruct (encode_total p (ascii_well_formed p Hascii)) as [e ->].
    cbn [bind].
    destruct (signature_encodable
                (AliSMS.method_name method ++ lit "&%2F&" ++ e)
                (AliSMS.accessKeySecret this)) as [sig [-> Hsig]].
    cbn [bind]. exists sig. split; [reflexivity|].
    unfold ascii_only. rewrite !Forall_app.
    split; [repeat constructor|]. split; [repeat constructor|].
    split; [exact Hascii|]. split; [repeat constructor | exact Hsig].
  - split; [reflexivity|].
    destruct Hc as [k [v [Hk [_ [[-> Hbad] | [-> _]]]]]]; [|auto].
    split; [auto|]. intros Hprint.
    destruct (Hprint k v Hk) as [s Hs]. congruence.
Qed.



End Request.

(* ===================================================================== *)
(** ** How the two methods settle *)
(* ===================================================================== *)

Section Settle.
Local Open Scope N_scope.

Lemma sendSMS_keys_ascii (this : AliSMS.t) (e : AliSMS.env)
  (phoneNumbers : list jsstring) (signName tplCode : jsstring)
  (tplParam : option jsstring) (k : jsstring) :
  In k (Object_keys (AliSMS.sendSMS_params this e phoneNumbers signName
                       tplCode tplParam)) ->
  ascii_only k.
Proof.
  unfold AliSMS.sendSMS_params.
  destruct tplParam as [[|c t]|]; simpl; intros H;
    repeat (destruct H as [<-|H]; [repeat constructor|]); contradiction.
Qed.

Lemma querySendDetails_keys_ascii (this : AliSMS.t) (e : AliSMS.env)
  (phoneNumber sendDate : jsstring) (pageSize currentPage : Z)
  (bizID : option jsstring) (k : jsstring) :
  In k (Object_keys (AliSMS.querySendDetails_params this e phoneNumber
                       sendDate pageSize currentPage bizID)) ->
  ascii_only k.
Proof.
  unfold AliSMS.querySendDetails_params.
  destruct bizID as [[|c t]|]; simpl; intros H;
    repeat (destruct H as [<-|H]; [repeat constructor|]); contradiction.
Qed.

Lemma sendSMS_specParams_total (this : AliSMS.t) (e : AliSMS.env)
  (phoneNumbers : list jsstring) (signName tplCode : jsstring)
  (tplParam : option jsstring) :
  sendSMS_well_formed this e phoneNumbers signName tplCode tplParam ->
  exists p,
    AliSMS.specParams
      (AliSMS.sendSMS_params this e phoneNumbers signName tplCode tplParam)
    = Ok p.
Proof.
  intros [Hid [Hnow [Hph [Hsign [Htpl Hparam]]]]].
  pose proof (specParams_cases
                (AliSMS.sendSMS_params this e phoneNumbers signName tplCode
                   tplParam)) as H.
  destruct (AliSMS.specParams _) as [s|err]; [eauto|].
  destruct H as [k [v [Hk [_ Hbad]]]].
  destruct (sendSMS_params_well_formed _ _ _ _ _ _ _ _ Hid Hnow Hph
              Hsign Htpl Hparam Hk) as [s [Hs Hwf]].
  destruct Hbad as [[_ F] | [_ [s' [F Hwf']]]]; congruence.
Qed.

(** The values of both parameter objects are strings, numbers and arrays
    of strings: each has a string form. *)
Lemma sendSMS_params_print (this : AliSMS.t) (e : AliSMS.env)
  (phoneNumbers : list jsstring) (signName tplCode : jsstring)
  (tplParam : option jsstring) (k : jsstring) (v : value) :
  get_own (AliSMS.sendSMS_params this e phoneNumbers signName tplCode
             tplParam) k = Some v ->
  exists s, ToString v = Ok s.
Proof.
  intros Hget.
  apply get_own_In in Hget. unfold AliSMS.sendSMS_params in Hget.
  destruct tplParam as [[|c t]|]; simpl in Hget;
    repeat match goal with
           | H : _ \/ _ |- _ => destruct H as [H|H]
           end;
    try contradiction;
    injection Hget as <- <-;
    try rewrite ToString_strings; eexists; reflexivity.
Qed.

Lemma querySendDetails_params_print (this : AliSMS.t) (e : AliSMS.env)
  (phoneNumber sendDate : jsstring) (pageSize currentPage : Z)
  (bizID : option jsstring) (k : jsstring) (v : value) :
  get_own (AliSMS.querySendDetails_params this e phoneNumber sendDate
             pageSize currentPage bizID) k = Some v ->
  exists s, ToString v = Ok s.
Proof.
  intros Hget.
  apply get_own_In in Hget. unfold AliSMS.querySendDetails_params in Hget.
  destruct bizID as [[|c t]|]; simpl in Hget;
    repeat match goal with
           | H : _ \/ _ |- _ => destruct H as [H|H]
           end;
    try contradiction;
    injection Hget as <- <-; eexists; reflexivity.
Qed.

Lemma querySendDetails_params_well_formed (this : AliSMS.t) (e : AliSMS.env)
  (phoneNumber sendDate : jsstring) (pageSize currentPage : Z)
  (bizID : option jsstring) (k : jsstring) (v : value) :
  querySendDetails_well_formed this e phoneNumber sendDate bizID ->
  get_own (AliSMS.querySendDetails_params this e phoneNumber sendDate
             pageSize currentPage bizID) k = Some v ->
  exists s, ToString v = Ok s /\ well_formed s = true.
Proof.
  intros [Hid [Hnow [Hph [Hdate Hbiz]]]] Hget.
  apply get_own_In in Hget. unfold AliSMS.querySendDetails_params in Hget.
  pose proof (NumberToString_well_formed (AliSMS.getNonce e)) as Hnonce.
  pose proof (NumberToString_well_formed pageSize) as Hsize.
  pose proof (NumberToString_well_formed currentPage) as Hpage.
  destruct bizID as [[|c t]|]; simpl in Hget;
    repeat match goal with
           | H : _ \/ _ |- _ => destruct H as [H|H]
           end;
    try contradiction;
    injection Hget as <- <-;
    (eexists; split; [reflexivity|]); try assumption; try reflexivity.
  apply (Hbiz (c :: t) eq_refl).
Qed.

Lemma querySendDetails_specParams_total (this : AliSMS.t) (e : AliSMS.env)
  (phoneNumber sendDate : jsstring) (pageSize currentPage : Z)
  (bizID : option jsstring) :
  querySendDetails_well_formed this e phoneNumber sendDate bizID ->
  exists p,
    AliSMS.specParams
      (AliSMS.querySendDetails_params this e phoneNumber sendDate pageSize
         currentPage bizID)
    = Ok p.
Proof.
  intros Hwf.
  pose proof (specParams_cases
                (AliSMS.querySendDetails_params this e phoneNumber sendDate
                   pageSize currentPage bizID)) as H.
  destruct (AliSMS.specParams _) as [s|err]; [eauto|].
  destruct H as [k [v [Hk [_ Hbad]]]].
  destruct (querySendDetails_params_well_formed _ _ _ _ _ _ _ _ _ Hwf Hk)
    as [s [Hs Hgood]].
  destruct Hbad as [[_ F] | [_ [s' [F Hwf']]]]; congruence.
Qed.

(** The request part of either method: a URIError for an ill-formed
    argument, else a URL. *)
Lemma request_url_throws (this : AliSMS.t) (params : object) (err : error)
  (wf : Prop) :
  (forall k, In k (Object_keys params) -> ascii_only k) ->
  (forall k v, get_own params k = Some v -> exists s, ToString v = Ok s) ->
  (wf -> exists p, AliSMS.specParams params = Ok p) ->
  AliSMS.request_url this AliSMS.GET params = Throw err ->
  err = URIError /\ ~ wf.
Proof.
  intros Hkeys Hprint Htotal Hthrow.
  pose proof (request_url_cases this AliSMS.GET params Hkeys) as H.
  destruct (AliSMS.specParams params) as [p|err'] eqn:Hp.
  - destruct H as [sig [H _]]. congruence.
  - destruct H as [H [_ Huri]]. split; [rewrite <- (Huri Hprint); congruence|].
    intros Hwf. destruct (Htotal Hwf) as [p Hp']. discriminate.
Qed.

Lemma sendSMS_response_cases (result : value) :
  match result with
  | VUndefined | VNull =>
      AliSMS.sendSMS_response result = ([], Throw TypeError)
  | _ =>
      exists c m r b,
        get_prop result (lit "Code") = Ok c /\
        get_prop result (lit "Message") = Ok m /\
        get_prop result (lit "RequestId") = Ok r /\
        get_prop result (lit "BizId") = Ok b /\
        AliSMS.sendSMS_response result =
        if strict_neq_str c (lit "OK")
        then ([AliSMS.SendError result], Ok (RespSendSMS.mk c m r None))
        else ([], Ok (RespSendSMS.mk c m r (Some b)))
  end.
Proof.
  destruct result; try reflexivity; unfold AliSMS.sendSMS_response;
    cbn [get_prop bind];
    do 4 eexists; repeat (split; [reflexivity|]);
    destruct (strict_neq_str _ _); reflexivity.
Qed.

(** X9. The ways [sendSMS] rejects: with URIError, before anything is
    sent, when an argument is not well-formed UTF-16; with the error of the
    transport; or with TypeError when the body is [null].  No console line
    is written in any of them. *)
Theorem X9_sendSMS_rejections (this : AliSMS.t) (e : AliSMS.env)
  (phoneNumbers : list jsstring) (signName tplCode : jsstring)
  (tplParam : option jsstring) (log : list AliSMS.diagnostic) (err : error) :
  AliSMS.sendSMS this e phoneNumbers signName tplCode tplParam
  = (log, Throw err) ->
  log = [] /\
  ((err = URIError /\
    ~ sendSMS_well_formed this e phoneNumbers signName tplCode tplParam /\
    AliSMS.request_url this AliSMS.GET
      (AliSMS.sendSMS_params this e phoneNumbers signName tplCode tplParam)
    = Throw URIError) \/
   (exists url,
      AliSMS.request_url this AliSMS.GET
        (AliSMS.sendSMS_params this e phoneNumbers signName tplCode tplParam)
      = Ok url /\
      AliSMS.fetch_json e url = Throw err) \/
   (err = TypeError /\
    exists result,
      fetched this e
        (AliSMS.sendSMS_params this e phoneNumbers signName tplCode tplParam)
      = Ok result /\
      nullish result = true)).
Proof.
  unfold AliSMS.sendSMS, fetched. cbv zeta.
  destruct (AliSMS.request_url _ _ _) as [url|err0] eqn:Hurl.
  - cbn [bind]. destruct (AliSMS.fetch_json e url) as [result|err1] eqn:Hf.
    + pose proof (sendSMS_response_cases result) as H.
      destruct (nullish result) eqn:Hn.
      * destruct result; try discriminate Hn; cbv beta iota in H;
          rewrite H; intros [= <- <-]; (split; [reflexivity|]);
          right; right; (split; [reflexivity|]);
          eexists; split; reflexivity.
      * destruct result; try discriminate Hn; cbv beta iota in H;
          destruct H as [? [? [? [? [_ [_ [_ [_ ->]]]]]]]];
          destruct (strict_neq_str _ _); discriminate.
    + intros [= <- <-]. split; [reflexivity|]. right. left. eauto.
  - intros [= <- <-]. split; [reflexivity|]. left.
    destruct (request_url_throws this _ err0
                (sendSMS_well_formed this e phoneNumbers signName tplCode
                   tplParam)
                (sendSMS_keys_ascii this e phoneNumbers signName tplCode
                   tplParam)
                (sendSMS_params_print this e phoneNumbers signName tplCode
                   tplParam)
                (sendSMS_specParams_total this e phoneNumbers signName
                   tplCode tplParam) Hurl) as [-> Hnot].
    auto.
Qed.

Lemma X9_sendSMS_rejections_witness :
  AliSMS.sendSMS Samples.client offline [lit "13800000000"] (lit "sign")
    (lit "SMS_1") None = ([], Throw TransportFailure) /\
  @nil AliSMS.diagnostic = [].
Proof.
  assert (H : AliSMS.sendSMS Samples.client offline [lit "13800000000"]
                (lit "sign") (lit "SMS_1") None
              = ([], Throw TransportFailure))
    by (vm_compute; reflexivity).
  split; [exact H|].
  exact (proj1 (X9_sendSMS_rejections Samples.client offline
                  [lit "13800000000"] (lit "sign") (lit "SMS_1") None
                  [] TransportFailure H)).
Defined.

Lemma settled_inv {A : Type} (this : AliSMS.t) (e : AliSMS.env)
  (params : object) (respond : value -> AliSMS.settled A)
  (log : list AliSMS.diagnostic) (r : A) :
  match AliSMS.request_url this AliSMS.GET params with
  | Throw err => ([], Throw err)
  | Ok url =>
      match AliSMS.fetch_json e url with
      | Throw err => ([], Throw err)
      | Ok result => respond result
      end
  end = (log, Ok r) ->
  exists result, fetched this e params = Ok result /\
                 respond result = (log, Ok r).
Proof.
  unfold fetched.
  destruct (AliSMS.request_url _ _ _) as [url|]; [|discriminate].
  cbn [bind]. destruct (AliSMS.fetch_json e url) as [result|];
    [|discriminate].
  eauto.
Qed.

(** X10. When [sendSMS] resolves, the result carries the [Code],
    [Message] and [RequestId] of the body, and exactly one of two things
    holds: the code is the string ["OK"], nothing was written to the
    console and [bizID] is set from [BizId]; or the code is anything else,
    one console line was written and the result has no [bizID]. *)
Theorem X10_sendSMS_resolutions (this : AliSMS.t) (e : AliSMS.env)
  (phoneNumbers : list jsstring) (signName tplCode : jsstring)
  (tplParam : option jsstring) (log : list AliSMS.diagnostic)
  (r : RespSendSMS.t) :
  AliSMS.sendSMS this e phoneNumbers signName tplCode tplParam
  = (log, Ok r) ->
  exists result,
    fetched this e
      (AliSMS.sendSMS_params this e phoneNumbers signName tplCode tplParam)
    = Ok result /\
    get_prop result (lit "Code") = Ok (RespSendSMS.code r) /\
    get_prop result (lit "Message") = Ok (RespSendSMS.message r) /\
    get_prop result (lit "RequestId") = Ok (RespSendSMS.requestID r) /\
    ((RespSendSMS.code r = VStr (lit "OK") /\ log = [] /\
      exists b, RespSendSMS.bizID r = Some b /\
                get_prop result (lit "BizId") = Ok b) \/
     (RespSendSMS.code r <> VStr (lit "OK") /\
      log = [AliSMS.SendError result] /\
      RespSendSMS.bizID r = None)).
Proof.
  intros H. apply settled_inv in H as [result [Hf H]].
  exists result. split; [exact Hf|].
  pose proof (sendSMS_response_cases result) as Hc.
  destruct (nullish result) eqn:Hn.
  - destruct result; try discriminate Hn; cbv beta iota in Hc;
      rewrite Hc in H; discriminate.
  - assert (exists c m q b,
              get_prop result (lit "Code") = Ok c /\
              get_prop result (lit "Message") = Ok m /\
              get_prop result (lit "RequestId") = Ok q /\
              get_prop result (lit "BizId") = Ok b /\
              AliSMS.sendSMS_response result =
              if strict_neq_str c (lit "OK")
              then ([AliSMS.SendError result],
                    Ok (RespSendSMS.mk c m q None))
              else ([], Ok (RespSendSMS.mk c m q (Some b))))
      as [c [m [q [b [Gc [Gm [Gq [Gb Hr]]]]]]]]
      by (destruct result; try discriminate Hn; exact Hc).
    rewrite Hr in H. destruct (strict_neq_str c (lit "OK")) eqn:Hs;
      injection H as <- <-; cbn [RespSendSMS.code RespSendSMS.message
                                 RespSendSMS.requestID RespSendSMS.bizID];
      repeat (split; [assumption|]).
    + right. apply strict_neq_str_true in Hs. auto.
    + left. apply strict_neq_str_false in Hs. eauto.
Qed.

Lemma X10_sendSMS_resolutions_witness :
  exists result,
    fetched Samples.client (Samples.answering Samples.accepted)
      (AliSMS.sendSMS_params Samples.client
         (Samples.answering Samples.accepted) [lit "13800000000"]
         (lit "sign") (lit "SMS_1") None) = Ok result /\
    get_prop result (lit "Code") = Ok (VStr (lit "OK")).
Proof.
  destruct (X10_sendSMS_resolutions Samples.client
              (Samples.answering Samples.accepted) [lit "13800000000"]
              (lit "sign") (lit "SMS_1") None []
              (RespSendSMS.mk (VStr (lit "OK")) (VStr (lit "OK"))
                 (VStr (lit "r1")) (Some (VStr (lit "b1")))))
    as [result [Hf [Hc _]]].
  - vm_compute. reflexivity.
  - exists result. split; [exact Hf | exact Hc].
Defined.

Lemma detail_of_cases (v : value) :
  AliSMS.detail_of v =
  if nullish v then Throw TypeError else Ok (detail_fields v).
Proof. destruct v; reflexivity. Qed.

Lemma map_details (l : list value) :
  AliSMS.map_elements AliSMS.detail_of l =
  if existsb nullish l then Throw TypeError else Ok (map detail_fields l).
Proof.
  induction l as [|v l IH]; [reflexivity|].
  cbn [AliSMS.map_elements existsb map]. rewrite detail_of_cases, IH.
  destruct (nullish v); [reflexivity|].
  destruct (existsb nullish l); reflexivity.
Qed.

Lemma success_branch (result c m q t : value) :
  get_prop result (lit "Code") = Ok c ->
  get_prop result (lit "Message") = Ok m ->
  get_prop result (lit "RequestId") = Ok q ->
  get_prop result (lit "TotalCount") = Ok t ->
  (dtos <- get_prop result (lit "SmsSendDetailDTOs") ;;
   detailsDTO <- get_prop dtos (lit "SmsSendDetailDTO") ;;
   details <- AliSMS.array_map detailsDTO AliSMS.detail_of ;;
   code <- get_prop result (lit "Code") ;;
   message <- get_prop result (lit "Message") ;;
   requestID <- get_prop result (lit "RequestId") ;;
   totalCount <- get_prop result (lit "TotalCount") ;;
   Ok (RespQuerySendDetails.mk code message requestID (Some totalCount)
         (Some (RespQuerySendDetails.mk_details details))))
  = details_outcome result c m q t.
Proof.
  intros Hc Hm Hq Ht. unfold details_outcome, detail_list.
  destruct (get_prop result (lit "SmsSendDetailDTOs")) as [dtos|err] eqn:Hd;
    cbn [bind].
  - destruct (get_prop dtos (lit "SmsSendDetailDTO")) as [dd|err] eqn:Hdd;
      cbn [bind].
    + destruct dd; try reflexivity.
      cbn [AliSMS.array_map]. rewrite map_details.
      destruct (existsb nullish l); cbn [bind]; [reflexivity|].
      rewrite Hc, Hm, Hq, Ht. reflexivity.
    + destruct dtos; try discriminate Hdd; injection Hdd as <-; reflexivity.
  - destruct result; try discriminate Hd; injection Hd as <-; reflexivity.
Qed.

Lemma querySendDetails_response_cases (result : value) :
  match result with
  | VUndefined | VNull =>
      AliSMS.querySendDetails_response result = ([], Throw TypeError)
  | _ =>
      exists c m q t,
        get_prop result (lit "Code") = Ok c /\
        get_prop result (lit "Message") = Ok m /\
        get_prop result (lit "RequestId") = Ok q /\
        get_prop result (lit "TotalCount") = Ok t /\
        AliSMS.querySendDetails_response result =
        if strict_neq_str c (lit "OK")
        then ([AliSMS.QueryError result],
              Ok (RespQuerySendDetails.mk c m q None None))
        else ([], details_outcome result c m q t)
  end.
Proof.
  assert (H : forall c m q t,
             get_prop result (lit "Code") = Ok c ->
             get_prop result (lit "Message") = Ok m ->
             get_prop result (lit "RequestId") = Ok q ->
             get_prop result (lit "TotalCount") = Ok t ->
             AliSMS.querySendDetails_response result =
             if strict_neq_str c (lit "OK")
             then ([AliSMS.QueryError result],
                   Ok (RespQuerySendDetails.mk c m q None None))
             else ([], details_outcome result c m q t)).
  { intros c m q t Hc Hm Hq Ht. unfold AliSMS.querySendDetails_response.
    rewrite (success_branch result c m q t Hc Hm Hq Ht).
    rewrite Hc, Hm, Hq. destruct (strict_neq_str c (lit "OK")); reflexivity. }
  destruct result; try reflexivity;
    do 4 eexists; repeat (split; [reflexivity|]); apply H; reflexivity.
Qed.

(** X11. On a fetched body whose code is ["OK"], [querySendDetails]
    resolves exactly when [SmsSendDetailDTOs.SmsSendDetailDTO] is an array
    without [null] elements (the empty array included): the entries are
    then the records in order, a field that a record lacks being
    [undefined].  In every other case (the list absent, not an array, or
    with a [null] element) it throws TypeError.  No console line is
    written. *)
Theorem X11_query_success_body (this : AliSMS.t) (e : AliSMS.env)
  (phoneNumber sendDate : jsstring) (pageSize currentPage : Z)
  (bizID : option jsstring) (result : value) :
  fetched this e
    (AliSMS.querySendDetails_params this e phoneNumber sendDate pageSize
       currentPage bizID) = Ok result ->
  get_prop result (lit "Code") = Ok (VStr (lit "OK")) ->
  exists m q t,
    get_prop result (lit "Message") = Ok m /\
    get_prop result (lit "RequestId") = Ok q /\
    get_prop result (lit "TotalCount") = Ok t /\
    AliSMS.querySendDetails this e phoneNumber sendDate pageSize currentPage
      bizID =
    ([], match detail_list result with
         | Ok (VArr records) =>
             if existsb nullish records then Throw TypeError
             else Ok (RespQuerySendDetails.mk (VStr (lit "OK")) m q (Some t)
                        (Some (RespQuerySendDetails.mk_details
                                 (map detail_fields records))))
         | _ => Throw TypeError
         end).
Proof.
  intros Hf Hc. rewrite (querySendDetails_fetched _ _ _ _ _ _ _ _ Hf).
  pose proof (querySendDetails_response_cases result) as H.
  destruct (nullish result) eqn:Hn;
    [destruct result; discriminate|].
  assert (exists c m q t,
            get_prop result (lit "Code") = Ok c /\
            get_prop result (lit "Message") = Ok m /\
            get_prop result (lit "RequestId") = Ok q /\
            get_prop result (lit "TotalCount") = Ok t /\
            AliSMS.querySendDetails_response result =
            if strict_neq_str c (lit "OK")
            then ([AliSMS.QueryError result],
                  Ok (RespQuerySendDetails.mk c m q None None))
            else ([], details_outcome result c m q t))
    as [c [m [q [t [Gc [Gm [Gq [Gt Hr]]]]]]]]
    by (destruct result; try discriminate Hn; exact H).
  rewrite Hc in Gc. injection Gc as <-.
  exists m, q, t. repeat (split; [assumption|]).
  rewrite Hr. reflexivity.
Qed.

Lemma X11_query_success_body_witness :
  AliSMS.querySendDetails Samples.client
    (Samples.answering Samples.with_details)
    (lit "13800000000") (lit "20220812") 1%Z 1%Z None =
  ([], Ok (RespQuerySendDetails.mk (VStr (lit "OK")) (VStr (lit "OK"))
             (VStr (lit "r4")) (Some (VNum 1))
             (Some (RespQuerySendDetails.mk_details
                      [detail_fields Samples.record])))).
Proof.
  destruct (X11_query_success_body Samples.client
              (Samples.answering Samples.with_details)
              (lit "13800000000") (lit "20220812") 1%Z 1%Z None
              Samples.with_details)
    as [m [q [t [Hm [Hq [Ht H]]]]]].
  - vm_compute. reflexivity.
  - reflexivity.
  - injection Hm as <-. injection Hq as <-. injection Ht as <-. exact H.
Defined.

Lemma query_cases_non_nullish (result : value) :
  nullish result = false ->
  exists c m q t,
    get_prop result (lit "Code") = Ok c /\
    get_prop result (lit "Message") = Ok m /\
    get_prop result (lit "RequestId") = Ok q /\
    get_prop result (lit "TotalCount") = Ok t /\
    AliSMS.querySendDetails_response result =
    if strict_neq_str c (lit "OK")
    then ([AliSMS.QueryError result],
          Ok (RespQuerySendDetails.mk c m q None None))
    else ([], details_outcome result c m q t).
Proof.
  intros Hn. pose proof (querySendDetails_response_cases result) as H.
  destruct result; try discriminate Hn; exact H.
Qed.

Lemma query_cases_nullish (result : value) :
  nullish result = true ->
  AliSMS.querySendDetails_response result = ([], Throw TypeError).
Proof. destruct result; try discriminate; reflexivity. Qed.

Lemma details_outcome_Ok (result c m q t : value)
  (r : RespQuerySendDetails.t) :
  details_outcome result c m q t = Ok r ->
  exists records,
    detail_list result = Ok (VArr records) /\
    existsb nullish records = false /\
    r = RespQuerySendDetails.mk c m q (Some t)
          (Some (RespQuerySendDetails.mk_details
                   (map detail_fields records))).
Proof.
  unfold details_outcome.
  destruct (detail_list result) as [dd|]; [|discriminate].
  destruct dd; try discriminate.
  destruct (existsb nullish l) eqn:E; [discriminate|].
  intros [= <-]. eauto.
Qed.

Lemma details_outcome_Throw (result c m q t : value) (err : error) :
  details_outcome result c m q t = Throw err ->
  err = TypeError /\
  forall records, detail_list result = Ok (VArr records) ->
                  existsb nullish records = true.
Proof.
  unfold details_outcome.
  destruct (detail_list result) as [dd|];
    [|intros [= <-]; split; [reflexivity|discriminate]].
  destruct dd; try (intros [= <-]; split; [reflexivity|discriminate]).
  destruct (existsb nullish l) eqn:E; [|discriminate].
  intros [= <-]. split; [reflexivity|]. intros records [= <-]. exact E.
Qed.

(** X12. When [querySendDetails] resolves, the result carries the [Code],
    [Message] and [RequestId] of the body, and exactly one of two things
    holds: the code is ["OK"], nothing was written to the console, and
    [totalCount] and the detail sequence are both set (the sequence being
    the records of the nested array, in order); or the code is anything
    else, one console line was written, and both are absent. *)
Theorem X12_query_resolutions (this : AliSMS.t) (e : AliSMS.env)
  (phoneNumber sendDate : jsstring) (pageSize currentPage : Z)
  (bizID : option jsstring) (log : list AliSMS.diagnostic)
  (r : RespQuerySendDetails.t) :
  AliSMS.querySendDetails this e phoneNumber sendDate pageSize currentPage
    bizID = (log, Ok r) ->
  exists result,
    fetched this e
      (AliSMS.querySendDetails_params this e phoneNumber sendDate pageSize
         currentPage bizID) = Ok result /\
    get_prop result (lit "Code") = Ok (RespQuerySendDetails.code r) /\
    get_prop result (lit "Message") = Ok (RespQuerySendDetails.message r) /\
    get_prop result (lit "RequestId")
    = Ok (RespQuerySendDetails.requestID r) /\
    ((RespQuerySendDetails.code r = VStr (lit "OK") /\ log = [] /\
      exists t records,
        get_prop result (lit "TotalCount") = Ok t /\
        RespQuerySendDetails.totalCount r = Some t /\
        detail_list result = Ok (VArr records) /\
        existsb nullish records = false /\
        RespQuerySendDetails.smsSendDetailDTOs r =
        Some (RespQuerySendDetails.mk_details (map detail_fields records)))
     \/
     (RespQuerySendDetails.code r <> VStr (lit "OK") /\
      log = [AliSMS.QueryError result] /\
      RespQuerySendDetails.totalCount r = None /\
      RespQuerySendDetails.smsSendDetailDTOs r = None)).
Proof.
  intros H. apply settled_inv in H as [result [Hf H]].
  exists result. split; [exact Hf|].
  destruct (nullish result) eqn:Hn;
    [rewrite (query_cases_nullish result Hn) in H; discriminate|].
  destruct (query_cases_non_nullish result Hn)
    as [c [m [q [t [Gc [Gm [Gq [Gt Hr]]]]]]]].
  rewrite Hr in H. destruct (strict_neq_str c (lit "OK")) eqn:Hs.
  - injection H as <- <-.
    cbn [RespQuerySendDetails.code RespQuerySendDetails.message
         RespQuerySendDetails.requestID RespQuerySendDetails.totalCount
         RespQuerySendDetails.smsSendDetailDTOs].
    repeat (split; [assumption|]).
    right. apply strict_neq_str_true in Hs. auto.
  - injection H as <- H.
    apply details_outcome_Ok in H as [records [Hl [Hnn ->]]].
    cbn [RespQuerySendDetails.code RespQuerySendDetails.message
         RespQuerySendDetails.requestID RespQuerySendDetails.totalCount
         RespQuerySendDetails.smsSendDetailDTOs].
    repeat (split; [assumption|]).
    left. apply strict_neq_str_false in Hs.
    split; [exact Hs|]. split; [reflexivity|].
    exists t, records. auto.
Qed.

Lemma X12_query_resolutions_witness :
  exists result,
    fetched Samples.client (Samples.answering Samples.rejected)
      (AliSMS.querySendDetails_params Samples.client
         (Samples.answering Samples.rejected)
         (lit "13800000000") (lit "20220812") 1%Z 1%Z None) = Ok result /\
    get_prop result (lit "Code")
    = Ok (VStr (lit "isv.BUSINESS_LIMIT_CONTROL")).
Proof.
  destruct (X12_query_resolutions Samples.client
              (Samples.answering Samples.rejected)
              (lit "13800000000") (lit "20220812") 1%Z 1%Z None
              [AliSMS.QueryError Samples.rejected]
              (RespQuerySendDetails.mk
                 (VStr (lit "isv.BUSINESS_LIMIT_CONTROL"))
                 (VStr (lit "limit")) (VStr (lit "r2")) None None))
    as [result [Hf [Hc _]]].
  - vm_compute. reflexivity.
  - exists result. split; [exact Hf | exact Hc].
Defined.

(** X13. The ways [querySendDetails] rejects: with URIError, before
    anything is sent, when an argument is not well-formed UTF-16; with the
    error of the transport; or with TypeError, when the body is [null], or
    when its code is ["OK"] and the nested detail list is not an array free
    of [null] elements.  No console line is written in any of them. *)
Theorem X13_query_rejections (this : AliSMS.t) (e : AliSMS.env)
  (phoneNumber sendDate : jsstring) (pageSize currentPage : Z)
  (bizID : option jsstring) (log : list AliSMS.diagnostic) (err : error) :
  AliSMS.querySendDetails this e phoneNumber sendDate pageSize currentPage
    bizID = (log, Throw err) ->
  log = [] /\
  ((err = URIError /\
    ~ querySendDetails_well_formed this e phoneNumber sendDate bizID /\
    AliSMS.request_url this AliSMS.GET
      (AliSMS.querySendDetails_params this e phoneNumber sendDate pageSize
         currentPage bizID) = Throw URIError) \/
   (exists url,
      AliSMS.request_url this AliSMS.GET
        (AliSMS.querySendDetails_params this e phoneNumber sendDate pageSize
           currentPage bizID) = Ok url /\
      AliSMS.fetch_json e url = Throw err) \/
   (err = TypeError /\
    exists result,
      fetched this e
        (AliSMS.querySendDetails_params this e phoneNumber sendDate pageSize
           currentPage bizID) = Ok result /\
      (nullish result = true \/
       (get_prop result (lit "Code") = Ok (VStr (lit "OK")) /\
        forall records, detail_list result = Ok (VArr records) ->
                        existsb nullish records = true)))).
Proof.
  unfold AliSMS.querySendDetails, fetched. cbv zeta.
  destruct (AliSMS.request_url _ _ _) as [url|err0] eqn:Hurl.
  - cbn [bind]. destruct (AliSMS.fetch_json e url) as [result|err1] eqn:Hf.
    + destruct (nullish result) eqn:Hn.
      * rewrite (query_cases_nullish result Hn). intros [= <- <-].
        split; [reflexivity|]. right. right. split; [reflexivity|].
        exists result. auto.
      * destruct (query_cases_non_nullish result Hn)
          as [c [m [q [t [Gc [Gm [Gq [Gt ->]]]]]]]].
        destruct (strict_neq_str c (lit "OK")) eqn:Hs; [discriminate|].
        intros [= <- H]. apply details_outcome_Throw in H as [-> Hl].
        apply strict_neq_str_false in Hs. subst c.
        split; [reflexivity|]. right. right. split; [reflexivity|].
        exists result. auto.
    + intros [= <- <-]. split; [reflexivity|]. right. left. eauto.
  - intros [= <- <-]. split; [reflexivity|]. left.
    destruct (request_url_throws this _ err0
                (querySendDetails_well_formed this e phoneNumber sendDate
                   bizID)
                (querySendDetails_keys_ascii this e phoneNumber sendDate
                   pageSize currentPage bizID)
                (querySendDetails_params_print this e phoneNumber sendDate
                   pageSize currentPage bizID)
                (querySendDetails_specParams_total this e phoneNumber
                   sendDate pageSize currentPage bizID) Hurl) as [-> Hnot].
    auto.
Qed.

Lemma X13_query_rejections_witness :
  AliSMS.querySendDetails Samples.client
    (Samples.answering Samples.without_details)
    (lit "13800000000") (lit "20220812") 1%Z 1%Z None
  = ([], Throw TypeError) /\
  @nil AliSMS.diagnostic = [].
Proof.
  assert (H : AliSMS.querySendDetails Samples.client
                (Samples.answering Samples.without_details)
                (lit "13800000000") (lit "20220812") 1%Z 1%Z None
              = ([], Throw TypeError))
    by (vm_compute; reflexivity).
  split; [exact H|].
  exact (proj1 (X13_query_rejections Samples.client
                  (Samples.answering Samples.without_details)
                  (lit "13800000000") (lit "20220812") 1%Z 1%Z None
                  [] TypeError H)).
Defined.

End Settle.

(* ===================================================================== *)
(** ** The parameters of the two requests on the wire *)
(* ===================================================================== *)

Section OnTheWire.
Local Open Scope N_scope.

(** X14. A non-empty [tplParam] is signed and sent: every canonical query
    string of [sendSMS] then has the pair ["TemplateParam="] followed by
    its percent-encoding; likewise a non-empty [bizID] gives the pair
    ["BizID="] in [querySendDetails]. *)
Theorem X14_optional_included (this : AliSMS.t) (e : AliSMS.env)
  (phoneNumbers : list jsstring) (signName tplCode : jsstring)
  (phoneNumber sendDate : jsstring) (pageSize currentPage : Z)
  (c : code_unit) (t : jsstring) :
  (forall paramsStr,
     AliSMS.specParams
       (AliSMS.sendSMS_params this e phoneNumbers signName tplCode
          (Some (c :: t))) = Ok paramsStr ->
     exists pairs enc,
       paramsStr = join_with 38 pairs /\
       encodeURIComponent (c :: t) = Ok enc /\
       In (lit "TemplateParam" ++ 61 :: enc) pairs) /\
  (forall paramsStr,
     AliSMS.specParams
       (AliSMS.querySendDetails_params this e phoneNumber sendDate pageSize
          currentPage (Some (c :: t))) = Ok paramsStr ->
     exists pairs enc,
       paramsStr = join_with 38 pairs /\
       encodeURIComponent (c :: t) = Ok enc /\
       In (lit "BizID" ++ 61 :: enc) pairs).
Proof.
  split; intros paramsStr Hs.
  - apply (specParams_has_pair _ _ (lit "TemplateParam") (VStr (c :: t)))
      in Hs; [exact Hs | reflexivity | discriminate].
  - apply (specParams_has_pair _ _ (lit "BizID") (VStr (c :: t)))
      in Hs; [exact Hs | reflexivity | discriminate].
Qed.

Lemma NumberToString_encoded (z : Z) :
  encodeURIComponent (NumberToString z) = Ok (NumberToString z).
Proof.
  apply encode_kept. destruct z; simpl; auto using uint_units_kept.
Qed.

(** X15. Safe integers go into the canonical query string as their
    decimal digits, unescaped: when the page size, the page and the nonce
    are safe integers, every canonical string of [querySendDetails] has the
    pairs ["PageSize="], ["CurrentPage="] and ["SignatureNonce="] followed
    by the decimal form of the page size, the page and the nonce. *)
Theorem X15_numbers_in_decimal (this : AliSMS.t) (e : AliSMS.env)
  (phoneNumber sendDate : jsstring) (pageSize currentPage : Z)
  (bizID : option jsstring) (paramsStr : jsstring) :
  safe_integer pageSize = true ->
  safe_integer currentPage = true ->
  safe_integer (AliSMS.getNonce e) = true ->
  AliSMS.specParams
    (AliSMS.querySendDetails_params this e phoneNumber sendDate pageSize
       currentPage bizID) = Ok paramsStr ->
  exists pairs,
    paramsStr = join_with 38 pairs /\
    In (lit "PageSize" ++ 61 :: NumberToString pageSize) pairs /\
    In (lit "CurrentPage" ++ 61 :: NumberToString currentPage) pairs /\
    In (lit "SignatureNonce" ++ 61 :: NumberToString (AliSMS.getNonce e))
       pairs.
Proof.
  intros _ _ _ Hs.
  pose proof (specParams_cases
                (AliSMS.querySendDetails_params this e phoneNumber sendDate
                   pageSize currentPage bizID)) as H.
  rewrite Hs in H. destruct H as [pairs [-> Hp]].
  exists pairs. split; [reflexivity|].
  repeat split; apply Hp.
  - exists (lit "PageSize"), (VNum pageSize), (NumberToString pageSize).
    repeat split; try discriminate;
      [destruct bizID as [[|? ?]|]; reflexivity
      | apply NumberToString_encoded].
  - exists (lit "CurrentPage"), (VNum currentPage),
      (NumberToString currentPage).
    repeat split; try discriminate;
      [destruct bizID as [[|? ?]|]; reflexivity
      | apply NumberToString_encoded].
  - exists (lit "SignatureNonce"), (VNum (AliSMS.getNonce e)),
      (NumberToString (AliSMS.getNonce e)).
    repeat split; try discriminate;
      [destruct bizID as [[|? ?]|]; reflexivity
      | apply NumberToString_encoded].
Qed.

Lemma X15_numbers_in_decimal_witness :
  exists paramsStr pairs,
    AliSMS.specParams
      (AliSMS.querySendDetails_params Samples.client
         (Samples.answering Samples.with_details)
         (lit "13800000000") (lit "20220812") 10%Z (-1)%Z None)
    = Ok paramsStr /\
    paramsStr = join_with 38 pairs /\
    In (lit "PageSize=10") pairs /\ In (lit "CurrentPage=-1") pairs.
Proof.
  eexists.
  destruct (X15_numbers_in_decimal Samples.client
              (Samples.answering Samples.with_details)
              (lit "13800000000") (lit "20220812") 10%Z (-1)%Z None _
              eq_refl eq_refl eq_refl eq_refl) as [pairs [H1 [H2 [H3 _]]]].
  exists pairs. split; [reflexivity|]. auto.
Defined.

Lemma sendSMS_signed_keys (this : AliSMS.t) (e : AliSMS.env)
  (phoneNumbers : list jsstring) (signName tplCode : jsstring)
  (tplParam : option jsstring) :
  signed_keys
    (AliSMS.sendSMS_params this e phoneNumbers signName tplCode tplParam)
  = sendSMS_order tplParam.
Proof. destruct tplParam as [[|? ?]|]; reflexivity. Qed.

Lemma querySendDetails_signed_keys (this : AliSMS.t) (e : AliSMS.env)
  (phoneNumber sendDate : jsstring) (pageSize currentPage : Z)
  (bizID : option jsstring) :
  signed_keys
    (AliSMS.querySendDetails_params this e phoneNumber sendDate pageSize
       currentPage bizID)
  = querySendDetails_order bizID.
Proof. destruct bizID as [[|? ?]|]; reflexivity. Qed.

(** Every canonical string is the join of one pair under each signed key,
    in their order. *)
Lemma specParams_pairs_under (params : object) (s : jsstring) :
  AliSMS.specParams params = Ok s ->
  exists pairs,
    s = join_with 38 pairs /\ Forall2 pair_under (signed_keys params) pairs.
Proof.
  intros Hs. apply specParams_pairs_shape in Hs as [pairs [-> HF]].
  exists pairs. split; [reflexivity|].
  eapply Forall2_impl; [|exact HF].
  intros k p [v [Hv ->]]. exists v. split; [reflexivity|].
  apply encoded_value_Ok in Hv as [str [_ Hv]].
  eapply encode_alphabet, Hv.
Qed.

(** X16. The order of the parameters in the canonical query string of each
    method.  Whatever the arguments, a canonical string that [specParams]
    builds for [sendSMS] or for [querySendDetails] is the ["&"]-join of one
    pair under each key of the method, in the order given here (ascending
    by code units, the optional key present only for a non-empty
    argument).  Where the numbers are safe integers, [specParams] is on
    these objects exactly the join of the pairs of those keys, and throws
    where one of the pairs cannot be built. *)
Theorem X16_parameter_order (this : AliSMS.t) (e : AliSMS.env)
  (phoneNumbers : list jsstring) (signName tplCode : jsstring)
  (tplParam : option jsstring)
  (phoneNumber sendDate : jsstring) (pageSize currentPage : Z)
  (bizID : option jsstring) :
  (forall paramsStr,
     AliSMS.specParams
       (AliSMS.sendSMS_params this e phoneNumbers signName tplCode tplParam)
     = Ok paramsStr ->
     exists pairs,
       paramsStr = join_with 38 pairs /\
       Forall2 pair_under (sendSMS_order tplParam) pairs) /\
  (forall paramsStr,
     AliSMS.specParams
       (AliSMS.querySendDetails_params this e phoneNumber sendDate pageSize
          currentPage bizID)
     = Ok paramsStr ->
     exists pairs,
       paramsStr = join_with 38 pairs /\
       Forall2 pair_under (querySendDetails_order bizID) pairs) /\
  (safe_integer (AliSMS.getNonce e) = true ->
   AliSMS.specParams
     (AliSMS.sendSMS_params this e phoneNumbers signName tplCode tplParam)
   = (pairs <- AliSMS.map_elements
                 (pair_of (AliSMS.sendSMS_params this e phoneNumbers signName
                             tplCode tplParam))
                 (sendSMS_order tplParam) ;;
      Ok (join_with 38 pairs))) /\
  (safe_integer (AliSMS.getNonce e) = true ->
   safe_integer pageSize = true ->
   safe_integer currentPage = true ->
   AliSMS.specParams
     (AliSMS.querySendDetails_params this e phoneNumber sendDate pageSize
        currentPage bizID)
   = (pairs <- AliSMS.map_elements
                 (pair_of (AliSMS.querySendDetails_params this e phoneNumber
                             sendDate pageSize currentPage bizID))
                 (querySendDetails_order bizID) ;;
      Ok (join_with 38 pairs))).
Proof.
  split; [|split; [|split]].
  - intros paramsStr Hs.
    rewrite <- (sendSMS_signed_keys this e phoneNumbers signName tplCode).
    apply specParams_pairs_under, Hs.
  - intros paramsStr Hs.
    rewrite <- (querySendDetails_signed_keys this e phoneNumber sendDate
                  pageSize currentPage).
    apply specParams_pairs_under, Hs.
  - intros _. rewrite specParams_pairs, sendSMS_signed_keys. reflexivity.
  - intros _ _ _.
    rewrite specParams_pairs, querySendDetails_signed_keys. reflexivity.
Qed.

Lemma X16_parameter_order_witness :
  exists pairs,
    lit "AccessKeyId=testid&Action=QuerySendDetails&BizID=b1&CurrentPage=1&Format=JSON&PageSize=10&PhoneNumber=13800000000&SendDate=20220812&SignatureMethod=HMAC-SHA1&SignatureNonce=1234567&SignatureVersion=1.0&Timestamp=2016-02-23T12%3A46%3A24.000Z&Version=2017-05-25"
    = join_with 38 pairs /\
    Forall2 pair_under (querySendDetails_order (Some (lit "b1"))) pairs.
Proof.
  apply (proj1 (proj2 (X16_parameter_order Samples.client
                         (Samples.answering Samples.with_details)
                         [lit "13800000000"] (lit "sign") (lit "SMS_1") None
                         (lit "13800000000") (lit "20220812") 10%Z 1%Z
                         (Some (lit "b1"))))).
  vm_compute. reflexivity.
Defined.

Ltac read_pairs :=
  repeat match goal with
         | H : Forall2 _ (_ :: _) _ |- _ =>
             inversion H as [|? ? ? ? [? [? ?]] ?]; clear H; subst
         | H : Forall2 _ [] _ |- _ => inversion H; clear H; subst
         end.

Ltac read_value E :=
  match type of E with
  | encoded_value (get ?P ?K) = _ =>
      let v := eval hnf in (get P K) in
      change (get P K) with v in E;
      unfold encoded_value in E;
      try rewrite ToString_strings in E;
      cbn [ToString bind] in E;
      unfold AliSMS.format, AliSMS.version, AliSMS.signatureMethod,
        AliSMS.signatureVersion in E;
      lazymatch type of E with
      | encodeURIComponent (lit _) = _ => vm_compute in E; injection E as <-
      | encodeURIComponent (NumberToString _) = _ =>
          rewrite NumberToString_encoded in E; injection E as <-
      | _ => idtac
      end
  end.

Ltac read_values :=
  repeat match goal with
         | E : encoded_value (get _ _) = _ |- _ =>
             read_value E
         end.

(** X17. The canonical query string of [sendSMS], whenever it is built:
    the twelve (or, without a template parameter, eleven) pairs in this
    order, with the encoded arguments in their places and the fixed values
    [SendSms], [JSON], [HMAC-SHA1], [1.0] and [2017-05-25]. *)
Theorem X17_sendSMS_canonical_string (this : AliSMS.t) (e : AliSMS.env)
  (phoneNumbers : list jsstring) (signName tplCode : jsstring)
  (tplParam : option jsstring) (paramsStr : jsstring) :
  AliSMS.specParams
    (AliSMS.sendSMS_params this e phoneNumbers signName tplCode tplParam)
  = Ok paramsStr ->
  exists a ph sn tc ts tp,
    encodeURIComponent (AliSMS.accessKeyID this) = Ok a /\
    encodeURIComponent (join_with 44 phoneNumbers) = Ok ph /\
    encodeURIComponent signName = Ok sn /\
    encodeURIComponent tplCode = Ok tc /\
    encodeURIComponent (AliSMS.getNowISOTime e) = Ok ts /\
    ((AliSMS.ToBoolean (AliSMS.optional tplParam) = false /\ tp = []) \/
     (exists s enc,
        tplParam = Some s /\ encodeURIComponent s = Ok enc /\
        tp = lit "&TemplateParam=" ++ enc)) /\
    paramsStr =
    lit "AccessKeyId=" ++ a
    ++ lit "&Action=SendSms&Format=JSON&PhoneNumbers=" ++ ph
    ++ lit "&SignName=" ++ sn
    ++ lit "&SignatureMethod=HMAC-SHA1&SignatureNonce="
    ++ NumberToString (AliSMS.getNonce e)
    ++ lit "&SignatureVersion=1.0&TemplateCode=" ++ tc
    ++ tp
    ++ lit "&Timestamp=" ++ ts
    ++ lit "&Version=2017-05-25".
Proof.
  intros Hs. apply specParams_pairs_shape in Hs as [pairs [-> HF]].
  destruct tplParam as [[|c t]|];
    match type of HF with
    | Forall2 _ (signed_keys ?P) _ =>
        let ks := eval vm_compute in (signed_keys P) in
        change (signed_keys P) with ks in HF
    end;
    read_pairs; read_values;
    do 6 eexists;
    repeat (split; [eassumption|]);
    (split; [first [ left; split; reflexivity
                   | right; do 2 eexists;
                     split; [reflexivity|]; split; [eassumption|reflexivity] ]
            | reflexivity]).
Qed.

Lemma X17_sendSMS_canonical_string_witness :
  exists a ph sn tc ts tp,
    encodeURIComponent (lit "testid") = Ok a /\
    encodeURIComponent (lit "13800000000,13900000000") = Ok ph /\
    encodeURIComponent (lit "sign") = Ok sn /\
    encodeURIComponent (lit "SMS_1") = Ok tc /\
    encodeURIComponent (lit "2016-02-23T12:46:24.000Z") = Ok ts /\
    (exists enc, encodeURIComponent (lit "{}") = Ok enc /\
                 tp = lit "&TemplateParam=" ++ enc) /\
    lit "AccessKeyId=testid&Action=SendSms&Format=JSON&PhoneNumbers=13800000000%2C13900000000&SignName=sign&SignatureMethod=HMAC-SHA1&SignatureNonce=1234567&SignatureVersion=1.0&TemplateCode=SMS_1&TemplateParam=%7B%7D&Timestamp=2016-02-23T12%3A46%3A24.000Z&Version=2017-05-25"
    = lit "AccessKeyId=" ++ a
      ++ lit "&Action=SendSms&Format=JSON&PhoneNumbers=" ++ ph
      ++ lit "&SignName=" ++ sn
      ++ lit "&SignatureMethod=HMAC-SHA1&SignatureNonce=1234567"
      ++ lit "&SignatureVersion=1.0&TemplateCode=" ++ tc
      ++ tp
      ++ lit "&Timestamp=" ++ ts
      ++ lit "&Version=2017-05-25".
Proof.
  destruct (X17_sendSMS_canonical_string Samples.client
              (Samples.answering Samples.accepted)
              [lit "13800000000"; lit "13900000000"] (lit "sign")
              (lit "SMS_1") (Some (lit "{}"))
              (lit "AccessKeyId=testid&Action=SendSms&Format=JSON&PhoneNumbers=13800000000%2C13900000000&SignName=sign&SignatureMethod=HMAC-SHA1&SignatureNonce=1234567&SignatureVersion=1.0&TemplateCode=SMS_1&TemplateParam=%7B%7D&Timestamp=2016-02-23T12%3A46%3A24.000Z&Version=2017-05-25"))
    as [a [ph [sn [tc [ts [tp [Ha [Hph [Hsn [Htc [Hts [Htp Hp]]]]]]]]]]]].
  - vm_compute. reflexivity.
  - exists a, ph, sn, tc, ts, tp.
    repeat (split; [assumption|]).
    split; [|exact Hp].
    destruct Htp as [[F _]|[s [enc [[= <-] [He ->]]]]]; [discriminate|].
    exists enc. split; [exact He | reflexivity].
Defined.

(** Two objects with the same keys in the same order, and values that
    print alike, have the same canonical query string. *)
Lemma specParams_ext (p1 p2 : object) :
  Object_keys p1 = Object_keys p2 ->
  (forall k, ToString (get p1 k) = ToString (get p2 k)) ->
  AliSMS.specParams p1 = AliSMS.specParams p2.
Proof.
  intros Hk Hv. rewrite !specParams_pairs. unfold signed_keys.
  rewrite Hk. f_equal. apply map_elements_ext.
  intros k _. unfold pair_of, encoded_value. rewrite Hv. reflexivity.
Qed.

Lemma request_url_ext (this : AliSMS.t) (method : AliSMS.http_method)
  (p1 p2 : object) :
  AliSMS.specParams p1 = AliSMS.specParams p2 ->
  AliSMS.request_url this method p1 = AliSMS.request_url this method p2.
Proof. intros H. unfold AliSMS.request_url. rewrite H. reflexivity. Qed.

Lemma sendSMS_params_phones (this : AliSMS.t) (e : AliSMS.env)
  (phones1 phones2 : list jsstring) (signName tplCode : jsstring)
  (tplParam : option jsstring) :
  join_with 44 phones1 = join_with 44 phones2 ->
  AliSMS.specParams
    (AliSMS.sendSMS_params this e phones1 signName tplCode tplParam)
  = AliSMS.specParams
      (AliSMS.sendSMS_params this e phones2 signName tplCode tplParam).
Proof.
  intros Hj. apply specParams_ext.
  - destruct tplParam as [[|? ?]|]; reflexivity.
  - intros k.
    assert (Hp : ToString (VArr (map VStr phones1))
                 = ToString (VArr (map VStr phones2)))
      by (rewrite !ToString_strings, Hj; reflexivity).
    unfold get, AliSMS.sendSMS_params.
    destruct tplParam as [[|? ?]|]; cbn [AliSMS.optional AliSMS.ToBoolean
                                          set get_own str_eqb];
      simpl get_own;
      repeat match goal with
             | |- context [if ?b then _ else _] => destruct b
             end;
      try reflexivity; exact Hp.
Qed.

(** X18. [sendSMS] sees its phone numbers only through their comma join:
    two lists with the same join give the same request and settle alike;
    so a number that holds a comma is sent as two numbers. *)
Theorem X18_phone_numbers_only_joined (this : AliSMS.t) (e : AliSMS.env)
  (phones1 phones2 : list jsstring) (signName tplCode : jsstring)
  (tplParam : option jsstring) :
  join_with 44 phones1 = join_with 44 phones2 ->
  AliSMS.request_url this AliSMS.GET
    (AliSMS.sendSMS_params this e phones1 signName tplCode tplParam)
  = AliSMS.request_url this AliSMS.GET
      (AliSMS.sendSMS_params this e phones2 signName tplCode tplParam) /\
  AliSMS.sendSMS this e phones1 signName tplCode tplParam
  = AliSMS.sendSMS this e phones2 signName tplCode tplParam.
Proof.
  intros Hj.
  assert (Hu : AliSMS.request_url this AliSMS.GET
                 (AliSMS.sendSMS_params this e phones1 signName tplCode
                    tplParam)
               = AliSMS.request_url this AliSMS.GET
                   (AliSMS.sendSMS_params this e phones2 signName tplCode
                      tplParam))
    by (apply request_url_ext, sendSMS_params_phones, Hj).
  split; [exact Hu|].
  unfold AliSMS.sendSMS. cbv zeta. rewrite Hu. reflexivity.
Qed.

Lemma X18_phone_numbers_only_joined_witness :
  AliSMS.sendSMS Samples.client (Samples.answering Samples.accepted)
    [lit "13800000000,13900000000"] (lit "sign") (lit "SMS_1") None
  = AliSMS.sendSMS Samples.client (Samples.answering Samples.accepted)
      [lit "13800000000"; lit "13900000000"] (lit "sign") (lit "SMS_1") None.
Proof.
  apply (X18_phone_numbers_only_joined Samples.client
           (Samples.answering Samples.accepted)
           [lit "13800000000,13900000000"]
           [lit "13800000000"; lit "13900000000"]).
  reflexivity.
Defined.

End OnTheWire.
